(** * Node migration core of clusterman: a shallow embedding

    The first part follows [clusterman/migration/worker.py]: the pool
    health monitor, the chunked selection draining, the uptime worker and
    the event worker. Everything the worker reaches outside of itself (the
    pool manager, the cluster connector, the clock, the monitoring client,
    the pool lock, the autoscaler toggle) is an external call: the
    embedding threads an abstract world through the code, asks the world
    for the answer of every call and records the call in a chronological
    trace. A call on a collaborator is taken to return, but for the
    release of the pool lock, which raises ValueError on a lock that is not
    locked; the other exceptions of the embedding are the ones that the
    worker raises itself and those of [range], [mean] and
    [limit_function_runtime]. Logging calls are not recorded.

    The modules [Draining] and [Event] cover the draining queue and the
    migration conditions, whose sources are not at hand: they are written
    from the specification and from the test suites. [Sim], [Bare] and
    [Handover] are small worlds on which the worker runs in the examples.
    The properties come last. *)

From Stdlib Require Import ZArith NArith QArith Qround Qabs Lia.
From Stdlib Require Import Ascii DecimalString DecimalPos DecimalN.
From stdpp Require Import base option list strings gmap.

Local Open Scope Z_scope.

(** ** Data model (clusterman.interfaces.types) *)

Record AgentMetadata := mkAgent {
  agent_id : string;
  task_count : Z;
}.

Record InstanceMetadata := mkInstance {
  instance_id : string;
  ip_address : string;
  weight : Q;          (* a float: a double is a rational number *)
  uptime : Z;          (* uptime.total_seconds() *)
}.

Record ClusterNodeMetadata := mkNode {
  agent : AgentMetadata;
  instance : InstanceMetadata;
}.

Inductive TerminationReason := SCALING_DOWN | SPOT_INTERRUPTION | NODE_MIGRATION.

(** Module constants of worker.py. *)
Definition UPTIME_CHECK_INTERVAL_SECONDS : Z := 60 * 60.
Definition INITIAL_POOL_HEALTH_TIMEOUT_SECONDS : Z := 15 * 60.
Definition SUPPORTED_POOL_SCHEDULER : string := "kubernetes".
Definition AWS_RUNNING_STATES : list string := ["running"%string].

Definition SFX_NODE_DRAIN_COUNT : string := "clusterman.node_migration.drain_count".
Definition SFX_MIGRATION_JOB_DURATION : string := "clusterman.node_migration.duration".
Definition SFX_DRAINED_NODE_UPTIME : string := "clusterman.node_migration.drained_node_uptime".

(** ** External calls

    One constructor per call the worker makes on a collaborator, indexed by
    the type of the answer. Timestamps and durations are seconds on a
    discrete clock. The metrics are tagged with the cluster and the pool of
    the manager, which belong to the world and are not repeated in the
    calls. The answer of [lock_release] tells whether the lock was locked:
    [release()] of a lock that is not locked raises ValueError, whoever
    locked it. *)

Inductive Call : Type -> Type :=
  (* time *)
  | time_time : Call Z
  | time_sleep (seconds : Z) : Call unit
  (* PoolManager *)
  | PoolManager_init (cluster pool scheduler : string) (fetch_state : bool) : Call unit
  | reload_state (load_pods_info : bool) : Call unit
  | is_capacity_satisfied : Call bool
  | get_node_metadatas (states : list string) : Call (list ClusterNodeMetadata)
  | submit_for_draining (node : ClusterNodeMetadata) (reason : TerminationReason) : Call unit
  | draining_client : Call bool
  | target_capacity : Call Q
  | modify_target_capacity (capacity : Z) : Call unit
  (* KubernetesClusterConnector *)
  | get_agent_metadata (ip : string) : Call AgentMetadata
  | has_enough_capacity_for_pods : Call bool
  | set_label_selectors (selectors : list string) (add_to_existing : bool) : Call unit
  (* monitoring client *)
  | create_counter (name : string) : Call unit
  | create_timer (name : string) : Call unit
  | create_gauge (name : string) : Call unit
  | counter_count : Call unit
  | timer_start : Call unit
  | timer_stop : Call unit
  | gauge_set (value : Z) : Call unit
  (* pool lock *)
  | lock_acquire (timeout_seconds : option Z) : Call bool
  | lock_release : Call bool
  (* autoscaler toggle *)
  | disable_autoscaling (cluster pool scheduler : string) (until : Z) : Call unit
  | enable_autoscaling (cluster pool scheduler : string) : Call unit.

Inductive Logged :=
  | Log : forall A : Type, Call A -> Logged.
Arguments Log {A} c.

(** Exceptions the embedded code can raise. *)
Inductive MigrationFailure := PoolNotHealthy | FailedMigratingNodes.

Inductive Exn :=
  | NodeMigrationError (why : MigrationFailure)
  | ValueError
  | StatisticsError
  | OtherException (name : string).

Inductive Outcome (A : Type) :=
  | Returned (a : A)
  | Raised (e : Exn)
  | OutOfFuel.
Arguments Returned {A} a.
Arguments Raised {A} e.
Arguments OutOfFuel {A}.

(** The three latches of [_monitor_pool_health]. *)
Record Latches := mkLatches {
  draining_happened : bool;
  capacity_satisfied : bool;
  pods_healthy : bool;
}.

Definition no_latch : Latches := mkLatches false false false.

Definition all_latched (l : Latches) : bool :=
  draining_happened l && capacity_satisfied l && pods_healthy l.

Definition latches_le (l1 l2 : Latches) : Prop :=
  (draining_happened l1 = true -> draining_happened l2 = true) /\
  (capacity_satisfied l1 = true -> capacity_satisfied l2 = true) /\
  (pods_healthy l1 = true -> pods_healthy l2 = true).

(** ** The effect monad

    A computation runs on a state made of the world and the trace of the
    calls made so far. It returns a value, raises an exception, or runs out
    of fuel (only the polling loop of the health monitor consumes fuel). *)

Record State (W : Type) := mkState {
  world : W;
  trace : list Logged;
}.
Arguments mkState {W} world trace.
Arguments world {W} s.
Arguments trace {W} s.

Definition M (W A : Type) : Type := State W -> Outcome A * State W.

(** The collaborators: [handle] answers a call and moves the world on;
    [limit_function_runtime] is the helper of clusterman.util, which runs a
    routine under a wall-clock budget. *)
Class Environment (W : Type) := {
  handle : forall A : Type, Call A -> W -> A * W;
  limit_function_runtime : M W bool -> Z -> M W bool;
}.

(** What worker.py uses of clusterman.migration.settings and of
    clusterman.migration.event, whose sources are not part of the
    development: the portion of a pool, the precedence sort key (compared
    with [<] by [sorted]) and the match of a condition on a node. *)
Class Settings := {
  PoolPortion : Type;
  PoolPortion_of : PoolPortion -> Z -> Z;
  MigrationPrecendence : Type;
  SortKey : Type;
  sort_key : MigrationPrecendence -> ClusterNodeMetadata -> SortKey;
  key_lt : SortKey -> SortKey -> bool;
  EventCondition : Type;
  matches : EventCondition -> ClusterNodeMetadata -> bool;
}.

Record WorkerSetup `{Settings} := mkWorkerSetup {
  rate : PoolPortion;
  prescaling : option PoolPortion;
  precedence : MigrationPrecendence;
  bootstrap_wait : Z;
  bootstrap_timeout : Z;
  disable_autoscaling_flag : bool;
  expected_duration : Z;
  health_check_interval : Z;
  ignore_pod_health : bool;
}.
Arguments mkWorkerSetup {_} rate prescaling precedence bootstrap_wait
  bootstrap_timeout disable_autoscaling_flag expected_duration
  health_check_interval ignore_pod_health.

Record MigrationEvent `{Settings} := mkMigrationEvent {
  resource_name : string;
  cluster : string;
  pool : string;
  label_selectors : list string;
  condition : EventCondition;
}.
Arguments mkMigrationEvent {_} resource_name cluster pool label_selectors
  condition.

Section Monad.
Context {W : Type}.

Definition ret {A} (a : A) : M W A := fun s => (Returned a, s).

Definition raise {A} (e : Exn) : M W A := fun s => (Raised e, s).

Definition out_of_fuel {A} : M W A := fun s => (OutOfFuel, s).

Definition bind {A B} (m : M W A) (k : A -> M W B) : M W B :=
  fun s =>
    match m s with
    | (Returned a, s') => k a s'
    | (Raised e, s') => (Raised e, s')
    | (OutOfFuel, s') => (OutOfFuel, s')
    end.

Definition call `{Environment W} {A} (c : Call A) : M W A :=
  fun s =>
    let r := handle A c (world s) in
    (Returned (fst r), mkState (snd r) (trace s ++ [Log c])).

(** An [if] statement without [else]. *)
Definition when (b : bool) (m : M W unit) : M W unit :=
  if b then m else ret tt.

(** [try: body / except Exception: raise / finally: cleanup]: the cleanup
    runs whether the body returned or raised; an exception of the body is
    raised again after it. *)
Definition try_finally {A} (body : M W A) (cleanup : M W unit) : M W A :=
  fun s =>
    match body s with
    | (OutOfFuel, s') => (OutOfFuel, s')
    | (r, s') =>
        match cleanup s' with
        | (Returned _, s'') => (r, s'')
        | (Raised e, s'') => (Raised e, s'')
        | (OutOfFuel, s'') => (OutOfFuel, s'')
        end
    end.
End Monad.

(** [x ← c; k] and [c ;; k] are stdpp's notations for [mbind]. *)
#[export] Instance M_ret {W} : MRet (M W) := fun A a => ret a.
#[export] Instance M_bind {W} : MBind (M W) := fun A B k m => bind m k.

(** ** Python built-ins used by the worker *)

(** [range(start, stop, step)] for a step other than zero (a zero step
    raises ValueError, which the caller models). *)
Definition py_range (start stop step : Z) : list Z :=
  if 0 <? step then
    map (fun k => start + Z.of_nat k * step)
        (seq 0 (Z.to_nat ((stop - start + step - 1) / step)))
  else if step <? 0 then
    map (fun k => start + Z.of_nat k * step)
        (seq 0 (Z.to_nat ((start - stop - step - 1) / (- step))))
  else [].

(** [l[i:j]] for indices that are not negative. *)
Definition slice {A} (l : list A) (i j : Z) : list A :=
  take (Z.to_nat j - Z.to_nat i) (drop (Z.to_nat i) l).

(** [round(x)] with one argument: to the nearest integer, halves to the
    even one. *)
Definition py_round (q : Q) : Z :=
  let f := Qfloor q in
  match (2 * (q - inject_Z f) ?= 1)%Q with
  | Lt => f
  | Gt => f + 1
  | Eq => if Z.even f then f else f + 1
  end.

Definition pow2 (k : Z) : Q :=
  if 0 <=? k then inject_Z (2 ^ k) else 1 # Z.to_pos (2 ^ (- k)).

(** Python floats are IEEE 754 doubles, and a finite double is a rational
    number. [fl q] is the double nearest to [q], halves to the even
    mantissa of 53 bits; the exponent is not bounded (no overflow, no
    subnormal numbers). A float operation is the exact operation followed
    by [fl]. *)
Definition fl (q : Q) : Q :=
  match Qnum q with
  | 0 => 0%Q
  | _ =>
      let a := Qabs q in
      let e := Z.log2 (Qnum a) - Z.log2 (Zpos (Qden a)) in
      let e := if Qle_bool (pow2 e) a then e else e - 1 in
      let ulp := pow2 (e - 52) in
      Qred (inject_Z (Z.sgn (Qnum q) * py_round (a / ulp)) * ulp)
  end.

(** [statistics.mean] on floats: the exact mean, rounded once; None stands
    for the StatisticsError on no data. *)
Definition mean (xs : list Q) : option Q :=
  match xs with
  | [] => None
  | _ :: _ =>
      Some (fl (foldr Qplus 0%Q xs / inject_Z (Z.of_nat (length xs))))
  end.

(** ** worker.py *)

Section Worker.
Context {W : Type} {env : Environment W} {settings : Settings}.

(** The generator inside [any(...)] of [_monitor_pool_health]: it asks the
    connector node by node and stops at the first node whose agent is
    still the one that was drained. *)
Fixpoint any_agent_unchanged (drained : list ClusterNodeMetadata) : M W bool :=
  match drained with
  | [] => mret false
  | node :: rest =>
      current ← call (get_agent_metadata (ip_address (instance node)));
      if String.eqb (agent_id (agent node)) (agent_id current)
      then mret true
      else any_agent_unchanged rest
  end.

(** The body of the [while] loop up to the test of the three latches. *)
Definition poll_pool_health (drained : list ClusterNodeMetadata)
    (ignore_pod_health : bool) (l : Latches) : M W Latches :=
  call (reload_state (negb ignore_pod_health)) ;;
  d ← (if draining_happened l then mret true
       else still ← any_agent_unchanged drained; mret (negb still));
  c ← (if capacity_satisfied l then mret true
       else if d then call is_capacity_satisfied else mret false);
  p ← (if pods_healthy l then mret true
       else if d
            then (if ignore_pod_health then mret true
                  else call has_enough_capacity_for_pods)
            else mret false);
  mret (mkLatches d c p).

Fixpoint monitor_loop (fuel : nat) (timeout : Z)
    (drained : list ClusterNodeMetadata) (health_check_interval_seconds : Z)
    (ignore_pod_health : bool) (l : Latches) : M W bool :=
  match fuel with
  | O => out_of_fuel
  | S fuel' =>
      now ← call time_time;
      if now <? timeout then
        l' ← poll_pool_health drained ignore_pod_health l;
        if all_latched l' then mret true
        else
          call (time_sleep health_check_interval_seconds) ;;
          monitor_loop fuel' timeout drained health_check_interval_seconds
            ignore_pod_health l'
      else mret false
  end.

Definition _monitor_pool_health (fuel : nat) (timeout : Z)
    (drained : list ClusterNodeMetadata) (health_check_interval_seconds : Z)
    (ignore_pod_health : bool) : M W bool :=
  monitor_loop fuel timeout drained health_check_interval_seconds
    ignore_pod_health no_latch.

(** *** The polls of one call, for the statements about the latches

    [loop_head n] runs [n] rounds of the loop that do not leave it (clock
    reading, poll, sleep) and returns the latches at the head of round
    [n]; [reading n] is the clock reading that decides whether poll [n]
    takes place and [latches_after n] is the state of the latches at the
    end of poll [n]. Polls are counted from 0. The polls always return
    (see [poll_pool_health_returns]), so the default values are never
    used. *)
Fixpoint loop_head (n : nat) (drained : list ClusterNodeMetadata)
    (health_check_interval_seconds : Z) (ignore_pod_health : bool)
    (l : Latches) : M W Latches :=
  match n with
  | O => mret l
  | S n' =>
      call time_time ;;
      l' ← poll_pool_health drained ignore_pod_health l;
      call (time_sleep health_check_interval_seconds) ;;
      loop_head n' drained health_check_interval_seconds ignore_pod_health l'
  end.

Definition value_or {A} (default : A) (r : Outcome A * State W) : A :=
  match r with
  | (Returned a, _) => a
  | _ => default
  end.

Definition reading (n : nat) (drained : list ClusterNodeMetadata)
    (health_check_interval_seconds : Z) (ignore_pod_health : bool)
    (l : Latches) (s : State W) : Z :=
  value_or 0
    ((l' ← loop_head n drained health_check_interval_seconds
              ignore_pod_health l;
      call time_time) s).

Definition latches_after (n : nat) (drained : list ClusterNodeMetadata)
    (health_check_interval_seconds : Z) (ignore_pod_health : bool)
    (l : Latches) (s : State W) : Latches :=
  value_or no_latch
    ((l' ← loop_head n drained health_check_interval_seconds
              ignore_pod_health l;
      call time_time ;;
      poll_pool_health drained ignore_pod_health l') s).

(** The state in which a round of the loop polls: the clock has just been
    read. *)
Definition after_reading (s : State W) : State W :=
  mkState (snd (handle Z time_time (world s))) (trace s ++ [Log time_time]).

Definition after_sleep (interval : Z) (s : State W) : State W :=
  mkState (snd (handle unit (time_sleep interval) (world s)))
          (trace s ++ [Log (time_sleep interval)]).

(** [sorted(xs, key=...)]: a stable sort that compares keys with [<]. *)
Fixpoint insert_by_key (key : ClusterNodeMetadata -> SortKey)
    (x : ClusterNodeMetadata) (l : list ClusterNodeMetadata) :=
  match l with
  | [] => [x]
  | y :: ys =>
      if key_lt (key y) (key x) then y :: insert_by_key key x ys
      else x :: y :: ys
  end.

Definition sorted (key : ClusterNodeMetadata -> SortKey)
    (l : list ClusterNodeMetadata) : list ClusterNodeMetadata :=
  foldr (insert_by_key key) [] l.

(** The inner [for node in selection_chunk] loop. *)
Fixpoint submit_chunk (selection_chunk : list ClusterNodeMetadata) : M W unit :=
  match selection_chunk with
  | [] => mret tt
  | node :: rest =>
      call (submit_for_draining node NODE_MIGRATION) ;;
      call (gauge_set (uptime (instance node))) ;;
      call counter_count ;;
      submit_chunk rest
  end.

(** One round of the outer loop, up to the answer of the monitor. *)
Definition drain_chunk (fuel : nat) (worker_setup : WorkerSetup)
    (selected : list ClusterNodeMetadata) (chunk i : Z) : M W bool :=
  start_time ← call time_time;
  let selection_chunk := slice selected i (i + chunk) in
  submit_chunk selection_chunk ;;
  call (time_sleep (bootstrap_wait worker_setup)) ;;
  _monitor_pool_health fuel
    (start_time + bootstrap_timeout worker_setup)
    selection_chunk
    (health_check_interval worker_setup)
    (ignore_pod_health worker_setup).

(** The outer [for i in range(0, len(selected), chunk)] loop together with
    what follows it. *)
Fixpoint drain_chunks (fuel : nat) (worker_setup : WorkerSetup)
    (selected : list ClusterNodeMetadata) (chunk : Z) (starts : list Z)
    : M W bool :=
  match starts with
  | [] => call timer_stop ;; mret true
  | i :: rest =>
      healthy ← drain_chunk fuel worker_setup selected chunk i;
      if negb healthy then call timer_stop ;; mret false
      else drain_chunks fuel worker_setup selected chunk rest
  end.

Definition _drain_node_selection (fuel : nat)
    (selector : ClusterNodeMetadata -> bool) (worker_setup : WorkerSetup)
    : M W bool :=
  nodes ← call (get_node_metadatas AWS_RUNNING_STATES);
  let selected :=
    sorted (sort_key (precedence worker_setup)) (List.filter selector nodes) in
  match selected with
  | [] => mret true
  | _ :: _ =>
      call (create_counter SFX_NODE_DRAIN_COUNT) ;;
      call (create_timer SFX_MIGRATION_JOB_DURATION) ;;
      call (create_gauge SFX_DRAINED_NODE_UPTIME) ;;
      let chunk := PoolPortion_of (rate worker_setup) (Z.of_nat (length nodes)) in
      call timer_start ;;
      if chunk =? 0 then raise ValueError
      else drain_chunks fuel worker_setup selected chunk
             (py_range 0 (Z.of_nat (length selected)) chunk)
  end.

(** *** The run of one selection, for the statements about the chunks

    [submitted t] lists the nodes handed to [submit_for_draining] along a
    trace. [selection_setup] is the part of [_drain_node_selection] that
    comes before the loop when the selection is not empty: its answer is the
    list of running nodes and its final state is the one in which the loop
    starts. [chunks_healthy starts s s'] says that the rounds of the loop
    for the start indices [starts], run from [s], all found the pool healthy
    and ended in [s']. *)
Definition submission (e : Logged) : option ClusterNodeMetadata :=
  match e with
  | Log (submit_for_draining node _) => Some node
  | Log _ => None
  end.

Definition submitted (t : list Logged) : list ClusterNodeMetadata :=
  omap submission t.

Definition selection_setup : M W (list ClusterNodeMetadata) :=
  nodes ← call (get_node_metadatas AWS_RUNNING_STATES);
  call (create_counter SFX_NODE_DRAIN_COUNT) ;;
  call (create_timer SFX_MIGRATION_JOB_DURATION) ;;
  call (create_gauge SFX_DRAINED_NODE_UPTIME) ;;
  call timer_start ;;
  mret nodes.

Inductive chunks_healthy (fuel : nat) (worker_setup : WorkerSetup)
    (selected : list ClusterNodeMetadata) (chunk : Z)
    : list Z -> State W -> State W -> Prop :=
  | no_chunk s : chunks_healthy fuel worker_setup selected chunk [] s s
  | healthy_chunk i rest s s1 s2 :
      drain_chunk fuel worker_setup selected chunk i s = (Returned true, s1) ->
      chunks_healthy fuel worker_setup selected chunk rest s1 s2 ->
      chunks_healthy fuel worker_setup selected chunk (i :: rest) s s2.

(** A computation that submits nothing for draining. *)
Definition silent {A} (m : M W A) : Prop :=
  forall s, submitted (trace (snd (m s))) = submitted (trace s).

(** The chunks that the loop cuts out of the selection. *)
Definition selection_chunks (selected : list ClusterNodeMetadata) (chunk : Z)
    (starts : list Z) : list (list ClusterNodeMetadata) :=
  map (fun i => slice selected i (i + chunk)) starts.

(** [pool_lock.release()]: ValueError when the lock is not locked. *)
Definition release_lock : M W unit :=
  locked ← call lock_release;
  if locked : bool then mret tt else raise ValueError.

(** Lines 209-214 of the event worker. The weights and the target capacity
    are floats; [offset] is an integer, converted for the product. *)
Definition apply_prescaling (portion : PoolPortion) : M W unit :=
  nodes ← call (get_node_metadatas AWS_RUNNING_STATES);
  let offset := PoolPortion_of portion (Z.of_nat (length nodes)) in
  match mean (map (fun node => weight (instance node)) nodes) with
  | None => raise StatisticsError
  | Some avg_weight =>
      current ← call target_capacity;
      call (modify_target_capacity
              (py_round
                 (fl (current + fl (fl (inject_Z offset) * avg_weight)))%Q))
  end.

(** The [while True] loop of the uptime worker, for [rounds] iterations. *)
Fixpoint uptime_loop (rounds fuel : nat)
    (node_selector : ClusterNodeMetadata -> bool) (worker_setup : WorkerSetup)
    : M W unit :=
  match rounds with
  | O => out_of_fuel
  | S rounds' =>
      satisfied ← call is_capacity_satisfied;
      when satisfied
        (call (lock_acquire None) ;;
         try_finally
           (_drain_node_selection fuel node_selector worker_setup ;; mret tt)
           release_lock) ;;
      call (time_sleep UPTIME_CHECK_INTERVAL_SECONDS) ;;
      call (reload_state (negb (ignore_pod_health worker_setup))) ;;
      uptime_loop rounds' fuel node_selector worker_setup
  end.

Definition uptime_migration_worker (rounds fuel : nat) (cluster pool : string)
    (uptime_seconds : Z) (worker_setup : WorkerSetup) : M W unit :=
  call (PoolManager_init cluster pool SUPPORTED_POOL_SCHEDULER true) ;;
  let node_selector := fun node : ClusterNodeMetadata => uptime_seconds <? uptime (instance node) in
  has_client ← call draining_client;
  if negb has_client then mret tt
  else uptime_loop rounds fuel node_selector worker_setup.

(** The [try] block of the event worker. The answer of
    [pool_lock.acquire] is dropped, as in the source, and
    [pool_lock_acquired] is set as soon as the call is back. *)
Definition event_migration_body (fuel : nat) (migration_event : MigrationEvent)
    (worker_setup : WorkerSetup) : M W unit :=
  call (lock_acquire (Some (expected_duration worker_setup))) ;;
  when (disable_autoscaling_flag worker_setup)
    (now ← call time_time;
     call (disable_autoscaling (cluster migration_event) (pool migration_event)
             SUPPORTED_POOL_SCHEDULER (now + expected_duration worker_setup))) ;;
  match prescaling worker_setup with
  | Some portion => apply_prescaling portion
  | None => ret tt
  end ;;
  now ← call time_time;
  healthy ← _monitor_pool_health fuel
              (now + INITIAL_POOL_HEALTH_TIMEOUT_SECONDS) []
              (health_check_interval worker_setup) true;
  if negb healthy then raise (NodeMigrationError PoolNotHealthy)
  else
    let node_selector := fun node : ClusterNodeMetadata =>
      negb (String.eqb (agent_id (agent node)) "")
      && negb (matches (condition migration_event) node) in
    migrated ← limit_function_runtime
                 (_drain_node_selection fuel node_selector worker_setup)
                 (expected_duration worker_setup);
    if negb migrated then raise (NodeMigrationError FailedMigratingNodes)
    else mret tt.

(** The [finally] block: [pool_lock_acquired] is true whenever
    [pool_lock.acquire] came back, which it always does here, so the lock
    is released whether it was acquired or not; when the release raises,
    autoscaling is not enabled again. *)
Definition event_migration_cleanup (migration_event : MigrationEvent)
    (worker_setup : WorkerSetup) : M W unit :=
  release_lock ;;
  when (disable_autoscaling_flag worker_setup)
    (call (enable_autoscaling (cluster migration_event) (pool migration_event)
             SUPPORTED_POOL_SCHEDULER)).

Definition event_migration_worker (fuel : nat) (migration_event : MigrationEvent)
    (worker_setup : WorkerSetup) : M W unit :=
  call (PoolManager_init (cluster migration_event) (pool migration_event)
          SUPPORTED_POOL_SCHEDULER false) ;;
  call (set_label_selectors (label_selectors migration_event) true) ;;
  call (reload_state (negb (ignore_pod_health worker_setup))) ;;
  try_finally
    (event_migration_body fuel migration_event worker_setup)
    (event_migration_cleanup migration_event worker_setup).

End Worker.

(** ** Reading a trace

    Classes of calls and measures on traces, for the statements about what
    a run does and does not do. *)

(** The calls of [_monitor_pool_health]: the clock, the sleep, the reload
    of the state and the three questions on the pool. *)
Definition monitor_call (e : Logged) : bool :=
  match e with
  | Log c =>
      match c with
      | time_time | time_sleep _ | reload_state _ | get_agent_metadata _
      | is_capacity_satisfied | has_enough_capacity_for_pods => true
      | _ => false
      end
  end.

(** The calls that look at pods: the reload with the pods' information and
    the question on the capacity for pods. *)
Definition pod_call (e : Logged) : bool :=
  match e with
  | Log c =>
      match c with
      | reload_state load_pods_info => load_pods_info
      | has_enough_capacity_for_pods => true
      | _ => false
      end
  end.

Definition agent_question (e : Logged) : bool :=
  match e with
  | Log c => match c with get_agent_metadata _ => true | _ => false end
  end.

Definition capacity_question (e : Logged) : bool :=
  match e with
  | Log c => match c with is_capacity_satisfied => true | _ => false end
  end.

Definition pods_question (e : Logged) : bool :=
  match e with
  | Log c => match c with has_enough_capacity_for_pods => true | _ => false end
  end.

Definition lock_call (e : Logged) : bool :=
  match e with
  | Log c => match c with lock_acquire _ | lock_release => true | _ => false end
  end.

Definition capacity_change (e : Logged) : bool :=
  match e with
  | Log c => match c with modify_target_capacity _ => true | _ => false end
  end.

(** The calls of [_drain_node_selection]: those of the monitor, the listing
    of the nodes, the submissions and the metrics. *)
Definition selection_call (e : Logged) : bool :=
  match e with
  | Log c =>
      match c with
      | get_node_metadatas _ | submit_for_draining _ _
      | create_counter _ | create_timer _ | create_gauge _
      | counter_count | timer_start | timer_stop | gauge_set _ => true
      | _ => monitor_call e
      end
  end.

(** The calls of the inner loop of [_drain_node_selection] on a chunk:
    the submission, the gauge and the counter, node after node. *)
Definition submission_calls (selection_chunk : list ClusterNodeMetadata)
    : list Logged :=
  flat_map (fun node => [Log (submit_for_draining node NODE_MIGRATION);
                         Log (gauge_set (uptime (instance node)));
                         Log counter_count])
           selection_chunk.

(** Acquisitions of the pool lock minus releases along a trace. *)
Fixpoint held (t : list Logged) : Z :=
  match t with
  | [] => 0
  | Log c :: rest =>
      match c with
      | lock_acquire _ => 1
      | lock_release => -1
      | _ => 0
      end + held rest
  end.

(** The seconds that a call is asked to take. *)
Definition elapsed {A} (c : Call A) : Z :=
  match c with
  | time_sleep seconds => seconds
  | _ => 0
  end.

(** The latches in which capacity and pods count only after the drain. *)
Definition latches_ordered (l : Latches) : Prop :=
  (capacity_satisfied l = true -> draining_happened l = true) /\
  (pods_healthy l = true -> draining_happened l = true).

(** The list goes by precedence: no node comes right after a node with a
    strictly greater key. *)
Fixpoint in_precedence_order `{Settings}
    (key : ClusterNodeMetadata -> SortKey) (l : list ClusterNodeMetadata)
    : Prop :=
  match l with
  | a :: rest =>
      match rest with
      | b :: _ => key_lt (key b) (key a) = false
      | [] => True
      end /\ in_precedence_order key rest
  | [] => True
  end.

Section Observations.
Context {W : Type} {env : Environment W}.

(** Every call that the computation adds to the trace is of class [P]. *)
Definition emits {A} (P : Logged -> bool) (m : M W A) : Prop :=
  forall s, exists calls,
    trace (snd (m s)) = trace s ++ calls /\ forallb P calls = true.

(** A clock that the environment keeps: [time.time()] reads it, sleeping
    moves it on by the seconds slept at least, and no call of class [P]
    moves it back. *)
Definition advancing (clock : W -> Z) (P : Logged -> bool) : Prop :=
  (forall w, fst (handle Z time_time w) = clock w) /\
  (forall A (c : Call A) w,
     P (Log c) = true -> clock w + elapsed c <= clock (snd (handle A c w))).

(** The computation does not move the clock back. *)
Definition nondecreasing (clock : W -> Z) {A} (m : M W A) : Prop :=
  forall s, clock (world s) <= clock (world (snd (m s))).

End Observations.

(** ** The draining queue and the drain pipeline

    [clusterman/draining/queue.py] is not part of the development; only its
    tests are. The definitions of this module are written from the
    specification (sections 3, 4.C and 4.D) and checked against the cases
    of [tests/draining/queue_test.py]. *)

Module Draining.

Inductive Scheduler := kubernetes | mesos.

(** Modelled from the spec: the Host of the missing queue.py (section 3),
    with the start of the draining in seconds. *)
Record Host := mkHost {
  instance_id : string;
  ip : string;
  hostname : string;
  group_id : string;
  agent_id : string;
  pool : string;
  scheduler : Scheduler;
  sender : string;
  receipt_handle : string;
  draining_start_time : Z;
  termination_reason : TerminationReason;
  attempt : Z;
}.

(** Modelled from the spec: the constants of the missing queue.py that the
    pipeline reads (sections 4.C.3, 4.D and 6). *)
Record Config := mkConfig {
  DRAIN_CACHE_SECONDS : Z;
  MAX_DRAINING_TIME : Z;
  DEFAULT_FORCE_TERMINATION : bool;
}.

(** Modelled from the spec: the default delay of the missing
    [submit_host_for_termination] (section 4.C.1). *)
Definition DEFAULT_TERMINATION_DELAY : Z := 90.

(** Modelled from the spec: the TTL cache of DrainingClient (sections 3,
    4.C.3, 4.D.7 and 9), whose code is missing: a map from the instance to
    a timestamp, which a successful drain seeds with [now()]. *)
Definition seed_cache (now : Z) (instance : string)
    (cache : gmap string Z) : gmap string Z :=
  <[instance := now]> cache.

(** Modelled from the spec: [clean_processing_hosts_cache] (section 4.C.3),
    whose code is missing, as far as [test_clean_processing_hosts_cache]
    allows. The section has the cleaning evict the entries older than
    [now - DRAIN_CACHE_SECONDS]; the test, with [DRAIN_CACHE_SECONDS] set
    to 60, has it evict the entry whose timestamp is one second before
    [now] and keep the entry whose timestamp is [now]. The test is
    followed: the timestamp held in the cache is compared with [now]
    itself, and an entry goes when its timestamp is strictly earlier. *)
Definition clean_processing_hosts_cache (now : Z) (cache : gmap string Z)
    : gmap string Z :=
  filter (fun entry => now <= snd entry) cache.

(** What section 4.C.3 and B2 say of the cleaning, on the timestamps held
    in the cache: an entry goes when its timestamp is
    [now - DRAIN_CACHE_SECONDS] or older, and an entry whose timestamp is
    [now - DRAIN_CACHE_SECONDS + 1] or younger stays. *)
Definition evicts_by_age (cfg : Config) : Prop :=
  forall now (cache : gmap string Z) instance timestamp,
    cache !! instance = Some timestamp ->
    (timestamp <= now - DRAIN_CACHE_SECONDS cfg ->
     clean_processing_hosts_cache now cache !! instance = None) /\
    (now - DRAIN_CACHE_SECONDS cfg + 1 <= timestamp ->
     clean_processing_hosts_cache now cache !! instance = Some timestamp).

(** Modelled from the spec: the lookup of section 4.C.3 in the missing
    pipeline, present and not expired. *)
Definition recently_drained (now : Z) (cache : gmap string Z)
    (instance : string) : bool :=
  match clean_processing_hosts_cache now cache !! instance with
  | Some _ => true
  | None => false
  end.

(** Modelled from the spec: what the missing pipeline does to the queues
    and to the orchestrator (sections 4.C and 6); the time window of
    [mesos_drain] is left out. *)
Inductive Action :=
  | submit_host_for_termination (host : Host) (delay : Z)
  | submit_host_for_draining (host : Host) (delay : Z) (attempt : Z)
  | delete_drain_messages (hosts : list Host)
  | k8s_drain (agent : string) (force : bool)
  | k8s_uncordon (agent : string)
  | mesos_drain (hosts : list string).

(** The answer of an orchestrator driver: a boolean, or an exception. *)
Inductive DrainAnswer := answered (ok : bool) | raised.

(** What the pipeline learns from outside while it handles one message. *)
Record Inputs := mkInputs {
  get_host_to_drain : option Host;
  host_from_instance_id : string -> string -> option Host;
  k8s_drain_answer : DrainAnswer;
  mesos_drain_answer : DrainAnswer;
  arrow_now : Z;
}.

(** Modelled from the spec: the message that the missing
    [submit_host_for_draining] publishes (sections 4.C.1 and 6), the host
    with the given attempt. *)
Definition drain_message (host : Host) (n : Z) : Host :=
  mkHost (instance_id host) (ip host) (hostname host) (group_id host)
    (agent_id host) (pool host) (scheduler host) (sender host)
    (receipt_handle host) (draining_start_time host)
    (termination_reason host) n.

Definition published (a : Action) : option Host :=
  match a with
  | submit_host_for_draining host _ n => Some (drain_message host n)
  | _ => None
  end.

(** Modelled from the spec: the two endings of a message in the missing
    pipeline, forwarded to the termination queue or published again for
    draining with the next attempt; the drain message is deleted in both. *)
Definition forward_to_termination (host : Host) (delay : Z) : list Action :=
  [submit_host_for_termination host delay; delete_drain_messages [host]].

Definition resubmit (fresh original : Host) : list Action :=
  [submit_host_for_draining fresh 0 (attempt original + 1);
   delete_drain_messages [original]].

(** Modelled from the spec: step 4 of section 4.D in the missing
    [process_drain_queue], the orphan check. *)
Definition orphan_check (inputs : Inputs) (host : Host) : list Action :=
  match host_from_instance_id inputs (receipt_handle host) (instance_id host) with
  | None => [delete_drain_messages [host]]
  | Some fresh =>
      if String.eqb (agent_id fresh) "" then forward_to_termination host 0
      else resubmit fresh host
  end.

(** Modelled from the spec: step 5 of section 4.D in the missing
    [process_drain_queue], the expiry. *)
Definition expire (cfg : Config) (host : Host) : list Action :=
  match scheduler host with
  | kubernetes =>
      if DEFAULT_FORCE_TERMINATION cfg then forward_to_termination host 0
      else [k8s_uncordon (agent_id host); delete_drain_messages [host]]
  | mesos => forward_to_termination host 0
  end.

(** Modelled from the spec: steps 6 and 7 of section 4.D in the missing
    [process_drain_queue], the drain; the boolean tells whether the drain
    succeeded, in which case the cache is seeded. *)
Definition drain (inputs : Inputs) (host : Host) : list Action * bool :=
  match scheduler host with
  | mesos =>
      let target := (hostname host ++ "|" ++ ip host)%string in
      match mesos_drain_answer inputs with
      | answered _ =>
          (mesos_drain [target]
             :: forward_to_termination host DEFAULT_TERMINATION_DELAY, true)
      | raised => (mesos_drain [target] :: resubmit host host, false)
      end
  | kubernetes =>
      match k8s_drain_answer inputs with
      | answered true =>
          (k8s_drain (agent_id host) false :: forward_to_termination host 0, true)
      | answered false | raised =>
          (k8s_drain (agent_id host) false :: resubmit host host, false)
      end
  end.

(** Modelled from the spec: [process_drain_queue] (section 4.D), whose code
    is missing. One call handles at most one message; the result is the
    list of actions, in order, and the cache afterwards. *)
Definition process_drain_queue (cfg : Config) (inputs : Inputs)
    (cache : gmap string Z) : list Action * gmap string Z :=
  match get_host_to_drain inputs with
  | None => ([], cache)
  | Some host =>
      if String.eqb (hostname host) "" then
        (forward_to_termination host 0, cache)
      else if recently_drained (arrow_now inputs) cache (instance_id host) then
        ([delete_drain_messages [host]], cache)
      else if match scheduler host with
              | kubernetes => String.eqb (agent_id host) ""
              | mesos => false
              end then
        (orphan_check inputs host, cache)
      else if MAX_DRAINING_TIME cfg <? arrow_now inputs - draining_start_time host
      then (expire cfg host, cache)
      else
        let (actions, drained) := drain inputs host in
        (actions,
         if drained then seed_cache (arrow_now inputs) (instance_id host) cache
         else cache)
  end.

(** The cases of [test_process_drain_queue] and of
    [test_clean_processing_hosts_cache] use these values. *)
Definition test_config : Config := mkConfig 60 3600 false.

Definition test_host (instance agent : string) (n : Z) : Host :=
  mkHost instance "10.1.1.1" "host1" "sfr1" agent "default" kubernetes "mmb"
    "aaaaa" 1000 SPOT_INTERRUPTION n.

Definition test_inputs (host : Host) (fresh : option Host)
    (answer : DrainAnswer) : Inputs :=
  mkInputs (Some host) (fun _ _ => fresh) answer (answered true) 1000.

(** 2018-12-17T16:02:00, in seconds since the start of that day. *)
Definition test_now : Z := 16 * 3600 + 2 * 60.

Definition test_cache : gmap string Z :=
  <["i456" := test_now]> (<["i123" := test_now - 1]> ∅).

End Draining.

(** ** Migration conditions

    [clusterman/migration/event.py] is not part of the development; only
    its tests are. The definitions of this module are written from the
    specification (sections 3 and 4.A) and from the cases of
    [tests/migration/migration_event_test.py], which fix the names of the
    traits and operators and the form of the serialized targets. The two
    version libraries (semver for kernels, packaging for releases) and the
    table of instance types are outside the repository and are taken as
    parameters. *)

Module Event.

Inductive ConditionTrait := KERNEL | LSBRELEASE | INSTANCE_TYPE | UPTIME.

Inductive ConditionOperator := LT | LE | EQ | NE | GE | GT | IN | NOTIN.

(** A version library: its values (up to the equality of the library), its
    parser (None when it raises) and its printer ([str]). *)
Record VersionLibrary := mkVersionLibrary {
  Version : Type;
  parse_version : string -> option Version;
  str_version : Version -> string;
}.

(** Parsing what the library printed gives the version back. *)
Definition round_trips (lib : VersionLibrary) : Prop :=
  forall v, parse_version lib (str_version lib v) = Some v.

(** *** Strings *)

(** [s.split(sep)] for a separator of one character. *)
Fixpoint split_on (sep : ascii) (s : string) : list string :=
  match s with
  | EmptyString => [EmptyString]
  | String c rest =>
      if Ascii.eqb c sep then EmptyString :: split_on sep rest
      else match split_on sep rest with
           | word :: words => String c word :: words
           | [] => [String c EmptyString]
           end
  end.

(** [sep.join(words)] for a separator of one character. *)
Fixpoint join (sep : ascii) (words : list string) : string :=
  match words with
  | [] => EmptyString
  | [word] => word
  | word :: rest => (word ++ String sep (join sep rest))%string
  end.

Definition lower_ascii (c : ascii) : ascii :=
  let n := nat_of_ascii c in
  if (65 <=? n)%nat && (n <=? 90)%nat then ascii_of_nat (n + 32) else c.

(** [s.lower()] on ASCII. *)
Fixpoint lower (s : string) : string :=
  match s with
  | EmptyString => EmptyString
  | String c rest => String (lower_ascii c) (lower rest)
  end.

Fixpoint contains (c : ascii) (s : string) : bool :=
  match s with
  | EmptyString => false
  | String c' rest => Ascii.eqb c' c || contains c rest
  end.

(** The characters of a decimal number. *)
Definition digits : list ascii :=
  ["0"; "1"; "2"; "3"; "4"; "5"; "6"; "7"; "8"; "9"]%char.

(** [str(n)] and [int(s)] for a number that is not negative. *)
Definition str_int (n : N) : string :=
  NilEmpty.string_of_uint (N.to_uint n).

Definition parse_int (s : string) : option N :=
  match s with
  | EmptyString => None
  | _ => N.of_uint <$> NilEmpty.uint_of_string s
  end.

(** The string without its last character, when that character is [c]. *)
Fixpoint strip_suffix (c : ascii) (s : string) : option string :=
  match s with
  | EmptyString => None
  | String a EmptyString => if Ascii.eqb a c then Some EmptyString else None
  | String a rest => String a <$> strip_suffix c rest
  end.

(** *** Conditions *)

Section Conditions.
Variables semver packaging : VersionLibrary.
Variable is_instance_type : string -> bool.

(** Modelled from the spec: the target of a condition of the missing
    event.py, in one of the four parsed forms (section 3). *)
Inductive Target :=
  | semver_target (v : Version semver)
  | packaging_target (v : Version packaging)
  | instance_types_target (types : list string)
  | seconds_target (seconds : N).

Record MigrationCondition := mkCondition {
  trait : ConditionTrait;
  operator : ConditionOperator;
  target : Target;
}.

(** The dictionary with the keys trait, operator and target. The values
    of the traits and operators are those of the tests, in lower case. *)
Record ConditionDict := mkDict {
  dict_trait : string;
  dict_operator : string;
  dict_target : string;
}.

Definition trait_value (t : ConditionTrait) : string :=
  match t with
  | KERNEL => "kernel"
  | LSBRELEASE => "lsbrelease"
  | INSTANCE_TYPE => "instance_type"
  | UPTIME => "uptime"
  end.

Definition operator_value (op : ConditionOperator) : string :=
  match op with
  | LT => "lt" | LE => "le" | EQ => "eq" | NE => "ne"
  | GE => "ge" | GT => "gt" | IN => "in" | NOTIN => "notin"
  end.

Definition parse_trait (s : string) : option ConditionTrait :=
  List.find (fun t => String.eqb (trait_value t) s)
    [KERNEL; LSBRELEASE; INSTANCE_TYPE; UPTIME].

Definition parse_operator (s : string) : option ConditionOperator :=
  List.find (fun op => String.eqb (operator_value op) s)
    [LT; LE; EQ; NE; GE; GT; IN; NOTIN].

(** Modelled from the spec: IN and NOTIN go with list-valued traits only,
    the other operators with the other traits (section 3). *)
Definition expects_collection (op : ConditionOperator) : bool :=
  match op with
  | IN | NOTIN => true
  | _ => false
  end.

Definition is_collection (t : ConditionTrait) : bool :=
  match t with
  | INSTANCE_TYPE => true
  | _ => false
  end.

(** Modelled from the spec: the uptime parser of the missing event.py,
    seconds with the suffixes d (days) and h (hours). *)
Definition parse_uptime (s : string) : option N :=
  match strip_suffix "d" s with
  | Some days => (fun n => n * 86400)%N <$> parse_int days
  | None =>
      match strip_suffix "h" s with
      | Some hours => (fun n => n * 3600)%N <$> parse_int hours
      | None => parse_int s
      end
  end.

(** Modelled from the spec: the instance type parser of the missing
    event.py, a comma-separated list, lowercased, of known types. *)
Definition parse_instance_types (s : string) : option (list string) :=
  let types := map lower (split_on "," s) in
  if forallb is_instance_type types then Some types else None.

(** Modelled from the spec: the target parsers of the missing event.py,
    one per trait. *)
Definition parse_target (t : ConditionTrait) (s : string) : option Target :=
  match t with
  | KERNEL => semver_target <$> parse_version semver s
  | LSBRELEASE => packaging_target <$> parse_version packaging s
  | INSTANCE_TYPE => instance_types_target <$> parse_instance_types s
  | UPTIME => seconds_target <$> parse_uptime s
  end.

(** Modelled from the spec: [MigrationCondition.from_dict] of the missing
    event.py (section 4.A); None stands for ValueError. *)
Definition from_dict (d : ConditionDict) : option MigrationCondition :=
  t ← parse_trait (dict_trait d);
  op ← parse_operator (dict_operator d);
  if Bool.eqb (expects_collection op) (is_collection t) then
    mkCondition t op <$> parse_target t (dict_target d)
  else None.

Definition str_target (x : Target) : string :=
  match x with
  | semver_target v => str_version semver v
  | packaging_target v => str_version packaging v
  | instance_types_target types => join "," types
  | seconds_target n => str_int n
  end.

(** Modelled from the spec: [MigrationCondition.to_dict] of the missing
    event.py (section 4.A). *)
Definition to_dict (c : MigrationCondition) : ConditionDict :=
  mkDict (trait_value (trait c)) (operator_value (operator c))
         (str_target (target c)).

(** Modelled from the spec: the invariants of a condition (section 3).
    The operator fits the trait and the target has the form of the trait:
    a semver version for a kernel, a PEP 440 version for a release, a list
    of lowercase strings for instance types, seconds for an uptime. *)
Definition valid_target (t : ConditionTrait) (x : Target) : Prop :=
  match t, x with
  | KERNEL, semver_target _ => True
  | LSBRELEASE, packaging_target _ => True
  | INSTANCE_TYPE, instance_types_target types =>
      Forall (fun name => lower name = name) types
  | UPTIME, seconds_target _ => True
  | _, _ => False
  end.

Definition valid (c : MigrationCondition) : Prop :=
  expects_collection (operator c) = is_collection (trait c) /\
  valid_target (trait c) (target c).

(** The target is read back from its own text: a version when the library
    parses what it printed to the same version; a list of instance types
    when it is not empty and made of known names without comma; seconds
    always. *)
Definition reads_back (x : Target) : Prop :=
  match x with
  | semver_target v => parse_version semver (str_version semver v) = Some v
  | packaging_target v =>
      parse_version packaging (str_version packaging v) = Some v
  | instance_types_target types =>
      types <> [] /\
      Forall (fun name => is_instance_type name = true /\
                          contains "," name = false) types
  | seconds_target _ => True
  end.

End Conditions.

(** *** Version libraries and instance types for the examples *)

(** Versions of the form major.minor.patch. *)
Definition parse_triple (s : string) : option (N * N * N) :=
  match split_on "." s with
  | [a; b; c] =>
      major ← parse_int a; minor ← parse_int b; patch ← parse_int c;
      Some (major, minor, patch)
  | _ => None
  end.

Definition str_triple (v : N * N * N) : string :=
  let '(major, minor, patch) := v in
  join "." [str_int major; str_int minor; str_int patch].

Definition triples : VersionLibrary :=
  mkVersionLibrary (N * N * N) parse_triple str_triple.

Definition example_types (name : string) : bool :=
  String.eqb name "m5.4xlarge" || String.eqb name "r5.2xlarge".

End Event.

(** ** A simulated pool

    A small deterministic world on which the worker can be run: a clock that
    only sleeping moves, a fixed list of running nodes whose agents leave the
    cluster at [replaced_at], a capacity flag and a pool lock that is either
    free or held by another worker for longer than any timeout; the lock is
    locked whenever it is released, by this worker or by the other. It is
    an instance chosen for the examples, not a model of the collaborators. *)

Module Sim.

Record Pool := mkPool {
  clock : Z;
  nodes : list ClusterNodeMetadata;
  replaced_at : Z;
  capacity_ok : bool;
  lock_free : bool;
}.

Definition tick (d : Z) (w : Pool) : Pool :=
  mkPool (clock w + d) (nodes w) (replaced_at w) (capacity_ok w) (lock_free w).

Definition agent_at (ip : string) (w : Pool) : AgentMetadata :=
  if clock w <? replaced_at w then
    match List.find (fun n => String.eqb (ip_address (instance n)) ip) (nodes w) with
    | Some n => agent n
    | None => mkAgent "" 0
    end
  else mkAgent "" 0.

Definition answer (A : Type) (c : Call A) : Pool -> A * Pool :=
  match c in Call T return Pool -> T * Pool with
  | time_time => fun w => (clock w, w)
  | time_sleep d => fun w => (tt, tick d w)
  | PoolManager_init _ _ _ _ => fun w => (tt, w)
  | reload_state _ => fun w => (tt, w)
  | is_capacity_satisfied => fun w => (capacity_ok w, w)
  | get_node_metadatas _ => fun w => (nodes w, w)
  | submit_for_draining _ _ => fun w => (tt, w)
  | draining_client => fun w => (true, w)
  | target_capacity => fun w => (0%Q, w)
  | modify_target_capacity _ => fun w => (tt, w)
  | get_agent_metadata ip => fun w => (agent_at ip w, w)
  | has_enough_capacity_for_pods => fun w => (true, w)
  | set_label_selectors _ _ => fun w => (tt, w)
  | create_counter _ => fun w => (tt, w)
  | create_timer _ => fun w => (tt, w)
  | create_gauge _ => fun w => (tt, w)
  | counter_count => fun w => (tt, w)
  | timer_start => fun w => (tt, w)
  | timer_stop => fun w => (tt, w)
  | gauge_set _ => fun w => (tt, w)
  | lock_acquire None => fun w => (true, w)
  | lock_acquire (Some t) => fun w =>
      if lock_free w then (true, w) else (false, tick t w)
  | lock_release => fun w => (true, w)
  | disable_autoscaling _ _ _ _ => fun w => (tt, w)
  | enable_autoscaling _ _ _ => fun w => (tt, w)
  end.

(** The routine runs to its end: this pool never exceeds a budget. *)
#[global] Instance environment : Environment Pool := {|
  handle := answer;
  limit_function_runtime := fun routine _ => routine;
|}.

(** Modelled from the spec: PoolPortion of the missing settings.py
    (section 3), a count or a fraction, with [of]. *)
Inductive Portion := Count (n : Z) | Fraction (f : Q).

Definition portion_of (p : Portion) (total : Z) : Z :=
  match p with
  | Count n => Z.min n total
  | Fraction f => Z.max 1 (py_round (inject_Z total * f)%Q)
  end.

(** Modelled from the spec: the precedence of the missing settings.py
    (section 4.F.2), by ascending task count or by descending uptime. *)
Inductive Precedence := TASK_COUNT | UPTIME.

Definition precedence_key (p : Precedence) (n : ClusterNodeMetadata) : Z :=
  match p with
  | TASK_COUNT => task_count (agent n)
  | UPTIME => - uptime (instance n)
  end.

(** The settings of the examples; a condition is a least uptime. *)
#[global] Instance example_settings : Settings := {|
  PoolPortion := Portion;
  PoolPortion_of := portion_of;
  MigrationPrecendence := Precedence;
  SortKey := Z;
  sort_key := precedence_key;
  key_lt := Z.ltb;
  EventCondition := Z;
  matches := fun least n => least <=? uptime (instance n);
|}.

Definition node (i : Z) (name ip : string) : ClusterNodeMetadata :=
  mkNode (mkAgent name (30 - 2 * i)) (mkInstance name ip 1 (20000 - 1000 * i)).

Definition six_nodes : list ClusterNodeMetadata :=
  [node 0 "a0" "10.0.0.0"; node 1 "a1" "10.0.0.1"; node 2 "a2" "10.0.0.2";
   node 3 "a3" "10.0.0.3"; node 4 "a4" "10.0.0.4"; node 5 "a5" "10.0.0.5"].

Definition start (w : Pool) : State Pool := mkState w [].

Definition setup (r : Portion) (autoscaling_off : bool) : WorkerSetup :=
  mkWorkerSetup r None TASK_COUNT 1 20 autoscaling_off 60 5 true.

(** The clock stands at 100. *)
Definition late_pool : Pool := mkPool 100 six_nodes 0 true true.

(** The agents of the drained nodes are gone from second 8 on. *)
Definition recovering_pool : Pool := mkPool 0 six_nodes 8 true true.

(** Drained nodes are replaced at once and the capacity is there. *)
Definition healthy_pool : Pool := mkPool 0 six_nodes 0 true true.

(** The capacity never comes back. *)
Definition unhealthy_pool : Pool := mkPool 0 six_nodes 0 false true.

(** Another worker holds the pool lock for longer than any timeout. *)
Definition contended_pool : Pool := mkPool 0 six_nodes 0 true false.

(** Selects the nodes a3, a4 and a5. *)
Definition few_tasks (n : ClusterNodeMetadata) : bool :=
  task_count (agent n) <? 25.

Definition selected_nodes : list ClusterNodeMetadata :=
  [node 5 "a5" "10.0.0.5"; node 4 "a4" "10.0.0.4"; node 3 "a3" "10.0.0.3"].

(** An event whose condition every node of the pool matches. *)
Definition event : MigrationEvent :=
  mkMigrationEvent "test-pool-111222333" "test" "pool" [] 0.

End Sim.

(** ** A pool without nodes

    A second environment for the examples, in which the answers do not
    depend on the world: the world is the clock alone, the pool has no
    running node, the lock is free to take and locked when it is released,
    and the capacity is satisfied always or never, as [capacity] says. *)

Module Bare.

Definition answer (capacity : bool) (A : Type) (c : Call A) : Z -> A * Z :=
  match c in Call T return Z -> T * Z with
  | time_time => fun w => (w, w)
  | time_sleep d => fun w => (tt, w + d)
  | PoolManager_init _ _ _ _ => fun w => (tt, w)
  | reload_state _ => fun w => (tt, w)
  | is_capacity_satisfied => fun w => (capacity, w)
  | get_node_metadatas _ => fun w => ([], w)
  | submit_for_draining _ _ => fun w => (tt, w)
  | draining_client => fun w => (true, w)
  | target_capacity => fun w => (0%Q, w)
  | modify_target_capacity _ => fun w => (tt, w)
  | get_agent_metadata _ => fun w => (mkAgent "" 0, w)
  | has_enough_capacity_for_pods => fun w => (true, w)
  | set_label_selectors _ _ => fun w => (tt, w)
  | create_counter _ => fun w => (tt, w)
  | create_timer _ => fun w => (tt, w)
  | create_gauge _ => fun w => (tt, w)
  | counter_count => fun w => (tt, w)
  | timer_start => fun w => (tt, w)
  | timer_stop => fun w => (tt, w)
  | gauge_set _ => fun w => (tt, w)
  | lock_acquire _ => fun w => (true, w)
  | lock_release => fun w => (true, w)
  | disable_autoscaling _ _ _ _ => fun w => (tt, w)
  | enable_autoscaling _ _ _ => fun w => (tt, w)
  end.

Definition environment (capacity : bool) : Environment Z := {|
  handle := answer capacity;
  limit_function_runtime := fun routine _ => routine;
|}.

Definition clock (w : Z) : Z := w.

(** A setup with a pre-scaling of one node. *)
Definition prescaled : WorkerSetup :=
  mkWorkerSetup (Sim.Count 2) (Some (Sim.Count 1)) Sim.TASK_COUNT 1 20 true 60 5
    true.

End Bare.

(** ** A pool lock that changes hands

    A third environment for the examples: a pool without nodes whose
    capacity is never satisfied, and a pool lock that another worker holds
    until the instant [freed_at]. An acquisition waits for that instant or
    times out before it; a release finds the lock locked when this worker
    or the other one holds it, and not locked otherwise. *)

Module Handover.

Record World := mkWorld {
  clock : Z;
  freed_at : Z;
  ours : bool;
}.

Definition answer (A : Type) (c : Call A) : World -> A * World :=
  match c in Call T return World -> T * World with
  | time_time => fun w => (clock w, w)
  | time_sleep d => fun w => (tt, mkWorld (clock w + d) (freed_at w) (ours w))
  | PoolManager_init _ _ _ _ => fun w => (tt, w)
  | reload_state _ => fun w => (tt, w)
  | is_capacity_satisfied => fun w => (false, w)
  | get_node_metadatas _ => fun w => ([], w)
  | submit_for_draining _ _ => fun w => (tt, w)
  | draining_client => fun w => (true, w)
  | target_capacity => fun w => (0%Q, w)
  | modify_target_capacity _ => fun w => (tt, w)
  | get_agent_metadata _ => fun w => (mkAgent "" 0, w)
  | has_enough_capacity_for_pods => fun w => (true, w)
  | set_label_selectors _ _ => fun w => (tt, w)
  | create_counter _ => fun w => (tt, w)
  | create_timer _ => fun w => (tt, w)
  | create_gauge _ => fun w => (tt, w)
  | counter_count => fun w => (tt, w)
  | timer_start => fun w => (tt, w)
  | timer_stop => fun w => (tt, w)
  | gauge_set _ => fun w => (tt, w)
  | lock_acquire None => fun w =>
      (true, mkWorld (Z.max (clock w) (freed_at w)) (freed_at w) true)
  | lock_acquire (Some t) => fun w =>
      if freed_at w <=? clock w + t
      then (true, mkWorld (Z.max (clock w) (freed_at w)) (freed_at w) true)
      else (false, mkWorld (clock w + t) (freed_at w) false)
  | lock_release => fun w =>
      if ours w || (clock w <? freed_at w)
      then (true, mkWorld (clock w) (clock w) false)
      else (false, w)
  | disable_autoscaling _ _ _ _ => fun w => (tt, w)
  | enable_autoscaling _ _ _ => fun w => (tt, w)
  end.

Definition environment : Environment World := {|
  handle := answer;
  limit_function_runtime := fun routine _ => routine;
|}.

(** The other worker frees the lock at second 100. *)
Definition start : State World := mkState (mkWorld 0 100 false) [].

End Handover.

(** * Properties *)

Section WorkerProperties.
Context {W : Type} {env : Environment W} {settings : Settings}.

Lemma bind_returned {A B} (m : M W A) (k : A -> M W B) s a s' :
  m s = (Returned a, s') -> (x ← m; k x) s = k a s'.
Proof. intros E. unfold mbind, M_bind, bind. now rewrite E. Qed.

Lemma call_run {A} (c : Call A) (s : State W) :
  call c s =
  (Returned (fst (handle A c (world s))),
   mkState (snd (handle A c (world s))) (trace s ++ [Log c])).
Proof. reflexivity. Qed.

Lemma bind_call {A B} (c : Call A) (k : A -> M W B) s :
  (x ← call c; k x) s =
  k (fst (handle A c (world s)))
    (mkState (snd (handle A c (world s))) (trace s ++ [Log c])).
Proof. reflexivity. Qed.

Lemma any_agent_unchanged_returns drained (s : State W) :
  exists b s', any_agent_unchanged drained s = (Returned b, s').
Proof.
  revert s. induction drained as [|node rest IH]; intros s.
  - now exists false, s.
  - cbn [any_agent_unchanged]. rewrite bind_call.
    destruct (String.eqb _ _); [now eexists _, _ | apply IH].
Qed.

Lemma any_agent_unchanged_nil (s : State W) :
  any_agent_unchanged [] s = (Returned false, s).
Proof. reflexivity. Qed.

Lemma poll_pool_health_returns drained ignore l (s : State W) :
  exists l' s',
    poll_pool_health drained ignore l s = (Returned l', s') /\ latches_le l l'.
Proof.
  unfold poll_pool_health. rewrite bind_call.
  set (s1 := mkState _ _).
  destruct l as [d c p]; cbn [draining_happened capacity_satisfied pods_healthy].
  assert (Hd : exists d' s2,
    (if d then mret true
     else still ← any_agent_unchanged drained; mret (negb still)) s1
    = (Returned d', s2) /\ (d = true -> d' = true)).
  { destruct d; [now exists true, s1 |].
    destruct (any_agent_unchanged_returns drained s1) as (b & s2 & E).
    exists (negb b), s2. split; [|discriminate].
    now rewrite (bind_returned _ _ _ _ _ E). }
  destruct Hd as (d' & s2 & Ed & Hd).
  rewrite (bind_returned _ _ _ _ _ Ed).
  assert (Hc : exists c' s3,
    (if c then mret true
     else if d' then call is_capacity_satisfied else mret false) s2
    = (Returned c', s3) /\ (c = true -> c' = true)).
  { destruct c; [now exists true, s2 |].
    destruct d'; eexists _, _; (split; [reflexivity | discriminate]). }
  destruct Hc as (c' & s3 & Ec & Hc).
  rewrite (bind_returned _ _ _ _ _ Ec).
  assert (Hp : exists p' s4,
    (if p then mret true
     else if d'
          then (if ignore then mret true
                else call has_enough_capacity_for_pods)
          else mret false) s3
    = (Returned p', s4) /\ (p = true -> p' = true)).
  { destruct p; [now exists true, s3 |].
    destruct d', ignore; eexists _, _; (split; [reflexivity | discriminate]). }
  destruct Hp as (p' & s4 & Ep & Hp).
  rewrite (bind_returned _ _ _ _ _ Ep).
  exists (mkLatches d' c' p'), s4. split; [reflexivity|].
  now split; [|split].
Qed.

Lemma latches_le_refl l : latches_le l l.
Proof. now repeat split. Qed.

Lemma latches_le_trans l1 l2 l3 :
  latches_le l1 l2 -> latches_le l2 l3 -> latches_le l1 l3.
Proof. unfold latches_le. intuition. Qed.

Lemma all_latched_true l :
  all_latched l = true <->
  draining_happened l = true /\ capacity_satisfied l = true /\
  pods_healthy l = true.
Proof.
  unfold all_latched. rewrite !andb_true_iff. tauto.
Qed.

(** One round of the loop, seen from the polls that follow it. *)
Lemma round_shift timeout drained interval ignore l (s : State W) :
  exists l1 s_poll,
    poll_pool_health drained ignore l (after_reading s) = (Returned l1, s_poll)
    /\ latches_le l l1
    /\ reading 0 drained interval ignore l s = fst (handle Z time_time (world s))
    /\ latches_after 0 drained interval ignore l s = l1
    /\ (forall n, reading (S n) drained interval ignore l s =
                  reading n drained interval ignore l1 (after_sleep interval s_poll))
    /\ (forall n, latches_after (S n) drained interval ignore l s =
                  latches_after n drained interval ignore l1
                    (after_sleep interval s_poll))
    /\ (forall fuel,
          monitor_loop (S fuel) timeout drained interval ignore l s =
          if reading 0 drained interval ignore l s <? timeout then
            if all_latched l1 then (Returned true, s_poll)
            else monitor_loop fuel timeout drained interval ignore l1
                   (after_sleep interval s_poll)
          else (Returned false, after_reading s)).
Proof.
  destruct (poll_pool_health_returns drained ignore l (after_reading s))
    as (l1 & s_poll & Epoll & Hle).
  exists l1, s_poll.
  assert (R0 : reading 0 drained interval ignore l s
               = fst (handle Z time_time (world s))) by reflexivity.
  split; [exact Epoll|]. split; [exact Hle|]. split; [exact R0|].
  split; [|split; [|split]].
  - unfold latches_after. cbn [loop_head].
    unfold mbind at 1, M_bind at 1, bind at 1, mret, M_ret, ret.
    rewrite bind_call. fold (after_reading s). now rewrite Epoll.
  - intros n. unfold reading. cbn [loop_head].
    unfold mbind at 1, M_bind at 1, bind at 1.
    rewrite bind_call. fold (after_reading s).
    rewrite (bind_returned _ _ _ _ _ Epoll). rewrite bind_call.
    reflexivity.
  - intros n. unfold latches_after. cbn [loop_head].
    unfold mbind at 1, M_bind at 1, bind at 1.
    rewrite bind_call. fold (after_reading s).
    rewrite (bind_returned _ _ _ _ _ Epoll). rewrite bind_call.
    reflexivity.
  - intros fuel. rewrite R0. cbn [monitor_loop]. rewrite bind_call.
    fold (after_reading s).
    destruct (_ <? timeout); [|reflexivity].
    rewrite (bind_returned _ _ _ _ _ Epoll).
    destruct (all_latched l1); [reflexivity|].
    now rewrite bind_call.
Qed.

Lemma latches_after_ge n drained interval ignore l (s : State W) :
  latches_le l (latches_after n drained interval ignore l s).
Proof.
  revert l s. induction n as [|n IH]; intros l s;
    destruct (round_shift 0 drained interval ignore l s)
      as (l1 & s_poll & _ & Hle & _ & L0 & _ & LS & _).
  - now rewrite L0.
  - rewrite LS. eapply latches_le_trans; [exact Hle | apply IH].
Qed.

Lemma latches_after_mono i j drained interval ignore l (s : State W) :
  (i <= j)%nat ->
  latches_le (latches_after i drained interval ignore l s)
             (latches_after j drained interval ignore l s).
Proof.
  revert j l s. induction i as [|i IH]; intros j l s Hij;
    destruct (round_shift 0 drained interval ignore l s)
      as (l1 & s_poll & _ & Hle & _ & L0 & _ & LS & _).
  - destruct j as [|j]; [apply latches_le_refl|].
    rewrite L0, LS. apply latches_after_ge.
  - destruct j as [|j]; [lia|]. rewrite !LS. apply IH. lia.
Qed.

Lemma monitor_loop_first_healthy n timeout drained interval ignore :
  forall l (s : State W),
  (forall k, (k < n)%nat ->
     reading k drained interval ignore l s < timeout /\
     all_latched (latches_after k drained interval ignore l s) = false) ->
  reading n drained interval ignore l s < timeout ->
  all_latched (latches_after n drained interval ignore l s) = true ->
  forall fuel, (n < fuel)%nat ->
  fst (monitor_loop fuel timeout drained interval ignore l s) = Returned true.
Proof.
  induction n as [|n IH]; intros l s Hbefore Hnow Hall fuel Hfuel;
    (destruct fuel as [|fuel]; [lia|]);
    destruct (round_shift timeout drained interval ignore l s)
      as (l1 & s_poll & _ & _ & _ & L0 & RS & LS & Eloop);
    rewrite Eloop.
  - apply Z.ltb_lt in Hnow. rewrite Hnow. rewrite L0 in Hall. now rewrite Hall.
  - destruct (Hbefore 0%nat ltac:(lia)) as [Hr0 A0].
    apply Z.ltb_lt in Hr0. rewrite Hr0. rewrite L0 in A0. rewrite A0.
    apply IH; [| now rewrite <- RS | now rewrite <- LS | lia].
    intros k Hk. rewrite <- RS, <- LS. apply Hbefore. lia.
Qed.

Lemma monitor_loop_expired n timeout drained interval ignore :
  forall l (s : State W),
  (forall k, (k < n)%nat ->
     reading k drained interval ignore l s < timeout /\
     all_latched (latches_after k drained interval ignore l s) = false) ->
  timeout <= reading n drained interval ignore l s ->
  forall fuel, (n < fuel)%nat ->
  fst (monitor_loop fuel timeout drained interval ignore l s) = Returned false.
Proof.
  induction n as [|n IH]; intros l s Hbefore Hnow fuel Hfuel;
    (destruct fuel as [|fuel]; [lia|]);
    destruct (round_shift timeout drained interval ignore l s)
      as (l1 & s_poll & _ & _ & _ & L0 & RS & LS & Eloop);
    rewrite Eloop.
  - apply Z.ltb_ge in Hnow. now rewrite Hnow.
  - destruct (Hbefore 0%nat ltac:(lia)) as [Hr0 A0].
    apply Z.ltb_lt in Hr0. rewrite Hr0. rewrite L0 in A0. rewrite A0.
    apply IH; [| now rewrite <- RS | lia].
    intros k Hk. rewrite <- RS, <- LS. apply Hbefore. lia.
Qed.

Lemma monitor_loop_true_inv fuel timeout drained interval ignore :
  forall l (s : State W),
  fst (monitor_loop fuel timeout drained interval ignore l s) = Returned true ->
  exists n, (n < fuel)%nat /\
    reading n drained interval ignore l s < timeout /\
    all_latched (latches_after n drained interval ignore l s) = true /\
    (forall k, (k < n)%nat ->
       reading k drained interval ignore l s < timeout /\
       all_latched (latches_after k drained interval ignore l s) = false).
Proof.
  induction fuel as [|fuel IH]; intros l s Htrue; [discriminate|].
  destruct (round_shift timeout drained interval ignore l s)
    as (l1 & s_poll & _ & _ & _ & L0 & RS & LS & Eloop).
  rewrite Eloop in Htrue.
  destruct (_ <? timeout) eqn:Hnow; [|discriminate].
  apply Z.ltb_lt in Hnow.
  destruct (all_latched l1) eqn:Hall.
  - exists 0%nat. rewrite L0. repeat split; [lia | assumption | assumption | lia | lia].
  - destruct (IH _ _ Htrue) as (n & Hn & Hr & Ha & Hb).
    exists (S n). rewrite RS, LS. repeat split; [lia | assumption | assumption | |].
    + destruct k as [|k]; [assumption | rewrite RS; apply Hb; lia].
    + destruct k as [|k]; [now rewrite L0 | rewrite LS; apply Hb; lia].
Qed.

(** C2. The three latches of [_monitor_pool_health] only go from false to
    true from one poll to a later one; the call returns True at the first
    poll at whose end the three hold, returns False at the first clock
    reading at or past the timeout, and a True result means that the three
    latches held together at the end of one poll. *)
Theorem monitor_pool_health_latches fuel timeout drained interval ignore
    (s : State W) :
  let now := fun n => reading n drained interval ignore no_latch s in
  let latches := fun n => latches_after n drained interval ignore no_latch s in
  let result := fst (_monitor_pool_health fuel timeout drained interval ignore s) in
  (forall i j, (i <= j)%nat -> latches_le (latches i) (latches j)) /\
  (forall n, (n < fuel)%nat ->
     (forall k, (k < n)%nat ->
        now k < timeout /\ all_latched (latches k) = false) ->
     now n < timeout -> all_latched (latches n) = true ->
     result = Returned true) /\
  (forall n, (n < fuel)%nat ->
     (forall k, (k < n)%nat ->
        now k < timeout /\ all_latched (latches k) = false) ->
     timeout <= now n ->
     result = Returned false) /\
  (result = Returned true ->
   exists n, (n < fuel)%nat /\ now n < timeout /\
     draining_happened (latches n) = true /\
     capacity_satisfied (latches n) = true /\
     pods_healthy (latches n) = true).
Proof.
  cbv zeta. unfold _monitor_pool_health. split; [|split; [|split]].
  - intros i j Hij. now apply latches_after_mono.
  - intros n Hn Hbefore Hnow Hall.
    now apply (monitor_loop_first_healthy n).
  - intros n Hn Hbefore Hnow.
    now apply (monitor_loop_expired n).
  - intros Htrue.
    destruct (monitor_loop_true_inv _ _ _ _ _ _ _ Htrue)
      as (n & Hn & Hr & Ha & _).
    exists n. apply all_latched_true in Ha. tauto.
Qed.

(** The poll of the loop when nothing was drained and no latch is set: no
    agent is asked for, the draining latch is set, and the capacity is
    asked for in the same poll. *)
Lemma poll_pool_health_nothing_drained ignore (s : State W) :
  exists l1 s_poll,
    poll_pool_health [] ignore no_latch s = (Returned l1, s_poll) /\
    draining_happened l1 = true /\
    trace s_poll
    = trace s ++ [Log (reload_state (negb ignore)); Log is_capacity_satisfied]
        ++ (if ignore then [] else [Log has_enough_capacity_for_pods]).
Proof.
  unfold poll_pool_health. rewrite bind_call.
  cbn [draining_happened capacity_satisfied pods_healthy no_latch].
  unfold mbind at 1, M_bind at 1, bind at 1.
  unfold mbind at 1, M_bind at 1, bind at 1.
  rewrite any_agent_unchanged_nil. cbn [negb mret M_ret ret].
  rewrite bind_call.
  destruct ignore.
  - eexists _, _. split; [reflexivity|]. split; [reflexivity|].
    cbn [trace negb]. now rewrite <- !app_assoc.
  - rewrite bind_call. eexists _, _. split; [reflexivity|].
    split; [reflexivity|]. cbn [trace negb]. now rewrite <- !app_assoc.
Qed.

(** C8. A call of [_monitor_pool_health] with nothing drained sets
    [draining_happened] in its first poll, whatever the manager and the
    connector answer. When the timeout is not reached at entry, the first
    round of the call is that poll: the state is reloaded, no agent is
    asked for, [is_capacity_satisfied] is asked at once (and the capacity
    for pods, unless ignored), and the call returns True or goes on
    polling with the draining latch set. *)
Theorem drained_empty_latches_first_poll fuel timeout interval ignore
    (s : State W) :
  exists l1 s_poll,
    poll_pool_health [] ignore no_latch (after_reading s) = (Returned l1, s_poll)
    /\ latches_after 0 [] interval ignore no_latch s = l1
    /\ draining_happened l1 = true
    /\ trace s_poll
       = trace s ++ [Log time_time; Log (reload_state (negb ignore));
                     Log is_capacity_satisfied]
           ++ (if ignore then [] else [Log has_enough_capacity_for_pods])
    /\ _monitor_pool_health (S fuel) timeout [] interval ignore s
       = if fst (handle Z time_time (world s)) <? timeout then
           if all_latched l1 then (Returned true, s_poll)
           else monitor_loop fuel timeout [] interval ignore l1
                  (after_sleep interval s_poll)
         else (Returned false, after_reading s).
Proof.
  destruct (poll_pool_health_nothing_drained ignore (after_reading s))
    as (l1 & s_poll & Epoll & Hdrain & Et).
  destruct (round_shift timeout [] interval ignore no_latch s)
    as (l1' & s_poll' & Epoll' & _ & R0 & L0 & _ & _ & Eloop).
  rewrite Epoll in Epoll'. injection Epoll' as <- <-.
  exists l1, s_poll. split; [exact Epoll|]. split; [exact L0|].
  split; [exact Hdrain|]. split.
  - rewrite Et. cbn [after_reading trace]. now rewrite <- !app_assoc.
  - unfold _monitor_pool_health. rewrite Eloop, R0. reflexivity.
Qed.

(** C10. Called with a timeout that the clock has already reached,
    [_monitor_pool_health] returns False after the one clock reading: the
    trace grows by that reading only, so the state is not reloaded, no
    agent, capacity or pod question is asked and nothing sleeps. *)
Theorem monitor_expired_at_entry fuel timeout drained interval ignore
    (s : State W) :
  timeout <= fst (handle Z time_time (world s)) ->
  _monitor_pool_health (S fuel) timeout drained interval ignore s =
  (Returned false,
   mkState (snd (handle Z time_time (world s))) (trace s ++ [Log time_time])).
Proof.
  intros Hlate. unfold _monitor_pool_health. cbn [monitor_loop].
  rewrite bind_call. apply Z.ltb_ge in Hlate. now rewrite Hlate.
Qed.

(** *** What the monitor leaves in the trace *)

Lemma silent_ret {A} (a : A) : silent (W:=W) (mret a).
Proof. now intros s. Qed.

Lemma silent_raise {A} e : silent (W:=W) (A:=A) (raise e).
Proof. now intros s. Qed.

Lemma silent_out_of_fuel {A} : silent (W:=W) (A:=A) out_of_fuel.
Proof. now intros s. Qed.

Lemma silent_bind {A B} (m : M W A) (k : A -> M W B) :
  silent m -> (forall a, silent (k a)) -> silent (x ← m; k x).
Proof.
  intros Hm Hk s. specialize (Hm s).
  unfold mbind, M_bind, bind.
  destruct (m s) as [[a|e|] s']; cbn [snd] in *; [|assumption..].
  now rewrite Hk.
Qed.

Lemma silent_call {A} (c : Call A) :
  submission (Log c) = None -> silent (call c).
Proof.
  intros Hc s. rewrite call_run. cbn [snd trace].
  unfold submitted. rewrite omap_app. cbn [omap list_omap].
  rewrite Hc. apply app_nil_r.
Qed.

Lemma silent_any_agent_unchanged drained : silent (any_agent_unchanged drained).
Proof.
  induction drained as [|node rest IH]; [apply silent_ret|].
  cbn [any_agent_unchanged]. apply silent_bind; [now apply silent_call|].
  intros current. destruct (String.eqb _ _); [apply silent_ret | exact IH].
Qed.

Lemma silent_poll_pool_health drained ignore l :
  silent (poll_pool_health drained ignore l).
Proof.
  unfold poll_pool_health.
  apply silent_bind; [now apply silent_call | intros _].
  apply silent_bind.
  { destruct (draining_happened l); [apply silent_ret|].
    apply silent_bind; [apply silent_any_agent_unchanged|].
    intros still. apply silent_ret. }
  intros d. apply silent_bind.
  { destruct (capacity_satisfied l); [apply silent_ret|].
    destruct d; [now apply silent_call | apply silent_ret]. }
  intros c. apply silent_bind.
  { destruct (pods_healthy l); [apply silent_ret|].
    destruct d; [|apply silent_ret].
    destruct ignore; [apply silent_ret | now apply silent_call]. }
  intros p. apply silent_ret.
Qed.

Lemma silent_monitor_loop fuel timeout drained interval ignore l :
  silent (monitor_loop fuel timeout drained interval ignore l).
Proof.
  revert l. induction fuel as [|fuel IH]; intros l; [apply silent_out_of_fuel|].
  cbn [monitor_loop]. apply silent_bind; [now apply silent_call|].
  intros now. destruct (now <? timeout); [|apply silent_ret].
  apply silent_bind; [apply silent_poll_pool_health|].
  intros l'. destruct (all_latched l'); [apply silent_ret|].
  apply silent_bind; [now apply silent_call | intros _; apply IH].
Qed.

Lemma silent_monitor_pool_health fuel timeout drained interval ignore :
  silent (_monitor_pool_health fuel timeout drained interval ignore).
Proof. apply silent_monitor_loop. Qed.

(** *** The chunks of a selection *)

Lemma submit_chunk_run selection_chunk (s : State W) :
  exists s',
    submit_chunk selection_chunk s = (Returned tt, s') /\
    submitted (trace s') = submitted (trace s) ++ selection_chunk.
Proof.
  revert s. induction selection_chunk as [|node rest IH]; intros s.
  - exists s. split; [reflexivity | now rewrite app_nil_r].
  - cbn [submit_chunk]. rewrite !bind_call.
    match goal with |- context [submit_chunk rest ?s1] =>
      destruct (IH s1) as (s' & E & Hs) end.
    exists s'. split; [exact E|]. rewrite Hs. cbn [trace].
    unfold submitted. rewrite !omap_app. cbn [omap list_omap submission].
    rewrite !app_nil_r, <- app_assoc. reflexivity.
Qed.

Lemma drain_chunk_submitted fuel worker_setup selected chunk i (s : State W) :
  submitted (trace (snd (drain_chunk fuel worker_setup selected chunk i s)))
  = submitted (trace s) ++ slice selected i (i + chunk).
Proof.
  unfold drain_chunk. rewrite bind_call. cbv zeta.
  set (s1 := mkState _ _).
  destruct (submit_chunk_run (slice selected i (i + chunk)) s1) as (s2 & E & Hs).
  rewrite (bind_returned _ _ _ _ _ E). rewrite bind_call.
  rewrite silent_monitor_pool_health. cbn [trace].
  unfold submitted in *. rewrite omap_app. cbn [omap list_omap submission].
  rewrite app_nil_r, Hs. subst s1. cbn [trace]. rewrite omap_app.
  cbn [omap list_omap submission]. now rewrite app_nil_r.
Qed.

Lemma chunks_healthy_run fuel worker_setup selected chunk done
    (s s1 : State W) :
  chunks_healthy fuel worker_setup selected chunk done s s1 ->
  (forall more,
     drain_chunks fuel worker_setup selected chunk (done ++ more) s
     = drain_chunks fuel worker_setup selected chunk more s1) /\
  submitted (trace s1)
  = submitted (trace s) ++ concat (selection_chunks selected chunk done).
Proof.
  induction 1 as [s|i rest s s1 s2 E _ [IHrun IHsub]].
  - split; [reflexivity | now rewrite app_nil_r].
  - split.
    + intros more. cbn [app drain_chunks].
      rewrite (bind_returned _ _ _ _ _ E). cbn [negb]. apply IHrun.
    + rewrite IHsub.
      pose proof (drain_chunk_submitted fuel worker_setup selected chunk i s) as D.
      rewrite E in D. cbn [snd] in D. rewrite D.
      cbn [selection_chunks map concat]. now rewrite app_assoc.
Qed.

Lemma drain_chunks_unhealthy fuel worker_setup selected chunk i rest
    (s s2 : State W) :
  drain_chunk fuel worker_setup selected chunk i s = (Returned false, s2) ->
  drain_chunks fuel worker_setup selected chunk (i :: rest) s
  = (Returned false,
     mkState (snd (handle unit timer_stop (world s2)))
             (trace s2 ++ [Log timer_stop])).
Proof.
  intros E. cbn [drain_chunks]. rewrite (bind_returned _ _ _ _ _ E).
  cbn [negb]. now rewrite bind_call.
Qed.

Lemma selection_setup_run (s : State W) :
  exists s0,
    selection_setup s
    = (Returned (fst (handle _ (get_node_metadatas AWS_RUNNING_STATES) (world s))),
       s0) /\
    submitted (trace s0) = submitted (trace s).
Proof.
  unfold selection_setup. rewrite !bind_call. eexists. split; [reflexivity|].
  cbn [trace]. unfold submitted. rewrite !omap_app.
  cbn [omap list_omap submission]. now rewrite !app_nil_r.
Qed.

Lemma drain_node_selection_loop fuel selector worker_setup (s s0 : State W) nodes :
  selection_setup s = (Returned nodes, s0) ->
  let selected :=
    sorted (sort_key (precedence worker_setup)) (List.filter selector nodes) in
  let chunk := PoolPortion_of (rate worker_setup) (Z.of_nat (length nodes)) in
  selected <> [] -> chunk <> 0 ->
  _drain_node_selection fuel selector worker_setup s
  = drain_chunks fuel worker_setup selected chunk
      (py_range 0 (Z.of_nat (length selected)) chunk) s0.
Proof.
  intros E selected chunk Hsel Hchunk.
  unfold selection_setup in E. rewrite !bind_call in E.
  injection E as <- <-.
  unfold _drain_node_selection. rewrite bind_call. cbv zeta.
  fold selected. destruct selected as [|x xs] eqn:Es; [congruence|].
  rewrite !bind_call. fold chunk.
  apply Z.eqb_neq in Hchunk. now rewrite Hchunk.
Qed.

(** *** [range] and slices *)

Lemma py_range_step_positive n c :
  0 < c ->
  py_range 0 n c
  = map (fun k => Z.of_nat k * c) (seq 0 (Z.to_nat ((n + c - 1) / c))).
Proof.
  intros Hc. unfold py_range.
  apply Z.ltb_lt in Hc. rewrite Hc.
  replace (n - 0 + c - 1) with (n + c - 1) by lia.
  apply map_ext. intros k. lia.
Qed.

Lemma py_range_step_not_positive n c :
  0 <= n -> c <= 0 -> py_range 0 n c = [].
Proof.
  intros Hn Hc. unfold py_range.
  destruct (0 <? c) eqn:E1; [apply Z.ltb_lt in E1; lia|].
  destruct (c <? 0) eqn:E2; [|reflexivity].
  apply Z.ltb_lt in E2.
  assert (Hq : (0 - n - c - 1) / - c <= 0).
  { destruct (Z.eq_dec n 0) as [->|Hn0].
    - rewrite Z.div_small; lia.
    - apply Z.lt_succ_r. apply Z.div_lt_upper_bound; lia. }
  now replace (Z.to_nat ((0 - n - c - 1) / - c)) with 0%nat by lia.
Qed.

Lemma slice_chunk {A} (l : list A) k c :
  0 < c ->
  slice l (Z.of_nat k * c) (Z.of_nat k * c + c)
  = take (Z.to_nat c) (drop (k * Z.to_nat c) l).
Proof.
  intros Hc. unfold slice.
  assert (Hk : Z.to_nat (Z.of_nat k * c) = (k * Z.to_nat c)%nat).
  { rewrite Z2Nat.inj_mul by lia. now rewrite Nat2Z.id. }
  rewrite Z2Nat.inj_add by nia. rewrite Hk.
  f_equal. lia.
Qed.

Lemma selection_chunks_positive selected chunk :
  0 < chunk ->
  selection_chunks selected chunk
    (py_range 0 (Z.of_nat (length selected)) chunk)
  = map (fun k => take (Z.to_nat chunk) (drop (k * Z.to_nat chunk) selected))
      (seq 0 (Z.to_nat ((Z.of_nat (length selected) + chunk - 1) / chunk))).
Proof.
  intros Hc. unfold selection_chunks.
  rewrite py_range_step_positive by assumption.
  rewrite map_map. apply map_ext. intros k. now apply slice_chunk.
Qed.

Lemma concat_take_drop {A} (l : list A) c m :
  concat (map (fun k => take c (drop (k * c) l)) (seq 0 m)) = take (m * c) l.
Proof.
  induction m as [|m IH]; [reflexivity|].
  rewrite seq_S, map_app, concat_app, IH. cbn [map concat plus].
  rewrite app_nil_r, take_take_drop. f_equal. lia.
Qed.

Lemma chunk_count_bounds n c :
  0 < c -> 0 <= n ->
  let m := (n + c - 1) / c in
  n <= m * c /\ (m - 1) * c < n \/ (n = 0 /\ m = 0).
Proof.
  intros Hc Hn m.
  assert (Hdm : n + c - 1 = c * m + (n + c - 1) mod c)
    by (apply Z.div_mod; lia).
  pose proof (Z.mod_pos_bound (n + c - 1) c Hc) as Hmod.
  destruct (Z.eq_dec n 0) as [->|Hn0].
  - right. split; [reflexivity|]. subst m. apply Z.div_small. lia.
  - left. nia.
Qed.

Lemma selection_chunks_sizes selected chunk k c :
  let chunks :=
    selection_chunks selected chunk
      (py_range 0 (Z.of_nat (length selected)) chunk) in
  chunks !! k = Some c ->
  (0 < length c)%nat /\ Z.of_nat (length c) <= chunk /\
  ((S k < length chunks)%nat -> Z.of_nat (length c) = chunk).
Proof.
  cbv zeta. destruct (Z_lt_le_dec 0 chunk) as [Hpos|Hneg].
  - rewrite selection_chunks_positive by assumption.
    rewrite length_map, length_seq, list_lookup_fmap.
    set (n := Z.of_nat (length selected)).
    set (m := (n + chunk - 1) / chunk).
    intros Hk.
    destruct (seq 0 (Z.to_nat m) !! k) as [j|] eqn:Ej; [|discriminate].
    apply lookup_seq in Ej as [-> Hkm]. cbn [plus] in Hk.
    injection Hk as <-.
    rewrite length_take, length_drop.
    destruct (chunk_count_bounds n chunk Hpos ltac:(lia)) as [[Hup Hlow]|[_ Hm0]];
      fold m in Hup, Hlow || fold m in Hm0; [|lia].
    assert (Hkc : Z.of_nat (k * Z.to_nat chunk) = Z.of_nat k * chunk)
      by (rewrite Nat2Z.inj_mul, Z2Nat.id; lia).
    assert (Hlt : Z.of_nat k * chunk < n) by nia.
    split; [lia|]. split; [lia|].
    intros Hnext.
    assert (Hle : (Z.of_nat k + 1) * chunk < n) by nia.
    lia.
  - rewrite py_range_step_not_positive by lia. discriminate.
Qed.

Lemma selection_chunks_concat selected chunk :
  0 < chunk ->
  concat (selection_chunks selected chunk
            (py_range 0 (Z.of_nat (length selected)) chunk)) = selected.
Proof.
  intros Hpos. rewrite selection_chunks_positive by assumption.
  rewrite concat_take_drop. apply take_ge.
  destruct (chunk_count_bounds (Z.of_nat (length selected)) chunk Hpos ltac:(lia))
    as [[Hup _]|[Hn0 _]]; [|lia].
  set (m := (_ / _)) in *.
  assert (0 <= m) by (apply Z.div_pos; lia).
  apply Nat2Z.inj_le. rewrite Nat2Z.inj_mul, !Z2Nat.id by lia. lia.
Qed.

(** C7. When the monitor answers False for a chunk, the selection stops
    there: [_drain_node_selection] returns False (it does not raise), the
    last call it makes is the stop of the job timer, and the nodes it
    submitted for draining are those of the chunks up to that one, none of
    a later chunk. *)
Theorem drain_node_selection_stops_when_unhealthy fuel selector worker_setup
    (s s0 s1 s2 : State W) nodes done i rest :
  selection_setup s = (Returned nodes, s0) ->
  let selected :=
    sorted (sort_key (precedence worker_setup)) (List.filter selector nodes) in
  let chunk := PoolPortion_of (rate worker_setup) (Z.of_nat (length nodes)) in
  py_range 0 (Z.of_nat (length selected)) chunk = done ++ i :: rest ->
  chunks_healthy fuel worker_setup selected chunk done s0 s1 ->
  drain_chunk fuel worker_setup selected chunk i s1 = (Returned false, s2) ->
  exists s3,
    _drain_node_selection fuel selector worker_setup s = (Returned false, s3) /\
    trace s3 = trace s2 ++ [Log timer_stop] /\
    submitted (trace s3)
    = submitted (trace s)
      ++ concat (selection_chunks selected chunk (done ++ [i])).
Proof.
  intros Esetup selected chunk Hrange Hdone Hbad.
  assert (Hchunk : chunk <> 0).
  { intros E0. rewrite E0 in Hrange. unfold py_range in Hrange.
    cbn in Hrange. now destruct done. }
  assert (Hsel : selected <> []).
  { intros E0. rewrite E0 in Hrange. cbn [length] in Hrange.
    destruct (Z_lt_le_dec 0 chunk) as [Hpos|Hneg].
    - rewrite py_range_step_positive in Hrange by assumption.
      rewrite Z.div_small in Hrange by lia. now destruct done.
    - rewrite py_range_step_not_positive in Hrange by lia. now destruct done. }
  rewrite (drain_node_selection_loop fuel selector worker_setup s s0 nodes
             Esetup Hsel Hchunk).
  fold selected chunk. rewrite Hrange.
  destruct (chunks_healthy_run _ _ _ _ _ _ _ Hdone) as [Hrun Hsub].
  rewrite Hrun, (drain_chunks_unhealthy _ _ _ _ _ _ _ _ Hbad).
  eexists. split; [reflexivity|]. split; [reflexivity|].
  cbn [trace]. unfold submitted at 1. rewrite omap_app.
  cbn [omap list_omap submission]. rewrite app_nil_r.
  fold (submitted (trace s2)).
  pose proof (drain_chunk_submitted fuel worker_setup selected chunk i s1) as D.
  rewrite Hbad in D. cbn [snd] in D. rewrite D, Hsub.
  destruct (selection_setup_run s) as (s0' & E' & Hs0).
  rewrite Esetup in E'. injection E' as _ <-. rewrite Hs0.
  unfold selection_chunks. rewrite map_app, concat_app. cbn [map concat].
  now rewrite app_nil_r, app_assoc.
Qed.

End WorkerProperties.

(** ** The monitor on the simulated pool *)

Lemma monitor_pool_health_latches_witness :
  fst (_monitor_pool_health 3 100 [Sim.node 5 "a5" "10.0.0.5"] 5 false
         (Sim.start Sim.recovering_pool)) = Returned true.
Proof.
  destruct (monitor_pool_health_latches 3 100 [Sim.node 5 "a5" "10.0.0.5"] 5
              false (Sim.start Sim.recovering_pool)) as (_ & first_healthy & _).
  apply (first_healthy 2%nat).
  - lia.
  - intros k Hk.
    destruct k as [|[|k]]; [vm_compute; split; reflexivity .. | lia].
  - vm_compute. reflexivity.
  - vm_compute. reflexivity.
Defined.

Lemma monitor_expired_at_entry_witness :
  _monitor_pool_health 1 100 Sim.six_nodes 5 false (Sim.start Sim.late_pool)
  = (Returned false, mkState Sim.late_pool [Log time_time]).
Proof.
  assert (late : 100 <= fst (handle Z time_time (world (Sim.start Sim.late_pool))))
    by (simpl; lia).
  exact (monitor_expired_at_entry 0 100 Sim.six_nodes 5 false
           (Sim.start Sim.late_pool) late).
Defined.

(** ** The selection on the simulated pool *)

Lemma drain_node_selection_stops_when_unhealthy_witness :
  exists s3,
    _drain_node_selection 10 Sim.few_tasks (Sim.setup (Sim.Count 2) false)
      (Sim.start Sim.unhealthy_pool) = (Returned false, s3) /\
    trace s3
    = trace (snd (drain_chunk 10 (Sim.setup (Sim.Count 2) false)
                    Sim.selected_nodes 2 0
                    (snd (selection_setup (Sim.start Sim.unhealthy_pool)))))
      ++ [Log timer_stop] /\
    submitted (trace s3)
    = [Sim.node 5 "a5" "10.0.0.5"; Sim.node 4 "a4" "10.0.0.4"].
Proof.
  apply (drain_node_selection_stops_when_unhealthy 10 Sim.few_tasks
           (Sim.setup (Sim.Count 2) false)
           (Sim.start Sim.unhealthy_pool)
           (snd (selection_setup (Sim.start Sim.unhealthy_pool)))
           (snd (selection_setup (Sim.start Sim.unhealthy_pool)))
           (snd (drain_chunk 10 (Sim.setup (Sim.Count 2) false)
                   Sim.selected_nodes 2 0
                   (snd (selection_setup (Sim.start Sim.unhealthy_pool)))))
           Sim.six_nodes [] 0 [2]).
  - reflexivity.
  - reflexivity.
  - constructor.
  - vm_compute. reflexivity.
Defined.

(** ** The event worker behind a held pool lock *)

(** C1, on the code. The pool lock is held by another worker and
    [acquire] answers False after the timeout; the event worker goes on all
    the same: it disables autoscaling, monitors the pool, runs the selection
    and returns without raising, after releasing a lock it never held. *)
Lemma event_worker_goes_on_without_lock :
  handle bool (lock_acquire (Some 60)) Sim.contended_pool
  = (false, Sim.tick 60 Sim.contended_pool) /\
  let run := event_migration_worker 10 Sim.event (Sim.setup (Sim.Count 2) true)
               (Sim.start Sim.contended_pool) in
  fst run = Returned tt /\
  trace (snd run)
  = [Log (PoolManager_init "test" "pool" "kubernetes" false);
     Log (set_label_selectors [] true);
     Log (reload_state false);
     Log (lock_acquire (Some 60));
     Log time_time;
     Log (disable_autoscaling "test" "pool" "kubernetes" 120);
     Log time_time;
     Log time_time;
     Log (reload_state false);
     Log is_capacity_satisfied;
     Log (get_node_metadatas ["running"%string]);
     Log lock_release;
     Log (enable_autoscaling "test" "pool" "kubernetes")].
Proof. vm_compute. repeat split. Qed.

(** * The draining queue *)

Module DrainingProperties.
Import Draining.

Lemma clean_lookup now (cache : gmap string Z) instance timestamp :
  clean_processing_hosts_cache now cache !! instance = Some timestamp <->
  cache !! instance = Some timestamp /\ now <= timestamp.
Proof.
  unfold clean_processing_hosts_cache.
  rewrite map_lookup_filter_Some. reflexivity.
Qed.

Lemma clean_lookup_None now (cache : gmap string Z) instance :
  clean_processing_hosts_cache now cache !! instance = None <->
  forall timestamp, cache !! instance = Some timestamp -> timestamp < now.
Proof.
  unfold clean_processing_hosts_cache.
  rewrite map_lookup_filter_None. split.
  - intros [Hnone|Hold] timestamp Hin; [congruence|].
    specialize (Hold timestamp Hin). cbn in Hold. lia.
  - intros Hold. right. intros timestamp Hin. cbn. specialize (Hold timestamp Hin). lia.
Qed.

(** C3, as stated, fails on the case of the test: with
    [DRAIN_CACHE_SECONDS] at 60, the entry whose timestamp is one second
    before [now] is within the last minute, and it is evicted. *)
Lemma clean_cache_evicts_entry_within_ttl : ~ evicts_by_age test_config.
Proof.
  intros Hclaim.
  assert (Hin : test_cache !! "i123" = Some (test_now - 1)).
  { unfold test_cache. rewrite lookup_insert_ne by discriminate.
    now rewrite lookup_insert_eq. }
  destruct (Hclaim test_now test_cache "i123" (test_now - 1) Hin)
    as [_ Hkept].
  assert (Hgone : clean_processing_hosts_cache test_now test_cache !! "i123"
                  = None).
  { apply clean_lookup_None. intros timestamp. rewrite Hin. intros [= <-]. lia. }
  rewrite Hkept in Hgone; [discriminate|].
  cbn [DRAIN_CACHE_SECONDS test_config]. lia.
Qed.

(** C3, amended. [clean_processing_hosts_cache] compares the timestamp held
    in the cache with [now] itself: it evicts exactly the entries whose
    timestamp is strictly earlier than [now], keeps the others with their
    timestamp, an entry whose timestamp is [now] included, and adds
    nothing. *)
Theorem clean_processing_hosts_cache_evicts now (cache : gmap string Z)
    instance timestamp :
  cache !! instance = Some timestamp ->
  (clean_processing_hosts_cache now cache !! instance = None
   <-> timestamp < now) /\
  (clean_processing_hosts_cache now cache !! instance = Some timestamp
   <-> now <= timestamp) /\
  clean_processing_hosts_cache now cache ⊆ cache.
Proof.
  intros Hin. split; [|split].
  - rewrite clean_lookup_None. split.
    + intros Hold. now apply Hold.
    + intros Hlt other. rewrite Hin. intros [= <-]. exact Hlt.
  - rewrite clean_lookup. tauto.
  - apply map_filter_subseteq.
Qed.

(** The two entries of [test_clean_processing_hosts_cache]. *)
Lemma clean_processing_hosts_cache_evicts_witness :
  clean_processing_hosts_cache test_now test_cache !! "i123" = None /\
  clean_processing_hosts_cache test_now test_cache !! "i456" = Some test_now.
Proof.
  assert (H123 : test_cache !! "i123" = Some (test_now - 1)).
  { unfold test_cache. rewrite lookup_insert_ne by discriminate.
    now rewrite lookup_insert_eq. }
  assert (H456 : test_cache !! "i456" = Some test_now).
  { unfold test_cache. now rewrite lookup_insert_eq. }
  destruct (clean_processing_hosts_cache_evicts test_now test_cache "i123"
              (test_now - 1) H123) as [[_ Hevicted] _].
  destruct (clean_processing_hosts_cache_evicts test_now test_cache "i456"
              test_now H456) as (_ & [_ Hkept] & _).
  split; [apply Hevicted | apply Hkept]; lia.
Defined.

(** A named host that is not in the cache reaches the scheduler-specific
    steps. *)
Lemma process_drain_queue_past_guards cfg inputs (cache : gmap string Z) host :
  get_host_to_drain inputs = Some host ->
  hostname host <> ""%string ->
  recently_drained (arrow_now inputs) cache (instance_id host) = false ->
  process_drain_queue cfg inputs cache
  = if match scheduler host with
       | kubernetes => String.eqb (agent_id host) ""
       | mesos => false
       end
    then (orphan_check inputs host, cache)
    else if MAX_DRAINING_TIME cfg <? arrow_now inputs - draining_start_time host
    then (expire cfg host, cache)
    else let (actions, drained) := drain inputs host in
         (actions,
          if drained
          then seed_cache (arrow_now inputs) (instance_id host) cache
          else cache).
Proof.
  intros Hreceived Hnamed Hfresh. unfold process_drain_queue.
  rewrite Hreceived. apply String.eqb_neq in Hnamed.
  now rewrite Hnamed, Hfresh.
Qed.

(** C4. A kubernetes host with an agent that reaches the drain step (named,
    not in the cache, not expired): when [k8s_drain] answers True the host
    goes to the termination queue with delay 0 and its drain message is
    deleted; when it answers False the host is published again for draining
    with its attempt plus one and the original message is deleted, so the
    attempt of the new message for that instance is strictly greater. *)
Theorem k8s_drain_outcome cfg inputs (cache : gmap string Z) host :
  get_host_to_drain inputs = Some host ->
  hostname host <> ""%string ->
  scheduler host = kubernetes ->
  agent_id host <> ""%string ->
  recently_drained (arrow_now inputs) cache (instance_id host) = false ->
  arrow_now inputs - draining_start_time host <= MAX_DRAINING_TIME cfg ->
  let actions := fst (process_drain_queue cfg inputs cache) in
  (k8s_drain_answer inputs = answered true ->
   actions = [k8s_drain (agent_id host) false;
              submit_host_for_termination host 0;
              delete_drain_messages [host]]) /\
  (k8s_drain_answer inputs = answered false ->
   actions = [k8s_drain (agent_id host) false;
              submit_host_for_draining host 0 (attempt host + 1);
              delete_drain_messages [host]] /\
   forall a next, a ∈ actions -> published a = Some next ->
     instance_id next = instance_id host /\ attempt host < attempt next).
Proof.
  intros Hreceived Hnamed Hk8s Hagent Hfresh Hlive actions. subst actions.
  rewrite (process_drain_queue_past_guards _ _ _ _ Hreceived Hnamed Hfresh).
  rewrite Hk8s. apply String.eqb_neq in Hagent. rewrite Hagent.
  apply Z.ltb_ge in Hlive. rewrite Hlive.
  unfold drain. rewrite Hk8s. split.
  - intros ->. reflexivity.
  - intros ->. cbn [fst]. split; [reflexivity|].
    intros a next Hin Hpub. unfold resubmit in Hin.
    rewrite !elem_of_cons in Hin.
    destruct Hin as [->|[->|[->|Hin]]]; try discriminate.
    + injection Hpub as <-. cbn. split; [reflexivity | lia].
    + now apply elem_of_nil in Hin.
Qed.

Lemma k8s_drain_outcome_witness :
  fst (process_drain_queue test_config
         (test_inputs (test_host "i12345" "agt123" 1) None (answered false)) ∅)
  = [k8s_drain "agt123" false;
     submit_host_for_draining (test_host "i12345" "agt123" 1) 0 2;
     delete_drain_messages [test_host "i12345" "agt123" 1]]
  /\
  fst (process_drain_queue test_config
         (test_inputs (test_host "i12345" "agt123" 2) None (answered true)) ∅)
  = [k8s_drain "agt123" false;
     submit_host_for_termination (test_host "i12345" "agt123" 2) 0;
     delete_drain_messages [test_host "i12345" "agt123" 2]].
Proof.
  split.
  - apply (k8s_drain_outcome test_config
             (test_inputs (test_host "i12345" "agt123" 1) None (answered false))
             ∅ (test_host "i12345" "agt123" 1));
      try reflexivity; try discriminate; try (cbn; lia).
  - apply (k8s_drain_outcome test_config
             (test_inputs (test_host "i12345" "agt123" 2) None (answered true))
             ∅ (test_host "i12345" "agt123" 2));
      try reflexivity; try discriminate; try (cbn; lia).
Defined.

(** C5, as stated, fails for the orphans that the two guards before the
    orphan check stop. A kubernetes host without agent and without hostname
    is forwarded to the termination queue although it resolves to no
    instance; one that is in the cache has its message deleted and is not
    published again although it resolves to an instance with an agent.
    Neither is resolved at all. *)
Lemma orphan_stopped_by_guards :
  let nameless :=
    mkHost "i12345678912" "10.1.1.1" "" "sfr1" "" "default" kubernetes "mmb"
      "aaaaa" 1000 SPOT_INTERRUPTION 1 in
  let cached := test_host "i12345678912" "" 1 in
  let fresh := test_host "i12345678912" "agt123" 1 in
  fst (process_drain_queue test_config
         (test_inputs nameless None (answered true)) ∅)
  = [submit_host_for_termination nameless 0; delete_drain_messages [nameless]]
  /\
  fst (process_drain_queue test_config
         (test_inputs cached (Some fresh) (answered true))
         (seed_cache 1000 "i12345678912" ∅))
  = [delete_drain_messages [cached]].
Proof.
  cbv zeta. split; [reflexivity|].
  unfold process_drain_queue, test_inputs, test_host.
  cbn [get_host_to_drain hostname String.eqb Ascii.eqb Bool.eqb arrow_now
       instance_id].
  assert (Hcached :
    recently_drained 1000 (seed_cache 1000 "i12345678912" ∅) "i12345678912"
    = true).
  { unfold recently_drained.
    assert (Hin : clean_processing_hosts_cache 1000
                    (seed_cache 1000 "i12345678912" ∅) !! "i12345678912"
                  = Some 1000).
    { apply clean_lookup. unfold seed_cache. rewrite lookup_insert_eq.
      split; [reflexivity | lia]. }
    now rewrite Hin. }
  now rewrite Hcached.
Qed.

(** C5, amended. A kubernetes host without agent that reaches the orphan
    check (it has a hostname and is not in the cache) is resolved again
    with [host_from_instance_id], and the pipeline does one of three
    things: no instance, the drain message is deleted and nothing else is
    done; an instance still without agent, the host goes to the
    termination queue with delay 0 and the drain message is deleted; an
    instance with an agent, the resolved host is published for draining
    with the attempt of the received host plus one and the original
    message is deleted. *)
Theorem orphan_outcome cfg inputs (cache : gmap string Z) host :
  get_host_to_drain inputs = Some host ->
  hostname host <> ""%string ->
  scheduler host = kubernetes ->
  agent_id host = ""%string ->
  recently_drained (arrow_now inputs) cache (instance_id host) = false ->
  let actions := fst (process_drain_queue cfg inputs cache) in
  let resolution :=
    host_from_instance_id inputs (receipt_handle host) (instance_id host) in
  (resolution = None -> actions = [delete_drain_messages [host]]) /\
  (forall fresh, resolution = Some fresh -> agent_id fresh = ""%string ->
     actions = [submit_host_for_termination host 0;
                delete_drain_messages [host]]) /\
  (forall fresh, resolution = Some fresh -> agent_id fresh <> ""%string ->
     actions = [submit_host_for_draining fresh 0 (attempt host + 1);
                delete_drain_messages [host]]).
Proof.
  intros Hreceived Hnamed Hk8s Horphan Hfresh actions resolution.
  subst actions.
  rewrite (process_drain_queue_past_guards _ _ _ _ Hreceived Hnamed Hfresh).
  rewrite Hk8s, Horphan. cbn [String.eqb fst]. unfold orphan_check.
  fold resolution. split; [|split].
  - intros ->. reflexivity.
  - intros fresh -> Hnone. rewrite Hnone. reflexivity.
  - intros fresh -> Hsome. apply String.eqb_neq in Hsome. now rewrite Hsome.
Qed.

Lemma orphan_outcome_witness :
  fst (process_drain_queue test_config
         (test_inputs (test_host "i12345678912" "" 1)
            (Some (test_host "i12345678912" "agt123" 1)) (answered true)) ∅)
  = [submit_host_for_draining (test_host "i12345678912" "agt123" 1) 0 2;
     delete_drain_messages [test_host "i12345678912" "" 1]].
Proof.
  assert (Hnamed : hostname (test_host "i12345678912" "" 1) <> ""%string)
    by discriminate.
  assert (Hfresh : recently_drained 1000 ∅ "i12345678912" = false)
    by reflexivity.
  destruct (orphan_outcome test_config
              (test_inputs (test_host "i12345678912" "" 1)
                 (Some (test_host "i12345678912" "agt123" 1)) (answered true))
              ∅ (test_host "i12345678912" "" 1)
              eq_refl Hnamed eq_refl eq_refl Hfresh)
    as (_ & _ & Hresolved).
  apply (Hresolved (test_host "i12345678912" "agt123" 1));
    [reflexivity | discriminate].
Defined.

End DrainingProperties.

(** * Migration conditions *)

Module EventProperties.
Import Event.

(** *** Strings *)

Lemma split_on_without_separator sep w :
  contains sep w = false -> split_on sep w = [w].
Proof.
  induction w as [|c w IH]; [reflexivity|].
  cbn [contains split_on]. intros Hfree.
  apply orb_false_iff in Hfree as [Hc Hw].
  rewrite Hc, (IH Hw). reflexivity.
Qed.

Lemma append_empty (s : string) : (EmptyString ++ s)%string = s.
Proof. reflexivity. Qed.

Lemma append_String c (w s : string) :
  (String c w ++ s)%string = String c (w ++ s)%string.
Proof. reflexivity. Qed.

Lemma split_on_join_cons sep w rest :
  contains sep w = false ->
  split_on sep (w ++ String sep rest)%string = w :: split_on sep rest.
Proof.
  induction w as [|c w IH]; intros Hfree.
  - rewrite append_empty. cbn [split_on]. now rewrite Ascii.eqb_refl.
  - cbn [contains] in Hfree. apply orb_false_iff in Hfree as [Hc Hw].
    rewrite append_String. cbn [split_on]. rewrite Hc, (IH Hw). reflexivity.
Qed.

Lemma split_on_join sep words :
  words <> [] ->
  Forall (fun w => contains sep w = false) words ->
  split_on sep (join sep words) = words.
Proof.
  intros Hne Hfree. induction Hfree as [|w rest Hw Hrest IH]; [congruence|].
  destruct rest as [|w' rest].
  - cbn [join]. now apply split_on_without_separator.
  - change (join sep (w :: w' :: rest))
      with (w ++ String sep (join sep (w' :: rest)))%string.
    rewrite split_on_join_cons by assumption.
    f_equal. apply IH. discriminate.
Qed.

Lemma split_on_not_nil sep s : split_on sep s <> [].
Proof.
  destruct s as [|c s]; [discriminate|]. cbn [split_on].
  destruct (Ascii.eqb c sep); [discriminate|].
  destruct (split_on sep s); discriminate.
Qed.

Lemma split_on_words_free sep s :
  Forall (fun w => contains sep w = false) (split_on sep s).
Proof.
  induction s as [|c s IH]; [repeat constructor|].
  cbn [split_on]. destruct (Ascii.eqb c sep) eqn:Hc.
  - constructor; [reflexivity | exact IH].
  - destruct (split_on sep s) as [|w ws].
    + repeat constructor. cbn [contains]. now rewrite Hc.
    + inversion IH as [|? ? Hw Hws]; subst.
      constructor; [|exact Hws]. cbn [contains]. now rewrite Hc, Hw.
Qed.

Lemma lower_ascii_idempotent c : lower_ascii (lower_ascii c) = lower_ascii c.
Proof. destruct c as [[] [] [] [] [] [] [] []]; reflexivity. Qed.

Lemma lower_ascii_comma c :
  Ascii.eqb (lower_ascii c) "," = Ascii.eqb c ",".
Proof. destruct c as [[] [] [] [] [] [] [] []]; reflexivity. Qed.

Lemma lower_idempotent s : lower (lower s) = lower s.
Proof.
  induction s as [|c s IH]; [reflexivity|].
  cbn [lower]. now rewrite lower_ascii_idempotent, IH.
Qed.

Lemma contains_comma_lower s : contains "," (lower s) = contains "," s.
Proof.
  induction s as [|c s IH]; [reflexivity|].
  cbn [lower contains]. now rewrite lower_ascii_comma, IH.
Qed.

(** *** Numbers *)

Lemma contains_string_of_uint c d :
  forallb (fun digit => negb (Ascii.eqb digit c)) digits = true ->
  contains c (NilEmpty.string_of_uint d) = false.
Proof.
  intros Hc. cbn [forallb digits] in Hc.
  repeat (apply andb_prop in Hc as [?%negb_true_iff Hc]).
  induction d; cbn [NilEmpty.string_of_uint contains];
    [reflexivity | apply orb_false_iff; split; assumption ..].
Qed.

Lemma contains_str_int c n :
  forallb (fun digit => negb (Ascii.eqb digit c)) digits = true ->
  contains c (str_int n) = false.
Proof. apply contains_string_of_uint. Qed.

Lemma str_int_not_empty n : str_int n <> EmptyString.
Proof.
  unfold str_int. destruct n as [|p]; [discriminate|].
  cbn [N.to_uint]. pose proof (DecimalPos.Unsigned.to_uint_nonnil p) as Hnil.
  destruct (Pos.to_uint p); [congruence | discriminate ..].
Qed.

Lemma parse_int_str_int n : parse_int (str_int n) = Some n.
Proof.
  unfold parse_int. pose proof (str_int_not_empty n) as Hne.
  destruct (str_int n) eqn:E; [congruence|]. rewrite <- E.
  unfold str_int. rewrite NilEmpty.usu. cbn [fmap option_fmap option_map].
  now rewrite DecimalN.Unsigned.of_to.
Qed.

Lemma strip_suffix_absent c s :
  contains c s = false -> strip_suffix c s = None.
Proof.
  induction s as [|a s IH]; [reflexivity|].
  cbn [contains]. intros Hfree. apply orb_false_iff in Hfree as [Ha Hs].
  cbn [strip_suffix]. destruct s as [|b s]; [now rewrite Ha|].
  now rewrite (IH Hs).
Qed.

(** *** Conditions *)

Section ConditionProperties.
Variables semver packaging : VersionLibrary.
Variable is_instance_type : string -> bool.

Local Abbreviation Condition := (MigrationCondition semver packaging).
Local Abbreviation from_dict := (from_dict semver packaging is_instance_type).
Local Abbreviation to_dict := (to_dict semver packaging).
Local Abbreviation valid := (valid semver packaging).
Local Abbreviation reads_back := (reads_back semver packaging is_instance_type).

Lemma parse_trait_value t : parse_trait (trait_value t) = Some t.
Proof. destruct t; reflexivity. Qed.

Lemma parse_operator_value op : parse_operator (operator_value op) = Some op.
Proof. destruct op; reflexivity. Qed.

Lemma parse_uptime_str_int n : parse_uptime (str_int n) = Some n.
Proof.
  unfold parse_uptime.
  rewrite (strip_suffix_absent "d") by (now apply contains_str_int).
  rewrite (strip_suffix_absent "h") by (now apply contains_str_int).
  apply parse_int_str_int.
Qed.

Lemma parse_instance_types_join types :
  types <> [] ->
  Forall (fun name => is_instance_type name = true /\ lower name = name /\
                      contains "," name = false) types ->
  parse_instance_types is_instance_type (join "," types) = Some types.
Proof.
  intros Hne Hall. unfold parse_instance_types.
  rewrite split_on_join; [|assumption|].
  - assert (Hlower : map lower types = types).
    { clear Hne. induction Hall as [|name rest (_ & Hl & _) _ IH]; [reflexivity|].
      cbn [map]. now rewrite Hl, IH. }
    rewrite Hlower.
    assert (Hknown : forallb is_instance_type types = true).
    { apply forallb_forall. intros name Hin.
      rewrite Forall_forall in Hall. apply list_elem_of_In in Hin.
      now destruct (Hall name Hin). }
    now rewrite Hknown.
  - eapply Forall_impl; [exact Hall|]. now intros name (_ & _ & Hfree).
Qed.

Lemma parse_instance_types_valid s types :
  parse_instance_types is_instance_type s = Some types ->
  types <> [] /\
  Forall (fun name => is_instance_type name = true /\ lower name = name /\
                      contains "," name = false) types.
Proof.
  unfold parse_instance_types.
  destruct (forallb is_instance_type (map lower (split_on "," s))) eqn:Hknown;
    [|discriminate].
  intros [= <-]. split.
  - pose proof (split_on_not_nil "," s) as Hne.
    destruct (split_on "," s); [congruence | discriminate].
  - rewrite forallb_forall in Hknown. apply Forall_forall. intros name Hin.
    split; [apply Hknown; now apply list_elem_of_In|].
    apply list_elem_of_fmap in Hin as (w & -> & Hw).
    split; [apply lower_idempotent|].
    rewrite contains_comma_lower.
    pose proof (split_on_words_free "," s) as Hfree.
    rewrite Forall_forall in Hfree. now apply Hfree.
Qed.

(** What [from_dict] accepts is valid. *)
Lemma from_dict_valid d (c : Condition) : from_dict d = Some c -> valid c.
Proof.
  unfold Event.from_dict.
  destruct (parse_trait (dict_trait d)) as [t|]; [|discriminate].
  destruct (parse_operator (dict_operator d)) as [op|]; [|discriminate].
  cbn [mbind option_bind].
  destruct (Bool.eqb _ _) eqn:Hfit; [|discriminate].
  apply Bool.eqb_prop in Hfit.
  destruct (parse_target semver packaging is_instance_type t (dict_target d))
    as [x|] eqn:Ex; [|discriminate].
  intros [= <-]. split; [exact Hfit|]. cbn [trait target].
  destruct t; cbn [parse_target] in Ex.
  - destruct (parse_version semver _); [|discriminate]. now injection Ex as <-.
  - destruct (parse_version packaging _); [|discriminate]. now injection Ex as <-.
  - destruct (parse_instance_types _ _) as [types|] eqn:Et; [|discriminate].
    injection Ex as <-. apply parse_instance_types_valid in Et as [_ Hall].
    cbn [valid_target]. eapply Forall_impl; [exact Hall|].
    now intros name (_ & Hlower & _).
  - destruct (parse_uptime _); [|discriminate]. now injection Ex as <-.
Qed.


(** The second case of [test_condition_to_dict] serializes a release
    condition that carries a semver target: such a condition is not valid
    and is not read back. *)
Lemma release_with_semver_target_not_read_back op (v : Version semver) :
  from_dict (to_dict (mkCondition semver packaging LSBRELEASE op (semver_target _ _ v)))
  <> Some (mkCondition semver packaging LSBRELEASE op (semver_target _ _ v)).
Proof.
  unfold Event.from_dict, Event.to_dict. cbn [dict_trait dict_operator dict_target].
  cbn [trait operator target].
  rewrite parse_trait_value, parse_operator_value. cbn [mbind option_bind].
  destruct (Bool.eqb _ _); [|discriminate].
  cbn [parse_target]. destruct (parse_version packaging _); discriminate.
Qed.

End ConditionProperties.

(** *** The example library and the cases of the tests *)

Lemma triples_round_trip : round_trips triples.
Proof.
  intros [[major minor] patch]. cbn [parse_version str_version triples].
  unfold parse_triple, str_triple.
  rewrite split_on_join;
    [| discriminate
     | repeat constructor; now apply contains_str_int].
  rewrite !parse_int_str_int. reflexivity.
Qed.



(** The uptime and instance type cases of [test_condition_from_dict] and
    of [test_condition_from_dict_error]. *)
Example test_condition_from_dict :
  from_dict triples triples example_types (mkDict "uptime" "lt" "30d")
  = Some (mkCondition triples triples UPTIME LT (seconds_target triples triples (30 * 24 * 60 * 60)%N))
  /\
  from_dict triples triples example_types (mkDict "uptime" "le" "1337")
  = Some (mkCondition triples triples UPTIME LE (seconds_target triples triples 1337%N))
  /\
  from_dict triples triples example_types
    (mkDict "instance_type" "in" "m5.4xlarge,r5.2xLARGE")
  = Some (mkCondition triples triples INSTANCE_TYPE IN
            (instance_types_target triples triples ["m5.4xlarge"; "r5.2xlarge"]%string)).
Proof. repeat split; vm_compute; reflexivity. Qed.

Example test_condition_from_dict_error :
  from_dict triples triples example_types
    (mkDict "instance_type" "in" "m5.4xlarge,foobar.1xsmall") = None /\
  from_dict triples triples example_types (mkDict "uptime" "ge" "foobar") = None /\
  from_dict triples triples example_types
    (mkDict "instance_type" "ge" "m5.4xlarge") = None /\
  from_dict triples triples example_types (mkDict "uptime" "in" "1337") = None.
Proof. repeat split; vm_compute; reflexivity. Qed.

(** The uptime and instance type cases of [test_condition_to_dict]. *)
Example test_condition_to_dict :
  to_dict triples triples
    (mkCondition triples triples INSTANCE_TYPE IN
       (instance_types_target triples triples ["m5.4xlarge"; "r5.2xlarge"]%string))
  = mkDict "instance_type" "in" "m5.4xlarge,r5.2xlarge" /\
  to_dict triples triples (mkCondition triples triples UPTIME LT (seconds_target triples triples 1337%N))
  = mkDict "uptime" "lt" "1337".
Proof. split; vm_compute; reflexivity. Qed.

End EventProperties.

(** * Further properties of worker.py *)

Section WorkerObservations.
Context {W : Type} {env : Environment W} {settings : Settings}.

(** *** The calls of a computation *)

Lemma emits_ret {A} P (a : A) : emits (W:=W) P (mret a).
Proof. intros s. exists []. now rewrite app_nil_r. Qed.

Lemma emits_raise {A} P e : emits (W:=W) (A:=A) P (raise e).
Proof. intros s. exists []. now rewrite app_nil_r. Qed.

Lemma emits_out_of_fuel {A} P : emits (W:=W) (A:=A) P out_of_fuel.
Proof. intros s. exists []. now rewrite app_nil_r. Qed.

Lemma emits_call {A} P (c : Call A) : P (Log c) = true -> emits P (call c).
Proof.
  intros Hc s. exists [Log c]. rewrite call_run. cbn [snd trace forallb].
  now rewrite Hc.
Qed.

Lemma emits_bind {A B} P (m : M W A) (k : A -> M W B) :
  emits P m -> (forall a, emits P (k a)) -> emits P (x ← m; k x).
Proof.
  intros Hm Hk s. destruct (Hm s) as (calls & Et & Hcalls).
  unfold mbind, M_bind, bind.
  destruct (m s) as [[a|e|] s1]; cbn [snd] in *; [|now exists calls ..].
  destruct (Hk a s1) as (more & Et' & Hmore).
  exists (calls ++ more). rewrite Et', Et, app_assoc. split; [reflexivity|].
  now rewrite forallb_app, Hcalls, Hmore.
Qed.

Lemma emits_weaken {A} (P Q : Logged -> bool) (m : M W A) :
  (forall e, P e = true -> Q e = true) -> emits P m -> emits Q m.
Proof.
  intros HPQ Hm s. destruct (Hm s) as (calls & Et & Hcalls).
  exists calls. split; [exact Et|].
  rewrite forallb_forall in Hcalls |- *. auto.
Qed.

Lemma emits_when P b (m : M W unit) : emits P m -> emits P (when b m).
Proof. destruct b; [trivial | intros _; apply (emits_ret P tt)]. Qed.

Lemma emits_try_finally {A} P (body : M W A) cleanup :
  emits P body -> emits P cleanup -> emits P (try_finally body cleanup).
Proof.
  intros Hb Hc s. destruct (Hb s) as (calls & Et & Hcalls).
  unfold try_finally.
  destruct (body s) as [[a|e|] s1]; cbn [snd] in *; [| |now exists calls];
    (destruct (Hc s1) as (more & Et' & Hmore);
     exists (calls ++ more);
     split; [|now rewrite forallb_app, Hcalls, Hmore];
     destruct (cleanup s1) as [[[]|e'|] s2]; cbn [snd] in *;
     now rewrite Et', Et, app_assoc).
Qed.

Lemma emits_any_agent_unchanged P drained :
  (forall ip, P (Log (get_agent_metadata ip)) = true) ->
  emits P (any_agent_unchanged drained).
Proof.
  intros Hq. induction drained as [|node rest IH]; [apply emits_ret|].
  cbn [any_agent_unchanged]. apply emits_bind; [now apply emits_call|].
  intros current. destruct (String.eqb _ _); [apply emits_ret | exact IH].
Qed.

(** A poll asks only the questions whose latch is not set yet. *)
Lemma emits_poll_pool_health P drained ignore l :
  P (Log (reload_state (negb ignore))) = true ->
  (draining_happened l = false ->
   forall ip, P (Log (get_agent_metadata ip)) = true) ->
  (capacity_satisfied l = false -> P (Log is_capacity_satisfied) = true) ->
  (pods_healthy l = false -> ignore = false ->
   P (Log has_enough_capacity_for_pods) = true) ->
  emits P (poll_pool_health drained ignore l).
Proof.
  intros Hreload Hagent Hcapacity Hpods. unfold poll_pool_health.
  apply emits_bind; [now apply emits_call | intros _].
  apply emits_bind.
  { destruct (draining_happened l); [apply emits_ret|].
    apply emits_bind; [now apply emits_any_agent_unchanged; apply Hagent|].
    intros still. apply emits_ret. }
  intros d. apply emits_bind.
  { destruct (capacity_satisfied l); [apply emits_ret|].
    destruct d; [now apply emits_call; apply Hcapacity | apply emits_ret]. }
  intros c. apply emits_bind.
  { destruct (pods_healthy l); [apply emits_ret|].
    destruct d; [|apply emits_ret].
    destruct ignore; [apply emits_ret | now apply emits_call; apply Hpods]. }
  intros p. apply emits_ret.
Qed.

Lemma emits_monitor_loop P fuel timeout drained interval ignore :
  P (Log time_time) = true ->
  P (Log (time_sleep interval)) = true ->
  P (Log (reload_state (negb ignore))) = true ->
  forall l,
  (draining_happened l = false ->
   forall ip, P (Log (get_agent_metadata ip)) = true) ->
  (capacity_satisfied l = false -> P (Log is_capacity_satisfied) = true) ->
  (pods_healthy l = false -> ignore = false ->
   P (Log has_enough_capacity_for_pods) = true) ->
  emits P (monitor_loop fuel timeout drained interval ignore l).
Proof.
  intros Htime Hsleep Hreload.
  induction fuel as [|fuel IH]; intros l Hagent Hcapacity Hpods s;
    [apply emits_out_of_fuel|].
  destruct (round_shift timeout drained interval ignore l s)
    as (l1 & s_poll & Epoll & (Hd & Hc & Hp) & _ & _ & _ & _ & Eloop).
  rewrite Eloop.
  destruct (emits_poll_pool_health P drained ignore l Hreload Hagent
              Hcapacity Hpods (after_reading s)) as (calls & Et & Hcalls).
  rewrite Epoll in Et. cbn [snd] in Et. cbn [after_reading trace] in Et.
  destruct (_ <? timeout).
  - destruct (all_latched l1).
    + exists ([Log time_time] ++ calls). cbn [snd].
      rewrite Et, <- app_assoc. split; [reflexivity|].
      cbn [app forallb]. now rewrite Htime, Hcalls.
    + assert (Hagent1 : draining_happened l1 = false ->
                forall ip, P (Log (get_agent_metadata ip)) = true).
      { intros E. apply Hagent. destruct (draining_happened l); [|reflexivity].
        rewrite Hd in E by reflexivity. discriminate. }
      assert (Hcapacity1 : capacity_satisfied l1 = false ->
                P (Log is_capacity_satisfied) = true).
      { intros E. apply Hcapacity. destruct (capacity_satisfied l); [|reflexivity].
        rewrite Hc in E by reflexivity. discriminate. }
      assert (Hpods1 : pods_healthy l1 = false -> ignore = false ->
                P (Log has_enough_capacity_for_pods) = true).
      { intros E. apply Hpods. destruct (pods_healthy l); [|reflexivity].
        rewrite Hp in E by reflexivity. discriminate. }
      destruct (IH l1 Hagent1 Hcapacity1 Hpods1 (after_sleep interval s_poll))
        as (more & Et' & Hmore).
      exists ([Log time_time] ++ calls ++ [Log (time_sleep interval)] ++ more).
      rewrite Et'. cbn [after_sleep trace]. rewrite Et.
      split; [now rewrite <- !app_assoc|].
      rewrite !forallb_app. cbn [forallb].
      now rewrite Htime, Hcalls, Hsleep, Hmore.
  - exists [Log time_time]. cbn [snd after_reading trace forallb].
    now rewrite Htime.
Qed.

Lemma monitor_call_emitted fuel timeout drained interval ignore :
  emits monitor_call
    (_monitor_pool_health fuel timeout drained interval ignore).
Proof.
  unfold _monitor_pool_health. apply emits_monitor_loop; reflexivity.
Qed.

(** X1. [_monitor_pool_health] only observes: every call it makes is a
    clock reading, a sleep, a reload of the state or one of the three
    questions on the pool; it submits nothing, changes no capacity and
    touches neither the lock nor the autoscaler. *)
Theorem monitor_pool_health_only_observes fuel timeout drained interval ignore
    (s : State W) :
  exists calls,
    trace (snd (_monitor_pool_health fuel timeout drained interval ignore s))
    = trace s ++ calls /\
    forallb monitor_call calls = true.
Proof. apply monitor_call_emitted. Qed.

(** X2. With [ignore_pod_health] set, [_monitor_pool_health] never looks at
    pods: every reload is without the pods' information and the capacity
    for pods is never asked. *)
Theorem monitor_pool_health_ignores_pods fuel timeout drained interval :
  emits (fun e => monitor_call e && negb (pod_call e))
    (_monitor_pool_health fuel timeout drained interval true).
Proof.
  unfold _monitor_pool_health. apply emits_monitor_loop;
    try reflexivity; discriminate.
Qed.

(** X3. From a state of the loop in which a latch is set, the question
    behind that latch is not asked again: no agent metadata once
    [draining_happened] holds, no [is_capacity_satisfied] once
    [capacity_satisfied] holds, no [has_enough_capacity_for_pods] once
    [pods_healthy] holds. *)
Theorem monitor_loop_asks_no_settled_question fuel timeout drained interval
    ignore l :
  emits (fun e =>
           negb (draining_happened l && agent_question e)
           && negb (capacity_satisfied l && capacity_question e)
           && negb (pods_healthy l && pods_question e))
    (monitor_loop fuel timeout drained interval ignore l).
Proof.
  apply emits_monitor_loop.
  - cbn. now rewrite !andb_false_r.
  - cbn. now rewrite !andb_false_r.
  - cbn. now rewrite !andb_false_r.
  - intros -> ip. cbn. now rewrite !andb_false_r.
  - intros ->. cbn. now rewrite !andb_false_r.
  - intros -> _. cbn. now rewrite !andb_false_r.
Qed.

(** *** The order of the latches *)

Lemma poll_pool_health_ordered drained ignore l (s s' : State W) l' :
  poll_pool_health drained ignore l s = (Returned l', s') ->
  latches_ordered l -> latches_ordered l'.
Proof.
  unfold poll_pool_health. rewrite bind_call.
  set (s1 := mkState _ _).
  destruct l as [d c p]; cbn [draining_happened capacity_satisfied pods_healthy].
  intros Erun [Hc Hp]; cbn [draining_happened capacity_satisfied pods_healthy] in *.
  assert (Hd : exists d' s2,
    (if d then mret true
     else still ← any_agent_unchanged drained; mret (negb still)) s1
    = (Returned d', s2) /\ (d = true -> d' = true)).
  { destruct d; [now exists true, s1 |].
    destruct (any_agent_unchanged_returns drained s1) as (b & s2 & E).
    exists (negb b), s2. split; [|discriminate].
    now rewrite (bind_returned _ _ _ _ _ E). }
  destruct Hd as (d' & s2 & Ed & Hd).
  rewrite (bind_returned _ _ _ _ _ Ed) in Erun.
  assert (Hc' : exists c' s3,
    (if c then mret true
     else if d' then call is_capacity_satisfied else mret false) s2
    = (Returned c', s3) /\ (c' = true -> c = true \/ d' = true)).
  { destruct c; [exists true, s2; now split; [|left] |].
    destruct d'; eexists _, _; (split; [reflexivity |]);
      [now right | discriminate]. }
  destruct Hc' as (c' & s3 & Ec & Hc').
  rewrite (bind_returned _ _ _ _ _ Ec) in Erun.
  assert (Hp' : exists p' s4,
    (if p then mret true
     else if d'
          then (if ignore then mret true
                else call has_enough_capacity_for_pods)
          else mret false) s3
    = (Returned p', s4) /\ (p' = true -> p = true \/ d' = true)).
  { destruct p; [exists true, s3; now split; [|left] |].
    destruct d', ignore; eexists _, _; (split; [reflexivity |]);
      try (now right); discriminate. }
  destruct Hp' as (p' & s4 & Ep & Hp').
  rewrite (bind_returned _ _ _ _ _ Ep) in Erun.
  injection Erun as <- _.
  split; cbn [draining_happened capacity_satisfied pods_healthy]; intros E.
  - destruct (Hc' E) as [E'|E']; [apply Hd, Hc, E' | exact E'].
  - destruct (Hp' E) as [E'|E']; [apply Hd, Hp, E' | exact E'].
Qed.

Lemma latches_after_ordered n drained interval ignore :
  forall l (s : State W),
  latches_ordered l ->
  latches_ordered (latches_after n drained interval ignore l s).
Proof.
  induction n as [|n IH]; intros l s Hl;
    destruct (round_shift 0 drained interval ignore l s)
      as (l1 & s_poll & Epoll & _ & _ & L0 & _ & LS & _);
    pose proof (poll_pool_health_ordered _ _ _ _ _ _ Epoll Hl) as Hl1.
  - now rewrite L0.
  - rewrite LS. now apply IH.
Qed.

(** X4. At the end of every poll of [_monitor_pool_health], the capacity
    latch and the pods latch are set only if the draining latch is:
    capacity and pod health are counted only once the drained nodes are
    seen to be gone. *)
Theorem monitor_pool_health_counts_after_drain n drained interval ignore
    (s : State W) :
  latches_ordered (latches_after n drained interval ignore no_latch s).
Proof.
  apply latches_after_ordered. split; discriminate.
Qed.

(** *** The monitor under a clock that goes on *)

Lemma nondecreasing_ret clock {A} (a : A) : nondecreasing (W:=W) clock (mret a).
Proof. intros s. cbn. lia. Qed.

Lemma nondecreasing_bind clock {A B} (m : M W A) (k : A -> M W B) :
  nondecreasing clock m -> (forall a, nondecreasing clock (k a)) ->
  nondecreasing clock (x ← m; k x).
Proof.
  intros Hm Hk s. specialize (Hm s). unfold mbind, M_bind, bind.
  destruct (m s) as [[a|e|] s1]; cbn [snd] in *; [|assumption ..].
  specialize (Hk a s1). lia.
Qed.

Lemma nondecreasing_call clock P {A} (c : Call A) :
  advancing clock P -> P (Log c) = true -> 0 <= elapsed c ->
  nondecreasing clock (call c).
Proof.
  intros [_ Hstep] Hc Hpos s. rewrite call_run. cbn [snd world].
  specialize (Hstep A c (world s) Hc). lia.
Qed.

Lemma nondecreasing_any_agent_unchanged clock drained :
  advancing clock monitor_call ->
  nondecreasing clock (any_agent_unchanged drained).
Proof.
  intros Hclock. induction drained as [|node rest IH];
    [apply nondecreasing_ret|].
  cbn [any_agent_unchanged]. apply nondecreasing_bind.
  - now apply (nondecreasing_call clock monitor_call).
  - intros current. destruct (String.eqb _ _);
      [apply nondecreasing_ret | exact IH].
Qed.

Lemma nondecreasing_poll_pool_health clock drained ignore l :
  advancing clock monitor_call ->
  nondecreasing clock (poll_pool_health drained ignore l).
Proof.
  intros Hclock. unfold poll_pool_health.
  apply nondecreasing_bind;
    [now apply (nondecreasing_call clock monitor_call) | intros _].
  apply nondecreasing_bind.
  { destruct (draining_happened l); [apply nondecreasing_ret|].
    apply nondecreasing_bind; [now apply nondecreasing_any_agent_unchanged|].
    intros still. apply nondecreasing_ret. }
  intros d. apply nondecreasing_bind.
  { destruct (capacity_satisfied l); [apply nondecreasing_ret|].
    destruct d; [|apply nondecreasing_ret].
    now apply (nondecreasing_call clock monitor_call). }
  intros c. apply nondecreasing_bind.
  { destruct (pods_healthy l); [apply nondecreasing_ret|].
    destruct d; [|apply nondecreasing_ret].
    destruct ignore; [apply nondecreasing_ret|].
    now apply (nondecreasing_call clock monitor_call). }
  intros p. apply nondecreasing_ret.
Qed.

(** With a clock that goes on, the loop is over after as many rounds as
    there are seconds to the timeout, and it gives up only at the timeout
    or after it. *)
Lemma monitor_loop_returns clock timeout drained interval ignore :
  advancing clock monitor_call ->
  1 <= interval ->
  forall fuel l (s : State W),
  (Z.to_nat (timeout - clock (world s)) < fuel)%nat ->
  exists healthy s',
    monitor_loop fuel timeout drained interval ignore l s = (Returned healthy, s')
    /\ clock (world s) <= clock (world s')
    /\ (healthy = false -> timeout <= clock (world s')).
Proof.
  intros Hclock Hinterval.
  induction fuel as [|fuel IH]; intros l s Hfuel; [lia|].
  destruct (round_shift timeout drained interval ignore l s)
    as (l1 & s_poll & Epoll & _ & R0 & _ & _ & _ & Eloop).
  rewrite Eloop, R0.
  destruct Hclock as [Hread Hstep].
  pose proof (Hstep Z time_time (world s) eq_refl) as Hafter.
  cbn [elapsed] in Hafter. rewrite Hread.
  destruct (clock (world s) <? timeout) eqn:Hnow.
  - apply Z.ltb_lt in Hnow.
    pose proof (nondecreasing_poll_pool_health clock drained ignore l
                  (conj Hread Hstep) (after_reading s)) as Hpoll.
    rewrite Epoll in Hpoll. cbn [snd after_reading world] in Hpoll.
    destruct (all_latched l1).
    + exists true, s_poll. split; [reflexivity|]. split; [lia | discriminate].
    + pose proof (Hstep unit (time_sleep interval) (world s_poll) eq_refl)
        as Hslept. cbn [elapsed] in Hslept.
      destruct (IH l1 (after_sleep interval s_poll)) as (b & s' & E & Hle & Hb).
      { cbn [after_sleep world]. lia. }
      exists b, s'. split; [exact E|].
      cbn [after_sleep world] in Hle. split; [lia | exact Hb].
  - apply Z.ltb_ge in Hnow. exists false, (after_reading s).
    split; [reflexivity|]. cbn [after_reading world]. split; [lia|].
    intros _. lia.
Qed.

(** X5. With a clock that never goes back and that sleeping moves on, and
    a poll interval of a second or more, [_monitor_pool_health] returns
    within as many polls as there are seconds to the timeout, plus one; and
    when it returns False the timeout has been reached. *)
Theorem monitor_pool_health_returns clock fuel timeout drained interval ignore
    (s : State W) :
  advancing clock monitor_call ->
  1 <= interval ->
  (Z.to_nat (timeout - clock (world s)) < fuel)%nat ->
  exists healthy s',
    _monitor_pool_health fuel timeout drained interval ignore s
    = (Returned healthy, s')
    /\ (healthy = false -> timeout <= clock (world s')).
Proof.
  intros Hclock Hinterval Hfuel.
  destruct (monitor_loop_returns clock timeout drained interval ignore Hclock
              Hinterval fuel no_latch s Hfuel) as (b & s' & E & _ & Hb).
  now exists b, s'.
Qed.

(** *** What a selection submits *)

Lemma insert_by_key_permutation key x l : insert_by_key key x l ≡ₚ x :: l.
Proof.
  induction l as [|y ys IH]; [reflexivity|].
  cbn [insert_by_key]. destruct (key_lt _ _); [|reflexivity].
  rewrite IH. apply Permutation_swap.
Qed.

Lemma sorted_permutation key l : sorted key l ≡ₚ l.
Proof.
  induction l as [|x l IH]; [reflexivity|].
  unfold sorted in *. cbn [foldr].
  rewrite insert_by_key_permutation. now rewrite IH.
Qed.

Lemma sorted_nil key l : sorted key l = [] <-> l = [].
Proof.
  split; [|now intros ->].
  intros E. pose proof (sorted_permutation key l) as Hp.
  rewrite E in Hp. now apply Permutation_nil_l in Hp.
Qed.

Lemma sorted_selected key selector nodes node :
  node ∈ sorted key (List.filter selector nodes) ->
  selector node = true /\ node ∈ nodes.
Proof.
  rewrite sorted_permutation. rewrite list_elem_of_In, List.filter_In.
  rewrite <- list_elem_of_In. tauto.
Qed.

(** Whatever the end of the loop, it has submitted the chunks of the first
    rounds, whole. *)
Lemma drain_chunks_submitted fuel worker_setup selected chunk starts :
  forall s : State W,
  exists k,
    submitted (trace (snd (drain_chunks fuel worker_setup selected chunk starts s)))
    = submitted (trace s)
      ++ concat (selection_chunks selected chunk (take k starts)).
Proof.
  induction starts as [|i rest IH]; intros s.
  - exists 0%nat. cbn [drain_chunks]. rewrite bind_call.
    cbn [mret M_ret ret snd trace].
    unfold submitted. rewrite omap_app. reflexivity.
  - cbn [drain_chunks].
    pose proof (drain_chunk_submitted fuel worker_setup selected chunk i s) as D.
    unfold mbind, M_bind, bind.
    destruct (drain_chunk fuel worker_setup selected chunk i s)
      as [[[]|e|] s1]; cbn [snd negb] in *.
    + destruct (IH s1) as (k & Ek). exists (S k).
      rewrite Ek, D. cbn [take selection_chunks map concat].
      now rewrite app_assoc.
    + exists 1%nat. rewrite call_run. cbn [mret M_ret ret snd trace].
      unfold submitted at 1. rewrite omap_app.
      cbn [omap list_omap submission]. rewrite app_nil_r.
      fold (submitted (trace s1)). rewrite D.
      cbn [take selection_chunks map concat]. now rewrite take_0, app_nil_r.
    + exists 1%nat. rewrite D.
      cbn [take selection_chunks map concat]. now rewrite take_0, app_nil_r.
    + exists 1%nat. rewrite D.
      cbn [take selection_chunks map concat]. now rewrite take_0, app_nil_r.
Qed.

(** A loop that returns True found every chunk healthy. *)
Lemma drain_chunks_true fuel worker_setup selected chunk starts :
  forall s s' : State W,
  drain_chunks fuel worker_setup selected chunk starts s = (Returned true, s') ->
  exists s1,
    chunks_healthy fuel worker_setup selected chunk starts s s1 /\
    trace s' = trace s1 ++ [Log timer_stop].
Proof.
  induction starts as [|i rest IH]; intros s s' Erun.
  - cbn [drain_chunks] in Erun. rewrite bind_call in Erun.
    injection Erun as <-. exists s. split; [constructor | reflexivity].
  - cbn [drain_chunks] in Erun.
    destruct (drain_chunk fuel worker_setup selected chunk i s)
      as [[[]|e|] s1] eqn:Echunk.
    + rewrite (bind_returned _ _ _ _ _ Echunk) in Erun. cbn [negb] in Erun.
      destruct (IH _ _ Erun) as (s2 & Hrest & Et).
      exists s2. split; [econstructor; eassumption | exact Et].
    + rewrite (bind_returned _ _ _ _ _ Echunk) in Erun. cbn [negb] in Erun.
      rewrite bind_call in Erun. discriminate.
    + unfold mbind, M_bind, bind in Erun. rewrite Echunk in Erun. discriminate.
    + unfold mbind, M_bind, bind in Erun. rewrite Echunk in Erun. discriminate.
Qed.

Lemma selection_setup_trace (s s0 : State W) nodes :
  selection_setup s = (Returned nodes, s0) ->
  nodes = fst (handle _ (get_node_metadatas AWS_RUNNING_STATES) (world s)) /\
  trace s0
  = trace s ++ [Log (get_node_metadatas AWS_RUNNING_STATES);
                Log (create_counter SFX_NODE_DRAIN_COUNT);
                Log (create_timer SFX_MIGRATION_JOB_DURATION);
                Log (create_gauge SFX_DRAINED_NODE_UPTIME);
                Log timer_start].
Proof.
  unfold selection_setup. rewrite !bind_call. intros [= <- <-].
  split; [reflexivity|]. cbn [trace]. now rewrite <- !app_assoc.
Qed.

(** The run of a selection that is not empty and whose chunk is zero. *)
Lemma drain_node_selection_raises fuel selector worker_setup (s s0 : State W)
    nodes :
  selection_setup s = (Returned nodes, s0) ->
  sorted (sort_key (precedence worker_setup)) (List.filter selector nodes) <> [] ->
  PoolPortion_of (rate worker_setup) (Z.of_nat (length nodes)) = 0 ->
  _drain_node_selection fuel selector worker_setup s = (Raised ValueError, s0).
Proof.
  intros E Hsel Hzero. unfold selection_setup in E. rewrite !bind_call in E.
  injection E as <- <-.
  unfold _drain_node_selection. rewrite bind_call. cbv zeta.
  destruct (sorted _ _) as [|x xs]; [congruence|].
  rewrite !bind_call, Hzero. reflexivity.
Qed.

Lemma drain_node_selection_empty fuel selector worker_setup (s : State W) :
  sorted (sort_key (precedence worker_setup))
    (List.filter selector
       (fst (handle _ (get_node_metadatas AWS_RUNNING_STATES) (world s)))) = [] ->
  _drain_node_selection fuel selector worker_setup s
  = (Returned true,
     mkState (snd (handle _ (get_node_metadatas AWS_RUNNING_STATES) (world s)))
             (trace s ++ [Log (get_node_metadatas AWS_RUNNING_STATES)])).
Proof.
  intros E. unfold _drain_node_selection. rewrite bind_call. cbv zeta.
  now rewrite E.
Qed.

Lemma drain_node_selection_submits_prefix fuel selector worker_setup
    (s : State W) :
  let nodes := fst (handle _ (get_node_metadatas AWS_RUNNING_STATES) (world s)) in
  let selected :=
    sorted (sort_key (precedence worker_setup)) (List.filter selector nodes) in
  exists drained,
    submitted (trace (snd (_drain_node_selection fuel selector worker_setup s)))
    = submitted (trace s) ++ drained /\
    drained `prefix_of` selected.
Proof.
  intros nodes selected.
  destruct (selection_setup_run s) as (s0 & Esetup & Hs0). fold nodes in Esetup.
  set (chunk := PoolPortion_of (rate worker_setup) (Z.of_nat (length nodes))).
  destruct (decide (selected = [])) as [Hnil|Hsel].
  { exists []. rewrite drain_node_selection_empty by exact Hnil.
    cbn [snd trace]. unfold submitted. rewrite omap_app.
    split; [reflexivity | apply prefix_nil]. }
  destruct (decide (chunk = 0)) as [Hzero|Hchunk].
  { exists []. rewrite (drain_node_selection_raises _ _ _ _ _ _ Esetup Hsel Hzero).
    cbn [snd]. rewrite Hs0, app_nil_r.
    split; [reflexivity | apply prefix_nil]. }
  rewrite (drain_node_selection_loop fuel selector worker_setup s s0 nodes
             Esetup Hsel Hchunk).
  fold selected chunk.
  destruct (drain_chunks_submitted fuel worker_setup selected chunk
              (py_range 0 (Z.of_nat (length selected)) chunk) s0) as (k & Ek).
  eexists. rewrite Ek, Hs0. split; [reflexivity|].
  destruct (Z_lt_le_dec 0 chunk) as [Hpos|Hneg].
  - exists (concat (selection_chunks selected chunk
                      (drop k (py_range 0 (Z.of_nat (length selected)) chunk)))).
    unfold selection_chunks. rewrite <- concat_app, <- map_app, take_drop.
    symmetry. now apply selection_chunks_concat.
  - rewrite py_range_step_not_positive by lia. rewrite take_nil.
    apply prefix_nil.
Qed.

(** X6. Whatever the end of [_drain_node_selection] (True, False, an
    exception, a monitor still polling), the nodes it has submitted for
    draining are a prefix of the sorted selection: each of them is a
    running node that the selector accepted, and no more nodes are
    submitted than the selection holds. *)
Theorem drain_node_selection_submits_selected_only fuel selector worker_setup
    (s : State W) :
  let nodes := fst (handle _ (get_node_metadatas AWS_RUNNING_STATES) (world s)) in
  let selected :=
    sorted (sort_key (precedence worker_setup)) (List.filter selector nodes) in
  exists drained,
    submitted (trace (snd (_drain_node_selection fuel selector worker_setup s)))
    = submitted (trace s) ++ drained /\
    drained `prefix_of` selected /\
    Forall (fun node => selector node = true /\ node ∈ nodes) drained.
Proof.
  intros nodes selected.
  destruct (drain_node_selection_submits_prefix fuel selector worker_setup s)
    as (drained & Esub & Hprefix).
  exists drained. split; [exact Esub|]. split; [exact Hprefix|].
  destruct Hprefix as [rest Hrest]. apply Forall_forall. intros node Hin.
  apply (sorted_selected (sort_key (precedence worker_setup)) selector nodes).
  unfold nodes. rewrite Hrest. apply elem_of_app. now left.
Qed.

(** X7. When [_drain_node_selection] returns True and the chunk size is not
    negative, every node of the sorted selection has been submitted for
    draining, once and in order. *)
Theorem drain_node_selection_true_is_complete fuel selector worker_setup
    (s s' : State W) :
  let nodes := fst (handle _ (get_node_metadatas AWS_RUNNING_STATES) (world s)) in
  let selected :=
    sorted (sort_key (precedence worker_setup)) (List.filter selector nodes) in
  _drain_node_selection fuel selector worker_setup s = (Returned true, s') ->
  0 <= PoolPortion_of (rate worker_setup) (Z.of_nat (length nodes)) ->
  submitted (trace s') = submitted (trace s) ++ selected.
Proof.
  intros nodes selected Erun Hchunk.
  destruct (selection_setup_run s) as (s0 & Esetup & Hs0). fold nodes in Esetup.
  set (chunk := PoolPortion_of (rate worker_setup) (Z.of_nat (length nodes))) in *.
  destruct (decide (selected = [])) as [Hnil|Hsel].
  { rewrite drain_node_selection_empty in Erun by exact Hnil.
    injection Erun as <-. cbn [trace]. rewrite Hnil.
    unfold submitted. now rewrite omap_app. }
  destruct (decide (chunk = 0)) as [Hzero|Hnonzero].
  { rewrite (drain_node_selection_raises _ _ _ _ _ _ Esetup Hsel Hzero) in Erun.
    discriminate. }
  rewrite (drain_node_selection_loop fuel selector worker_setup s s0 nodes
             Esetup Hsel Hnonzero) in Erun.
  fold selected chunk in Erun.
  destruct (drain_chunks_true _ _ _ _ _ _ _ Erun) as (s1 & Hhealthy & Et).
  destruct (chunks_healthy_run _ _ _ _ _ _ _ Hhealthy) as [_ Hsub].
  rewrite Et. unfold submitted at 1. rewrite omap_app.
  cbn [omap list_omap submission]. rewrite app_nil_r.
  fold (submitted (trace s1)). rewrite Hsub, Hs0.
  now rewrite selection_chunks_concat by lia.
Qed.

(** X8. When the selector accepts none of the running nodes,
    [_drain_node_selection] returns True after the one listing of the
    nodes: it creates no metric, starts no timer and submits nothing. *)
Theorem drain_node_selection_nothing_selected fuel selector worker_setup
    (s : State W) :
  List.filter selector
    (fst (handle _ (get_node_metadatas AWS_RUNNING_STATES) (world s))) = [] ->
  _drain_node_selection fuel selector worker_setup s
  = (Returned true,
     mkState (snd (handle _ (get_node_metadatas AWS_RUNNING_STATES) (world s)))
             (trace s ++ [Log (get_node_metadatas AWS_RUNNING_STATES)])).
Proof.
  intros Hnone. apply drain_node_selection_empty. now rewrite Hnone.
Qed.

(** X9. When [rate.of] gives 0 for a selection that is not empty,
    [_drain_node_selection] raises the ValueError of [range] after it has
    started the job timer: nothing is submitted and the timer is never
    stopped. *)
Theorem drain_node_selection_zero_chunk fuel selector worker_setup
    (s : State W) :
  let nodes := fst (handle _ (get_node_metadatas AWS_RUNNING_STATES) (world s)) in
  List.filter selector nodes <> [] ->
  PoolPortion_of (rate worker_setup) (Z.of_nat (length nodes)) = 0 ->
  let run := _drain_node_selection fuel selector worker_setup s in
  fst run = Raised ValueError /\
  trace (snd run)
  = trace s ++ [Log (get_node_metadatas AWS_RUNNING_STATES);
                Log (create_counter SFX_NODE_DRAIN_COUNT);
                Log (create_timer SFX_MIGRATION_JOB_DURATION);
                Log (create_gauge SFX_DRAINED_NODE_UPTIME);
                Log timer_start].
Proof.
  intros nodes Hsome Hzero run. subst run.
  destruct (selection_setup_run s) as (s0 & Esetup & _). fold nodes in Esetup.
  destruct (selection_setup_trace _ _ _ Esetup) as [_ Et0].
  rewrite (drain_node_selection_raises _ _ _ _ _ _ Esetup); [| |exact Hzero].
  - split; [reflexivity | exact Et0].
  - now rewrite sorted_nil.
Qed.

(** X10. When [rate.of] gives a negative number for a selection that is
    not empty, the loop of [_drain_node_selection] has no round: the
    function starts and stops the job timer and returns True although no
    node was submitted. *)
Theorem drain_node_selection_negative_chunk fuel selector worker_setup
    (s : State W) :
  let nodes := fst (handle _ (get_node_metadatas AWS_RUNNING_STATES) (world s)) in
  List.filter selector nodes <> [] ->
  PoolPortion_of (rate worker_setup) (Z.of_nat (length nodes)) < 0 ->
  let run := _drain_node_selection fuel selector worker_setup s in
  fst run = Returned true /\
  trace (snd run)
  = trace s ++ [Log (get_node_metadatas AWS_RUNNING_STATES);
                Log (create_counter SFX_NODE_DRAIN_COUNT);
                Log (create_timer SFX_MIGRATION_JOB_DURATION);
                Log (create_gauge SFX_DRAINED_NODE_UPTIME);
                Log timer_start;
                Log timer_stop].
Proof.
  intros nodes Hsome Hneg run. subst run.
  destruct (selection_setup_run s) as (s0 & Esetup & _). fold nodes in Esetup.
  destruct (selection_setup_trace _ _ _ Esetup) as [_ Et0].
  rewrite (drain_node_selection_loop fuel selector worker_setup s s0 nodes Esetup);
    [| now rewrite sorted_nil | lia].
  rewrite py_range_step_not_positive by lia.
  cbn [drain_chunks]. rewrite bind_call. cbn [mret M_ret ret fst snd trace].
  split; [reflexivity|]. rewrite Et0. now rewrite <- app_assoc.
Qed.

(** X11. When the monitor finds the pool healthy after every chunk,
    [_drain_node_selection] returns True, its last call is the stop of the
    job timer, and it has submitted the whole sorted selection, in order. *)
Theorem drain_node_selection_completes fuel selector worker_setup
    (s s0 s1 : State W) nodes :
  selection_setup s = (Returned nodes, s0) ->
  let selected :=
    sorted (sort_key (precedence worker_setup)) (List.filter selector nodes) in
  let chunk := PoolPortion_of (rate worker_setup) (Z.of_nat (length nodes)) in
  selected <> [] -> 0 < chunk ->
  chunks_healthy fuel worker_setup selected chunk
    (py_range 0 (Z.of_nat (length selected)) chunk) s0 s1 ->
  _drain_node_selection fuel selector worker_setup s
  = (Returned true,
     mkState (snd (handle unit timer_stop (world s1)))
             (trace s1 ++ [Log timer_stop])) /\
  submitted (trace s1) = submitted (trace s) ++ selected.
Proof.
  intros Esetup selected chunk Hsel Hpos Hhealthy.
  rewrite (drain_node_selection_loop fuel selector worker_setup s s0 nodes
             Esetup Hsel ltac:(lia)).
  fold selected chunk.
  destruct (chunks_healthy_run _ _ _ _ _ _ _ Hhealthy) as [Hrun Hsub].
  specialize (Hrun []). rewrite app_nil_r in Hrun. rewrite Hrun.
  cbn [drain_chunks]. rewrite bind_call. split; [reflexivity|].
  rewrite Hsub. rewrite selection_chunks_concat by assumption.
  destruct (selection_setup_run s) as (s0' & E' & Hs0).
  rewrite Esetup in E'. injection E' as _ <-. now rewrite Hs0.
Qed.

(** *** The calls of a selection *)

Lemma monitor_call_selection_call e :
  monitor_call e = true -> selection_call e = true.
Proof. destruct e as [A c]. destruct c; cbn; congruence. Qed.

Lemma emits_submit_chunk selection_chunk :
  emits selection_call (submit_chunk selection_chunk).
Proof.
  induction selection_chunk as [|node rest IH]; [apply (emits_ret _ tt)|].
  cbn [submit_chunk].
  repeat (apply emits_bind; [now apply emits_call | intros _]).
  exact IH.
Qed.

Lemma emits_drain_chunk fuel worker_setup selected chunk i :
  emits selection_call (drain_chunk fuel worker_setup selected chunk i).
Proof.
  unfold drain_chunk.
  apply emits_bind; [now apply emits_call | intros start_time]. cbv zeta.
  apply emits_bind; [apply emits_submit_chunk | intros _].
  apply emits_bind; [now apply emits_call | intros _].
  eapply emits_weaken; [apply monitor_call_selection_call|].
  apply monitor_call_emitted.
Qed.

Lemma emits_drain_chunks fuel worker_setup selected chunk starts :
  emits selection_call (drain_chunks fuel worker_setup selected chunk starts).
Proof.
  induction starts as [|i rest IH]; cbn [drain_chunks].
  - apply emits_bind; [now apply emits_call | intros _; apply emits_ret].
  - apply emits_bind; [apply emits_drain_chunk | intros healthy].
    destruct healthy; cbn [negb]; [exact IH|].
    apply emits_bind; [now apply emits_call | intros _; apply emits_ret].
Qed.

Lemma emits_drain_node_selection fuel selector worker_setup :
  emits selection_call (_drain_node_selection fuel selector worker_setup).
Proof.
  unfold _drain_node_selection.
  apply emits_bind; [now apply emits_call | intros nodes]. cbv zeta.
  destruct (sorted _ _) as [|x xs]; [apply emits_ret|].
  repeat (apply emits_bind; [now apply emits_call | intros _]).
  destruct (_ =? 0); [apply emits_raise | apply emits_drain_chunks].
Qed.

(** *** The chunks of a selection *)

Lemma submit_chunk_calls selection_chunk (s : State W) :
  exists s',
    submit_chunk selection_chunk s = (Returned tt, s') /\
    trace s' = trace s ++ submission_calls selection_chunk.
Proof.
  revert s. induction selection_chunk as [|node rest IH]; intros s.
  - exists s. split; [reflexivity|]. cbn. now rewrite app_nil_r.
  - cbn [submit_chunk]. rewrite !bind_call.
    match goal with |- context [submit_chunk rest ?s1] =>
      destruct (IH s1) as (s' & E & Et) end.
    exists s'. split; [exact E|]. rewrite Et. cbn [trace].
    unfold submission_calls. cbn [flat_map]. now rewrite <- !app_assoc.
Qed.

(** The calls of one round of the outer loop: the reading of the clock,
    the submission of the nodes of the slice, the wait, then the monitor. *)
Lemma drain_chunk_calls fuel worker_setup selected chunk i (s : State W) :
  exists monitor_calls,
    trace (snd (drain_chunk fuel worker_setup selected chunk i s))
    = trace s ++ Log time_time
        :: submission_calls (slice selected i (i + chunk))
        ++ Log (time_sleep (bootstrap_wait worker_setup)) :: monitor_calls.
Proof.
  unfold drain_chunk. rewrite bind_call. cbv zeta.
  set (s1 := mkState _ _).
  destruct (submit_chunk_calls (slice selected i (i + chunk)) s1)
    as (s2 & E & Et).
  rewrite (bind_returned _ _ _ _ _ E). rewrite bind_call.
  set (s3 := mkState _ _).
  match goal with |- context [_monitor_pool_health ?f ?t ?d ?h ?g s3] =>
    destruct (monitor_call_emitted f t d h g s3) as (calls & Ecalls & _) end.
  exists calls. rewrite Ecalls. subst s3. cbn [trace]. rewrite Et.
  subst s1. cbn [trace]. rewrite <- !app_assoc. reflexivity.
Qed.

(** The loop adds to the trace of its first round. *)
Lemma drain_chunks_after_first fuel worker_setup selected chunk i rest
    (s : State W) :
  exists more,
    trace (snd (drain_chunks fuel worker_setup selected chunk (i :: rest) s))
    = trace (snd (drain_chunk fuel worker_setup selected chunk i s)) ++ more.
Proof.
  cbn [drain_chunks]. unfold mbind, M_bind, bind.
  destruct (drain_chunk fuel worker_setup selected chunk i s)
    as [[healthy|e|] s1]; cbn [snd];
    [|exists []; now rewrite app_nil_r ..].
  destruct healthy; cbn [negb].
  - destruct (emits_drain_chunks fuel worker_setup selected chunk rest s1)
      as (more & Et & _).
    now exists more.
  - exists [Log timer_stop]. reflexivity.
Qed.

(** C6. The chunk size of [_drain_node_selection] is [rate.of] of the
    number of all running nodes that [get_node_metadatas] answered, not of
    the filtered selection. The chunks of that size cut the sorted
    selection: chunk [k] is what is left of the selection after [k] times
    that number of nodes, up to that number; every chunk has that size
    except the last one, which is not empty and not larger; together they
    are the selection. And these are the chunks that the run submits:
    after [k] rounds that found the pool healthy, the run goes on with one
    reading of the clock, the submission of the nodes of chunk [k], no
    more and no less, and the wait before the health check. *)
Theorem drain_node_selection_chunk_size fuel selector worker_setup
    (s s0 : State W) nodes :
  selection_setup s = (Returned nodes, s0) ->
  let selected :=
    sorted (sort_key (precedence worker_setup)) (List.filter selector nodes) in
  let chunk := PoolPortion_of (rate worker_setup) (Z.of_nat (length nodes)) in
  let starts := py_range 0 (Z.of_nat (length selected)) chunk in
  let chunks := selection_chunks selected chunk starts in
  (forall k c, chunks !! k = Some c ->
     c = take (Z.to_nat chunk) (drop (k * Z.to_nat chunk) selected) /\
     (0 < length c)%nat /\ Z.of_nat (length c) <= chunk /\
     ((S k < length chunks)%nat -> Z.of_nat (length c) = chunk)) /\
  (0 < chunk -> concat chunks = selected) /\
  (forall k c s1, chunks !! k = Some c ->
     chunks_healthy fuel worker_setup selected chunk (take k starts) s0 s1 ->
     exists after,
       trace (snd (_drain_node_selection fuel selector worker_setup s))
       = trace s1 ++ Log time_time
           :: submission_calls c
           ++ Log (time_sleep (bootstrap_wait worker_setup)) :: after).
Proof.
  intros Esetup selected chunk starts chunks. split; [|split].
  - intros k c Hk. split; [|now apply (selection_chunks_sizes selected chunk k c)].
    destruct (Z_lt_le_dec 0 chunk) as [Hpos|Hneg].
    + unfold chunks, starts in Hk.
      rewrite selection_chunks_positive in Hk by assumption.
      rewrite list_lookup_fmap in Hk.
      destruct (seq 0 _ !! k) as [j|] eqn:Ej; [|discriminate].
      apply lookup_seq in Ej as [-> _]. cbn [plus] in Hk.
      now injection Hk as <-.
    + unfold chunks, starts in Hk.
      rewrite py_range_step_not_positive in Hk by lia. discriminate.
  - apply selection_chunks_concat.
  - intros k c s1 Hk Hdone.
    unfold chunks, selection_chunks in Hk. rewrite list_lookup_fmap in Hk.
    destruct (starts !! k) as [i|] eqn:Ei; [|discriminate].
    injection Hk as <-.
    pose proof (take_drop_middle starts k i Ei) as Hsplit.
    assert (Hchunk : chunk <> 0).
    { intros E0. unfold starts in Ei. rewrite E0 in Ei.
      unfold py_range in Ei. cbn in Ei. discriminate. }
    assert (Hsel : selected <> []).
    { intros E0. unfold starts in Ei. rewrite E0 in Ei. cbn [length] in Ei.
      destruct (Z_lt_le_dec 0 chunk) as [Hpos|Hneg].
      - rewrite py_range_step_positive in Ei by assumption.
        rewrite Z.div_small in Ei by lia. discriminate.
      - rewrite py_range_step_not_positive in Ei by lia. discriminate. }
    rewrite (drain_node_selection_loop fuel selector worker_setup s s0 nodes
               Esetup Hsel Hchunk).
    fold selected chunk starts. rewrite <- Hsplit.
    destruct (chunks_healthy_run _ _ _ _ _ _ _ Hdone) as [Hrun _].
    rewrite Hrun.
    destruct (drain_chunks_after_first fuel worker_setup selected chunk i
                (drop (S k) starts) s1) as (more & Emore).
    destruct (drain_chunk_calls fuel worker_setup selected chunk i s1)
      as (monitor_calls & Eround).
    exists (monitor_calls ++ more). rewrite Emore, Eround.
    rewrite <- !app_assoc. cbn [app]. rewrite <- !app_assoc. reflexivity.
Qed.

(** X12. [_drain_node_selection] keeps to the pool and to the metrics:
    every call it makes is the listing of the nodes, a submission, a metric
    or a call of the monitor; it never touches the pool lock, the
    autoscaler toggle or the target capacity. *)
Theorem drain_node_selection_keeps_to_the_pool fuel selector worker_setup
    (s : State W) :
  exists calls,
    trace (snd (_drain_node_selection fuel selector worker_setup s))
    = trace s ++ calls /\
    forallb selection_call calls = true /\
    forallb (fun e => negb (lock_call e) && negb (capacity_change e)) calls
    = true.
Proof.
  destruct (emits_drain_node_selection fuel selector worker_setup s)
    as (calls & Et & Hcalls).
  exists calls. split; [exact Et|]. split; [exact Hcalls|].
  rewrite forallb_forall in Hcalls |- *. intros e He.
  specialize (Hcalls e He). destruct e as [A c]. now destruct c.
Qed.

(** *** The event worker *)

Lemma release_lock_run (s : State W) :
  release_lock s
  = (if fst (handle bool lock_release (world s))
     then Returned tt else Raised ValueError,
     mkState (snd (handle bool lock_release (world s)))
             (trace s ++ [Log lock_release])).
Proof.
  unfold release_lock. rewrite bind_call.
  now destruct (fst (handle bool lock_release (world s))).
Qed.

Lemma event_migration_cleanup_run migration_event worker_setup (s : State W) :
  exists out s',
    event_migration_cleanup migration_event worker_setup s = (out, s') /\
    (fst (handle bool lock_release (world s)) = true ->
     (exists u, out = Returned u) /\
     trace s'
     = trace s ++ Log lock_release
         :: (if disable_autoscaling_flag worker_setup
             then [Log (enable_autoscaling (cluster migration_event)
                          (pool migration_event) SUPPORTED_POOL_SCHEDULER)]
             else [])) /\
    (fst (handle bool lock_release (world s)) = false ->
     out = Raised ValueError /\ trace s' = trace s ++ [Log lock_release]).
Proof.
  unfold event_migration_cleanup, mbind, M_bind, bind.
  rewrite release_lock_run.
  destruct (fst (handle bool lock_release (world s))).
  - unfold when. destruct (disable_autoscaling_flag worker_setup).
    + rewrite call_run. eexists _, _. split; [reflexivity|].
      split; [|discriminate]. intros _. split; [now eexists|].
      cbn [trace]. now rewrite <- app_assoc.
    + eexists _, _. split; [reflexivity|].
      split; [|discriminate]. intros _. split; [now eexists | reflexivity].
  - eexists _, _. split; [reflexivity|].
    split; [discriminate|]. intros _. split; reflexivity.
Qed.

(** X13. The [finally] block of the event worker, for a [try] block that
    returned or raised. The pool lock is released whether it was acquired
    or not. When the lock is found locked, the run ends as the [try] block
    did, and its last calls are the release and, when [disable_autoscaling]
    is configured, the call that enables autoscaling again. When the lock
    is not locked, the release raises ValueError: that exception replaces
    the outcome of the [try] block, and autoscaling is not enabled again. *)
Theorem event_worker_finally_block fuel migration_event worker_setup
    (s : State W) :
  let s1 :=
    snd ((call (PoolManager_init (cluster migration_event)
                  (pool migration_event) SUPPORTED_POOL_SCHEDULER false) ;;
          call (set_label_selectors (label_selectors migration_event) true) ;;
          call (reload_state (negb (ignore_pod_health worker_setup)))) s) in
  let body := event_migration_body fuel migration_event worker_setup s1 in
  let locked := fst (handle bool lock_release (world (snd body))) in
  let run := event_migration_worker fuel migration_event worker_setup s in
  fst body <> OutOfFuel ->
  (locked = true ->
   fst run = fst body /\
   trace (snd run)
   = trace (snd body) ++ Log lock_release
       :: (if disable_autoscaling_flag worker_setup
           then [Log (enable_autoscaling (cluster migration_event)
                        (pool migration_event) SUPPORTED_POOL_SCHEDULER)]
           else [])) /\
  (locked = false ->
   fst run = Raised ValueError /\
   trace (snd run) = trace (snd body) ++ [Log lock_release]).
Proof.
  cbv zeta. unfold event_migration_worker. rewrite !bind_call.
  rewrite !call_run. cbn [snd world trace].
  set (s1 := mkState _ _). unfold try_finally.
  destruct (event_migration_body fuel migration_event worker_setup s1)
    as [[u|e|] s2]; cbn [fst snd]; intros Hends.
  - destruct (event_migration_cleanup_run migration_event worker_setup s2)
      as (out & s3 & -> & Hlocked & Hfree).
    split; intros E.
    + destruct (Hlocked E) as [[u' ->] Et]. destruct u, u'.
      split; [reflexivity | exact Et].
    + destruct (Hfree E) as [-> Et]. split; [reflexivity | exact Et].
  - destruct (event_migration_cleanup_run migration_event worker_setup s2)
      as (out & s3 & -> & Hlocked & Hfree).
    split; intros E.
    + destruct (Hlocked E) as [[u' ->] Et]. split; [reflexivity | exact Et].
    + destruct (Hfree E) as [-> Et]. split; [reflexivity | exact Et].
  - congruence.
Qed.

Lemma mean_nil : mean [] = None.
Proof. reflexivity. Qed.

Lemma bind_assoc {A B C} (m : M W A) (f : A -> M W B) (g : B -> M W C) s :
  (y ← (x ← m; f x); g y) s = (x ← m; y ← f x; g y) s.
Proof.
  unfold mbind, M_bind, bind. now destruct (m s) as [[a|e|] s'].
Qed.

Lemma bind_ret {A B} (a : A) (k : A -> M W B) s : (x ← ret a; k x) s = k a s.
Proof. reflexivity. Qed.

Lemma bind_raise {A B} e (k : A -> M W B) s :
  (x ← raise e; k x) s = (Raised e, s).
Proof. reflexivity. Qed.

Ltac run_calls :=
  repeat (rewrite bind_assoc || rewrite bind_call || rewrite bind_ret
          || rewrite bind_raise).

(** X14. With pre-scaling configured, no running node in the pool and a
    pool lock that is locked when it is released, the event worker raises
    the StatisticsError of [mean]: the target capacity is not modified,
    nothing is submitted for draining, and the [finally] block still
    runs. *)
Theorem event_worker_prescaling_on_empty_pool fuel migration_event worker_setup
    portion (s : State W) :
  prescaling worker_setup = Some portion ->
  (forall w, fst (handle _ (get_node_metadatas AWS_RUNNING_STATES) w) = []) ->
  (forall w, fst (handle bool lock_release w) = true) ->
  let run := event_migration_worker fuel migration_event worker_setup s in
  fst run = Raised StatisticsError /\
  exists calls,
    trace (snd run) = trace s ++ calls /\
    forallb (fun e => negb (capacity_change e)) calls = true /\
    submitted calls = [] /\
    last calls
    = Some (if disable_autoscaling_flag worker_setup
            then Log (enable_autoscaling (cluster migration_event)
                        (pool migration_event) SUPPORTED_POOL_SCHEDULER)
            else Log lock_release).
Proof.
  intros Hprescaling Hempty Hlocked. cbv zeta.
  unfold event_migration_worker. rewrite !bind_call.
  unfold try_finally, event_migration_body. rewrite bind_call.
  rewrite Hprescaling.
  unfold when, event_migration_cleanup, apply_prescaling, release_lock.
  destruct (disable_autoscaling_flag worker_setup).
  - run_calls. rewrite Hempty. cbn [map]. rewrite mean_nil. run_calls.
    rewrite Hlocked. unfold mret, M_ret. run_calls.
    cbn [when]. rewrite call_run. cbn [fst snd trace]. split; [reflexivity|].
    eexists. rewrite <- !app_assoc. split; [reflexivity|].
    cbn. repeat split.
  - run_calls. rewrite Hempty. cbn [map]. rewrite mean_nil. run_calls.
    rewrite Hlocked. unfold mret, M_ret. run_calls.
    cbn [when ret fst snd trace]. split; [reflexivity|].
    eexists. rewrite <- !app_assoc. split; [reflexivity|].
    cbn. repeat split.
Qed.

Lemma submitted_snoc {A} (c : Call A) t :
  submission (Log c) = None -> submitted (t ++ [Log c]) = submitted t.
Proof.
  intros Hc. unfold submitted. rewrite omap_app. cbn [omap list_omap].
  rewrite Hc. apply app_nil_r.
Qed.

Lemma poll_pool_health_without_capacity drained ignore l (s s' : State W) l' :
  (forall w, fst (handle bool is_capacity_satisfied w) = false) ->
  poll_pool_health drained ignore l s = (Returned l', s') ->
  capacity_satisfied l = false -> capacity_satisfied l' = false.
Proof.
  intros Hnever. unfold poll_pool_health. rewrite bind_call.
  set (s1 := mkState _ _).
  destruct l as [d c p]; cbn [draining_happened capacity_satisfied pods_healthy].
  intros Erun ->.
  assert (Hd : exists d' s2,
    (if d then mret true
     else still ← any_agent_unchanged drained; mret (negb still)) s1
    = (Returned d', s2)).
  { destruct d; [now exists true, s1 |].
    destruct (any_agent_unchanged_returns drained s1) as (b & s2 & E).
    exists (negb b), s2. now rewrite (bind_returned _ _ _ _ _ E). }
  destruct Hd as (d' & s2 & Ed).
  rewrite (bind_returned _ _ _ _ _ Ed) in Erun.
  assert (Hc' : exists s3,
    (if d' then call is_capacity_satisfied else mret false) s2
    = (Returned false, s3)).
  { destruct d'; [|now exists s2]. rewrite call_run, Hnever. now eexists. }
  destruct Hc' as (s3 & Ec).
  rewrite (bind_returned _ _ _ _ _ Ec) in Erun.
  assert (Hp' : exists p' s4,
    (if p then mret true
     else if d'
          then (if ignore then mret true
                else call has_enough_capacity_for_pods)
          else mret false) s3
    = (Returned p', s4)).
  { destruct p; [now exists true, s3 |].
    destruct d', ignore; now eexists _, _. }
  destruct Hp' as (p' & s4 & Ep).
  rewrite (bind_returned _ _ _ _ _ Ep) in Erun.
  now injection Erun as <- _.
Qed.

Lemma monitor_loop_without_capacity fuel timeout drained interval ignore :
  (forall w, fst (handle bool is_capacity_satisfied w) = false) ->
  forall l (s : State W),
  capacity_satisfied l = false ->
  fst (monitor_loop fuel timeout drained interval ignore l s) <> Returned true.
Proof.
  intros Hnever. induction fuel as [|fuel IH]; intros l s Hl; [discriminate|].
  destruct (round_shift timeout drained interval ignore l s)
    as (l1 & s_poll & Epoll & _ & _ & _ & _ & _ & Eloop).
  rewrite Eloop.
  pose proof (poll_pool_health_without_capacity _ _ _ _ _ _ Hnever Epoll Hl)
    as Hl1.
  destruct (_ <? timeout); [|discriminate].
  unfold all_latched. rewrite Hl1, andb_false_r. cbn [andb]. now apply IH.
Qed.

(** The first health check of the event worker on a pool that never has
    its capacity: it ends with False, and it submits nothing. *)
Lemma initial_monitor_gives_up clock fuel interval {B} (K : bool -> M W B)
    (s : State W) :
  advancing clock monitor_call ->
  (forall w, fst (handle bool is_capacity_satisfied w) = false) ->
  1 <= interval ->
  (Z.to_nat INITIAL_POOL_HEALTH_TIMEOUT_SECONDS < fuel)%nat ->
  exists s',
    (now ← call time_time;
     healthy ← _monitor_pool_health fuel
                 (now + INITIAL_POOL_HEALTH_TIMEOUT_SECONDS) [] interval true;
     K healthy) s = K false s' /\
    submitted (trace s') = submitted (trace s).
Proof.
  intros Hclock Hnever Hinterval Hfuel. rewrite bind_call.
  set (now := fst (handle Z time_time (world s))).
  set (s1 := mkState _ _).
  assert (Hfuel1 :
    (Z.to_nat (now + INITIAL_POOL_HEALTH_TIMEOUT_SECONDS - clock (world s1))
     < fuel)%nat).
  { destruct Hclock as [Hread Hstep].
    pose proof (Hstep Z time_time (world s) eq_refl) as Hafter.
    cbn [elapsed] in Hafter. subst now s1. cbn [world]. rewrite Hread. lia. }
  destruct (monitor_loop_returns clock
              (now + INITIAL_POOL_HEALTH_TIMEOUT_SECONDS) [] interval true
              Hclock Hinterval fuel no_latch s1 Hfuel1)
    as (healthy & s' & E & _ & _).
  pose proof (monitor_loop_without_capacity fuel
                (now + INITIAL_POOL_HEALTH_TIMEOUT_SECONDS) [] interval true
                Hnever no_latch s1 eq_refl) as Hnot.
  rewrite E in Hnot. cbn [fst] in Hnot.
  destruct healthy; [congruence|].
  exists s'. unfold _monitor_pool_health.
  rewrite (bind_returned _ _ _ _ _ E). split; [reflexivity|].
  pose proof (silent_monitor_loop fuel
                (now + INITIAL_POOL_HEALTH_TIMEOUT_SECONDS) [] interval true
                no_latch s1) as Hsilent.
  rewrite E in Hsilent. cbn [snd] in Hsilent. rewrite Hsilent.
  subst s1. cbn [trace]. now apply submitted_snoc.
Qed.

(** X15. On a pool whose capacity is never satisfied, under a clock that
    goes on and with a pool lock that is locked when it is released, the
    event worker without pre-scaling gives up after the initial health
    check: it raises NodeMigrationError for a pool that is not healthy and
    has submitted no node for draining. *)
Theorem event_worker_gives_up_on_unhealthy_pool clock fuel migration_event
    worker_setup (s : State W) :
  advancing clock monitor_call ->
  (forall w, fst (handle bool is_capacity_satisfied w) = false) ->
  (forall w, fst (handle bool lock_release w) = true) ->
  prescaling worker_setup = None ->
  1 <= health_check_interval worker_setup ->
  (Z.to_nat INITIAL_POOL_HEALTH_TIMEOUT_SECONDS < fuel)%nat ->
  let run := event_migration_worker fuel migration_event worker_setup s in
  fst run = Raised (NodeMigrationError PoolNotHealthy) /\
  submitted (trace (snd run)) = submitted (trace s).
Proof.
  intros Hclock Hnever Hlocked Hprescaling Hinterval Hfuel. cbv zeta.
  unfold event_migration_worker. rewrite !bind_call.
  set (s1 := mkState _ _).
  assert (Hs1 : submitted (trace s1) = submitted (trace s)).
  { subst s1. cbn [trace]. now rewrite !submitted_snoc. }
  assert (Hbody : exists s2,
    event_migration_body fuel migration_event worker_setup s1
    = (Raised (NodeMigrationError PoolNotHealthy), s2) /\
    submitted (trace s2) = submitted (trace s1)).
  { unfold event_migration_body. rewrite bind_call.
    set (s2 := mkState _ _).
    assert (Hwhen : exists u s3,
      when (disable_autoscaling_flag worker_setup)
        (now ← call time_time;
         call (disable_autoscaling (cluster migration_event)
                 (pool migration_event) SUPPORTED_POOL_SCHEDULER
                 (now + expected_duration worker_setup))) s2
      = (Returned u, s3) /\
      submitted (trace s3) = submitted (trace s1)).
    { unfold when. destruct (disable_autoscaling_flag worker_setup).
      - rewrite bind_call, call_run. eexists _, _. split; [reflexivity|].
        subst s2. cbn [trace]. now rewrite !submitted_snoc.
      - exists tt, s2. split; [reflexivity|].
        subst s2. cbn [trace]. now rewrite submitted_snoc. }
    destruct Hwhen as (u & s3 & Ewhen & Hs3).
    rewrite (bind_returned _ _ _ _ _ Ewhen). rewrite Hprescaling, bind_ret.
    destruct (initial_monitor_gives_up clock fuel
                (health_check_interval worker_setup)
                (fun healthy : bool =>
                   if negb healthy
                   then raise (NodeMigrationError PoolNotHealthy)
                   else
                     migrated ← limit_function_runtime
                       (_drain_node_selection fuel
                          (fun node : ClusterNodeMetadata =>
                             negb (String.eqb (agent_id (agent node)) "")
                             && negb (matches (condition migration_event) node))
                          worker_setup)
                       (expected_duration worker_setup);
                     if negb migrated
                     then raise (NodeMigrationError FailedMigratingNodes)
                     else mret tt)
                s3 Hclock Hnever Hinterval Hfuel) as (s4 & E & Hs4).
    exists s4. rewrite E. split; [reflexivity | congruence]. }
  destruct Hbody as (s2 & Ebody & Hs2).
  unfold try_finally. rewrite Ebody.
  destruct (event_migration_cleanup_run migration_event worker_setup s2)
    as (out & s3 & -> & Hdone & _).
  destruct (Hdone (Hlocked _)) as [[u ->] Et].
  cbn [fst snd]. split; [reflexivity|].
  rewrite Et. rewrite <- Hs1, <- Hs2.
  destruct (disable_autoscaling_flag worker_setup).
  - change (trace s2 ++ [Log lock_release;
              Log (enable_autoscaling (cluster migration_event)
                     (pool migration_event) SUPPORTED_POOL_SCHEDULER)])
      with (trace s2 ++ [Log lock_release]
            ++ [Log (enable_autoscaling (cluster migration_event)
                       (pool migration_event) SUPPORTED_POOL_SCHEDULER)]).
    rewrite app_assoc. now rewrite !submitted_snoc.
  - now rewrite submitted_snoc.
Qed.

(** *** The uptime worker and the pool lock *)

Lemma held_app t1 t2 : held (t1 ++ t2) = held t1 + held t2.
Proof.
  induction t1 as [|[A c] t1 IH]; [reflexivity|].
  cbn [app held]. rewrite IH. lia.
Qed.

Lemma held_selection_calls calls :
  forallb selection_call calls = true -> held calls = 0.
Proof.
  induction calls as [|[A c] calls IH]; [reflexivity|].
  cbn [forallb held]. intros [Hc Hrest]%andb_prop.
  rewrite (IH Hrest). now destruct c.
Qed.

Lemma bind_raised {A B} (m : M W A) (k : A -> M W B) s e s' :
  m s = (Raised e, s') -> (x ← m; k x) s = (Raised e, s').
Proof. intros E. unfold mbind, M_bind, bind. now rewrite E. Qed.

Lemma bind_out_of_fuel {A B} (m : M W A) (k : A -> M W B) s s' :
  m s = (OutOfFuel, s') -> (x ← m; k x) s = (OutOfFuel, s').
Proof. intros E. unfold mbind, M_bind, bind. now rewrite E. Qed.

(** The selection under [with pool_lock], after the acquisition. *)
Lemma locked_selection_run fuel node_selector worker_setup (s : State W) :
  exists calls out s',
    try_finally
      (_drain_node_selection fuel node_selector worker_setup ;; mret tt)
      release_lock s = (out, s') /\
    trace s' = trace s ++ calls /\
    (out <> OutOfFuel /\ held calls = -1 \/ out = OutOfFuel /\ held calls = 0).
Proof.
  destruct (emits_drain_node_selection fuel node_selector worker_setup s)
    as (drain_calls & Et & Hdrain).
  apply held_selection_calls in Hdrain.
  unfold try_finally, mbind, M_bind, bind.
  destruct (_drain_node_selection fuel node_selector worker_setup s)
    as [[b|e|] s1]; cbn [snd] in Et; cbn [mret M_ret ret].
  - rewrite release_lock_run.
    exists (drain_calls ++ [Log lock_release]).
    destruct (fst (handle bool lock_release (world s1)));
      eexists _, _; (split; [reflexivity|]); cbn [trace];
      rewrite Et, <- app_assoc; (split; [reflexivity|]);
      left; (split; [discriminate|]); rewrite held_app, Hdrain; reflexivity.
  - rewrite release_lock_run.
    exists (drain_calls ++ [Log lock_release]).
    destruct (fst (handle bool lock_release (world s1)));
      eexists _, _; (split; [reflexivity|]); cbn [trace];
      rewrite Et, <- app_assoc; (split; [reflexivity|]);
      left; (split; [discriminate|]); rewrite held_app, Hdrain; reflexivity.
  - exists drain_calls, OutOfFuel, s1. split; [reflexivity|].
    split; [exact Et|]. now right.
Qed.

Lemma uptime_loop_lock rounds fuel node_selector worker_setup :
  forall s : State W,
  exists calls,
    trace (snd (uptime_loop rounds fuel node_selector worker_setup s))
    = trace s ++ calls /\
    (held calls = 0 \/
     held calls = 1 /\
     fst (uptime_loop rounds fuel node_selector worker_setup s) = OutOfFuel).
Proof.
  induction rounds as [|rounds IH]; intros s.
  { exists []. rewrite app_nil_r. split; [reflexivity | now left]. }
  remember (uptime_loop (S rounds) fuel node_selector worker_setup s) as run
    eqn:Erun.
  cbn [uptime_loop] in Erun. rewrite bind_call in Erun.
  set (s1 := mkState _ _) in Erun.
  assert (Hrest : forall s3 : State W, exists more,
    trace (snd ((call (time_sleep UPTIME_CHECK_INTERVAL_SECONDS) ;;
                 call (reload_state (negb (ignore_pod_health worker_setup))) ;;
                 uptime_loop rounds fuel node_selector worker_setup) s3))
    = trace s3 ++ more /\
    (held more = 0 \/
     held more = 1 /\
     fst ((call (time_sleep UPTIME_CHECK_INTERVAL_SECONDS) ;;
           call (reload_state (negb (ignore_pod_health worker_setup))) ;;
           uptime_loop rounds fuel node_selector worker_setup) s3) = OutOfFuel)).
  { intros s3. rewrite !bind_call.
    match goal with |- context [uptime_loop rounds _ _ _ ?s5] =>
      destruct (IH s5) as (more & Et' & Hmore) end.
    exists ([Log (time_sleep UPTIME_CHECK_INTERVAL_SECONDS);
             Log (reload_state (negb (ignore_pod_health worker_setup)))] ++ more).
    split; [rewrite Et'; cbn [trace]; now rewrite <- !app_assoc|].
    rewrite held_app. cbn [held].
    destruct Hmore as [->|[-> Hout]]; [now left | right; split; [lia | exact Hout]]. }
  destruct (fst (handle bool is_capacity_satisfied (world s))); unfold when in Erun.
  - rewrite bind_assoc, bind_call in Erun.
    set (s2 := mkState _ _) in Erun.
    destruct (locked_selection_run fuel node_selector worker_setup s2)
      as (calls & out & s3 & E & Et & Hheld).
    destruct out as [u|e|].
    + rewrite (bind_returned _ _ _ _ _ E) in Erun.
      destruct (Hrest s3) as (more & Et' & Hmore). rewrite <- Erun in Et', Hmore.
      destruct Hheld as [[_ Hcalls]|[Hout _]]; [|discriminate].
      exists ([Log is_capacity_satisfied; Log (lock_acquire None)] ++ calls ++ more).
      split.
      * rewrite Et', Et. subst s2 s1. cbn [trace]. now rewrite <- !app_assoc.
      * rewrite !held_app, Hcalls. cbn [held].
        destruct Hmore as [->|[-> Hout]]; [left; lia | right; split; [lia | exact Hout]].
    + rewrite (bind_raised _ _ _ _ _ E) in Erun. subst run. cbn [fst snd].
      destruct Hheld as [[_ Hcalls]|[Hout _]]; [|discriminate].
      exists ([Log is_capacity_satisfied; Log (lock_acquire None)] ++ calls).
      split.
      * rewrite Et. subst s2 s1. cbn [trace]. now rewrite <- !app_assoc.
      * left. rewrite !held_app, Hcalls. reflexivity.
    + rewrite (bind_out_of_fuel _ _ _ _ E) in Erun. subst run. cbn [fst snd].
      destruct Hheld as [[Hout _]|[_ Hcalls]]; [congruence|].
      exists ([Log is_capacity_satisfied; Log (lock_acquire None)] ++ calls).
      split.
      * rewrite Et. subst s2 s1. cbn [trace]. now rewrite <- !app_assoc.
      * right. rewrite !held_app, Hcalls. split; reflexivity.
  - rewrite bind_ret in Erun.
    destruct (Hrest s1) as (more & Et' & Hmore). rewrite <- Erun in Et', Hmore.
    exists ([Log is_capacity_satisfied] ++ more).
    split; [rewrite Et'; subst s1; cbn [trace]; now rewrite <- !app_assoc|].
    rewrite held_app. cbn [held].
    destruct Hmore as [->|[-> Hout]]; [left; lia | right; split; [lia | exact Hout]].
Qed.

(** X16. The uptime worker keeps the pool lock balanced: along its run it
    has released the lock as often as it acquired it, except when the run
    is cut in the middle of a selection, where it holds the lock once. In
    particular the lock is released when [_drain_node_selection] raises. *)
Theorem uptime_worker_lock_balance rounds fuel cluster pool uptime_seconds
    worker_setup (s : State W) :
  let run :=
    uptime_migration_worker rounds fuel cluster pool uptime_seconds
      worker_setup s in
  exists calls,
    trace (snd run) = trace s ++ calls /\
    0 <= held calls <= 1 /\
    (fst run <> OutOfFuel -> held calls = 0).
Proof.
  cbv zeta.
  remember (uptime_migration_worker rounds fuel cluster pool uptime_seconds
              worker_setup s) as run eqn:Erun.
  unfold uptime_migration_worker in Erun. rewrite !bind_call in Erun.
  cbv zeta in Erun.
  destruct (fst (handle bool draining_client _)); cbn [negb] in Erun.
  - match type of Erun with
    | _ = uptime_loop _ _ ?selector _ ?st =>
        destruct (uptime_loop_lock rounds fuel selector worker_setup st)
          as (calls & Et & Hheld)
    end.
    rewrite <- Erun in Et, Hheld.
    exists ([Log (PoolManager_init cluster pool SUPPORTED_POOL_SCHEDULER true);
             Log draining_client] ++ calls).
    split; [rewrite Et; cbn [trace]; now rewrite <- !app_assoc|].
    rewrite held_app. cbn [held].
    destruct Hheld as [->|[-> Hout]]; [split; [lia|reflexivity]|].
    split; [lia|]. intros Hnot. contradiction.
  - exists [Log (PoolManager_init cluster pool SUPPORTED_POOL_SCHEDULER true);
            Log draining_client].
    subst run. cbn [mret M_ret ret fst snd trace].
    split; [now rewrite <- !app_assoc|]. cbn [held]. split; [lia | reflexivity].
Qed.

(** *** The end of a selection *)

Lemma advancing_weaken clock (P Q : Logged -> bool) :
  (forall e, P e = true -> Q e = true) ->
  advancing (W:=W) clock Q -> advancing clock P.
Proof.
  intros HPQ [Hread Hstep]. split; [exact Hread|].
  intros A c w Hc. apply Hstep. now apply HPQ.
Qed.

Lemma nondecreasing_submit_chunk clock selection_chunk :
  advancing clock selection_call ->
  nondecreasing clock (submit_chunk selection_chunk).
Proof.
  intros Hclock.
  induction selection_chunk as [|node rest IH]; [apply nondecreasing_ret|].
  cbn [submit_chunk].
  repeat (apply nondecreasing_bind;
          [apply (nondecreasing_call clock selection_call);
           [exact Hclock | reflexivity | cbn [elapsed]; lia]
          | intros _]).
  exact IH.
Qed.

(** One round of the outer loop comes to its end when the monitor has fuel
    for the seconds of the bootstrap timeout. *)
Lemma drain_chunk_returns clock fuel worker_setup selected chunk i
    (s : State W) :
  advancing clock selection_call ->
  1 <= health_check_interval worker_setup ->
  0 <= bootstrap_wait worker_setup ->
  (Z.to_nat (bootstrap_timeout worker_setup) < fuel)%nat ->
  exists healthy s',
    drain_chunk fuel worker_setup selected chunk i s = (Returned healthy, s').
Proof.
  intros Hclock Hinterval Hwait Hfuel.
  pose proof (advancing_weaken clock monitor_call selection_call
                monitor_call_selection_call Hclock) as Hmonitor.
  unfold drain_chunk. rewrite bind_call. cbv zeta.
  set (start_time := fst (handle Z time_time (world s))).
  set (s1 := mkState _ _).
  destruct (submit_chunk_run (slice selected i (i + chunk)) s1) as (s2 & E & _).
  pose proof (nondecreasing_submit_chunk clock (slice selected i (i + chunk))
                Hclock s1) as Hsubmit.
  rewrite E in Hsubmit. cbn [snd] in Hsubmit.
  rewrite (bind_returned _ _ _ _ _ E). rewrite bind_call.
  set (s3 := mkState _ _).
  destruct Hclock as [Hread Hstep].
  pose proof (Hstep Z time_time (world s) eq_refl) as Hafter.
  pose proof (Hstep unit (time_sleep (bootstrap_wait worker_setup)) (world s2)
                eq_refl) as Hslept.
  cbn [elapsed] in Hafter, Hslept.
  destruct (monitor_loop_returns clock
              (start_time + bootstrap_timeout worker_setup)
              (slice selected i (i + chunk))
              (health_check_interval worker_setup)
              (ignore_pod_health worker_setup) Hmonitor Hinterval fuel
              no_latch s3) as (healthy & s' & Erun & _).
  { subst s3 s1 start_time. cbn [world] in *. rewrite Hread. lia. }
  now exists healthy, s'.
Qed.

Lemma drain_chunks_returns clock fuel worker_setup selected chunk starts :
  advancing clock selection_call ->
  1 <= health_check_interval worker_setup ->
  0 <= bootstrap_wait worker_setup ->
  (Z.to_nat (bootstrap_timeout worker_setup) < fuel)%nat ->
  forall s : State W,
  exists completed s',
    drain_chunks fuel worker_setup selected chunk starts s
    = (Returned completed, s').
Proof.
  intros Hclock Hinterval Hwait Hfuel.
  induction starts as [|i rest IH]; intros s; cbn [drain_chunks].
  - rewrite bind_call. now eexists _, _.
  - destruct (drain_chunk_returns clock fuel worker_setup selected chunk i s
                Hclock Hinterval Hwait Hfuel) as (healthy & s1 & E).
    rewrite (bind_returned _ _ _ _ _ E).
    destruct healthy; cbn [negb]; [apply IH|].
    rewrite bind_call. now eexists _, _.
Qed.

(** X17. Under a clock that never goes back and that sleeping moves on,
    with a poll interval of a second or more and a wait that is not
    negative, [_drain_node_selection] comes to its end once each monitor
    may poll for the seconds of the bootstrap timeout: it returns True or
    False, or raises the ValueError of a zero chunk; it never monitors
    for ever. *)
Theorem drain_node_selection_ends clock fuel selector worker_setup
    (s : State W) :
  advancing clock selection_call ->
  1 <= health_check_interval worker_setup ->
  0 <= bootstrap_wait worker_setup ->
  (Z.to_nat (bootstrap_timeout worker_setup) < fuel)%nat ->
  exists out s',
    _drain_node_selection fuel selector worker_setup s = (out, s') /\
    (out = Raised ValueError \/ exists completed, out = Returned completed).
Proof.
  intros Hclock Hinterval Hwait Hfuel.
  destruct (selection_setup_run s) as (s0 & Esetup & _).
  set (nodes := fst (handle _ (get_node_metadatas AWS_RUNNING_STATES) (world s)))
    in Esetup.
  set (selected :=
    sorted (sort_key (precedence worker_setup)) (List.filter selector nodes)).
  set (chunk := PoolPortion_of (rate worker_setup) (Z.of_nat (length nodes))).
  destruct (decide (selected = [])) as [Hnil|Hsel].
  { rewrite drain_node_selection_empty by exact Hnil.
    eexists _, _. split; [reflexivity|]. right. now exists true. }
  destruct (decide (chunk = 0)) as [Hzero|Hchunk].
  { rewrite (drain_node_selection_raises _ _ _ _ _ _ Esetup Hsel Hzero).
    eexists _, _. split; [reflexivity|]. now left. }
  rewrite (drain_node_selection_loop fuel selector worker_setup s s0 nodes
             Esetup Hsel Hchunk).
  destruct (drain_chunks_returns clock fuel worker_setup selected chunk
              (py_range 0 (Z.of_nat (length selected)) chunk)
              Hclock Hinterval Hwait Hfuel s0) as (completed & s' & E).
  fold selected chunk. rewrite E.
  eexists _, _. split; [reflexivity|]. right. now exists completed.
Qed.

(** *** The order of the submissions *)

Lemma insert_by_key_in_order key x l :
  (forall a b, key_lt a b = true -> key_lt b a = false) ->
  in_precedence_order key l ->
  in_precedence_order key (insert_by_key key x l).
Proof.
  intros Hasym. induction l as [|y ys IH]; intros Hl.
  - cbn. tauto.
  - cbn [insert_by_key]. destruct (key_lt (key y) (key x)) eqn:Hyx.
    + destruct Hl as [Hhead Hrest]. specialize (IH Hrest).
      cbn [in_precedence_order]. split; [|exact IH].
      destruct ys as [|z zs]; cbn [insert_by_key].
      * now apply Hasym.
      * destruct (key_lt (key z) (key x)); [exact Hhead | now apply Hasym].
    + cbn [in_precedence_order]. split; [exact Hyx|]. exact Hl.
Qed.

Lemma sorted_in_order key l :
  (forall a b, key_lt a b = true -> key_lt b a = false) ->
  in_precedence_order key (sorted key l).
Proof.
  intros Hasym. induction l as [|x l IH]; [exact I|].
  unfold sorted. cbn [foldr]. now apply insert_by_key_in_order.
Qed.

Lemma in_order_prefix key (l1 l2 : list ClusterNodeMetadata) :
  in_precedence_order key (l1 ++ l2) -> in_precedence_order key l1.
Proof.
  induction l1 as [|a l1 IH]; [intros _; exact I|].
  cbn [app in_precedence_order]. intros [Hhead Hrest].
  split; [|now apply IH].
  destruct l1 as [|b l1]; [exact I | exact Hhead].
Qed.

(** X18. When the comparison of the sort keys is asymmetric (never both
    [a < b] and [b < a]), [_drain_node_selection] submits the nodes by
    precedence: along the run, no node is submitted right after a node
    whose key is strictly greater. *)
Theorem drain_node_selection_submits_by_precedence fuel selector worker_setup
    (s : State W) :
  (forall a b : SortKey, key_lt a b = true -> key_lt b a = false) ->
  exists drained,
    submitted (trace (snd (_drain_node_selection fuel selector worker_setup s)))
    = submitted (trace s) ++ drained /\
    in_precedence_order (sort_key (precedence worker_setup)) drained.
Proof.
  intros Hasym.
  destruct (drain_node_selection_submits_prefix fuel selector worker_setup s)
    as (drained & Esub & rest & Hrest).
  exists drained. split; [exact Esub|].
  apply (in_order_prefix _ drained rest). rewrite <- Hrest.
  now apply sorted_in_order.
Qed.

(** *** Pods that are not looked at *)

Lemma poll_pool_health_ignoring_pods drained l (s s' : State W) l' :
  poll_pool_health drained true l s = (Returned l', s') ->
  pods_healthy l = draining_happened l ->
  pods_healthy l' = draining_happened l'.
Proof.
  unfold poll_pool_health. rewrite bind_call. set (s1 := mkState _ _).
  destruct l as [d c p]; cbn [draining_happened capacity_satisfied pods_healthy].
  intros Erun ->.
  assert (Hd : exists d' s2,
    (if d then mret true
     else still ← any_agent_unchanged drained; mret (negb still)) s1
    = (Returned d', s2) /\ (d = true -> d' = true)).
  { destruct d; [now exists true, s1 |].
    destruct (any_agent_unchanged_returns drained s1) as (b & s2 & E).
    exists (negb b), s2. now rewrite (bind_returned _ _ _ _ _ E). }
  destruct Hd as (d' & s2 & Ed & Hmono).
  rewrite (bind_returned _ _ _ _ _ Ed) in Erun.
  assert (Hc' : exists c' s3,
    (if c then mret true
     else if d' then call is_capacity_satisfied else mret false) s2
    = (Returned c', s3)).
  { destruct c; [now exists true, s2 |].
    destruct d'; [rewrite call_run|]; now eexists _, _. }
  destruct Hc' as (c' & s3 & Ec).
  rewrite (bind_returned _ _ _ _ _ Ec) in Erun.
  destruct d; [pose proof (Hmono eq_refl); subst d' | destruct d'];
    now injection Erun as <- _.
Qed.

(** X19. When the pods' health is ignored, the latch of the pods is the
    latch of the drain at the end of every poll of
    [_monitor_pool_health]: the verdict then rests on the drain and on the
    capacity alone. *)
Theorem monitor_pool_health_pods_latch_when_ignored n drained interval
    (s : State W) :
  let l := latches_after n drained interval true no_latch s in
  pods_healthy l = draining_happened l /\
  all_latched l = draining_happened l && capacity_satisfied l.
Proof.
  cbv zeta.
  assert (Hhead : forall n l (s : State W) l' s',
    loop_head n drained interval true l s = (Returned l', s') ->
    pods_healthy l = draining_happened l ->
    pods_healthy l' = draining_happened l').
  { clear n s. induction n as [|n IH]; intros l s l' s' Erun Hl.
    - cbn [loop_head] in Erun. now injection Erun as <- _.
    - cbn [loop_head] in Erun. rewrite bind_call in Erun.
      set (s1 := mkState _ _) in Erun.
      destruct (poll_pool_health_returns drained true l s1)
        as (l1 & s2 & Epoll & _).
      rewrite (bind_returned _ _ _ _ _ Epoll), bind_call in Erun.
      apply (IH _ _ _ _ Erun).
      exact (poll_pool_health_ignoring_pods _ _ _ _ _ Epoll Hl). }
  assert (Hpods :
    pods_healthy (latches_after n drained interval true no_latch s)
    = draining_happened (latches_after n drained interval true no_latch s)).
  { unfold latches_after.
    destruct (loop_head n drained interval true no_latch s)
      as [[l1|e|] s1] eqn:Ehead.
    - rewrite (bind_returned _ _ _ _ _ Ehead), bind_call.
      set (s2 := mkState _ _).
      destruct (poll_pool_health_returns drained true l1 s2)
        as (l2 & s3 & Epoll & _).
      rewrite Epoll. cbn [value_or].
      apply (poll_pool_health_ignoring_pods _ _ _ _ _ Epoll).
      exact (Hhead _ _ _ _ _ Ehead eq_refl).
    - rewrite (bind_raised _ _ _ _ _ Ehead). reflexivity.
    - rewrite (bind_out_of_fuel _ _ _ _ Ehead). reflexivity. }
  split; [exact Hpods|].
  unfold all_latched. rewrite Hpods.
  destruct (draining_happened _), (capacity_satisfied _); reflexivity.
Qed.

(** *** A pool that is healthy already *)

(** X20. The first health check of the event worker (nothing drained, the
    pods ignored) on a pool whose capacity is satisfied: before the
    timeout, [_monitor_pool_health] returns True at its first poll, after
    one reading of the clock, one reload and one question on the capacity,
    and without sleeping. *)
Theorem monitor_pool_health_healthy_at_once fuel timeout interval
    (s : State W) :
  fst (handle Z time_time (world s)) < timeout ->
  (forall w, fst (handle bool is_capacity_satisfied w) = true) ->
  fst (_monitor_pool_health (S fuel) timeout [] interval true s)
  = Returned true /\
  trace (snd (_monitor_pool_health (S fuel) timeout [] interval true s))
  = trace s ++ [Log time_time; Log (reload_state false);
                Log is_capacity_satisfied].
Proof.
  intros Hnow Hcapacity. apply Z.ltb_lt in Hnow.
  unfold _monitor_pool_health. cbn [monitor_loop].
  rewrite bind_call, Hnow. unfold poll_pool_health.
  cbn [no_latch draining_happened capacity_satisfied pods_healthy
       any_agent_unchanged negb].
  rewrite bind_assoc, bind_call.
  unfold mbind, M_bind, bind, mret, M_ret, ret, call.
  cbn [fst snd world trace negb]. rewrite Hcapacity.
  cbn [all_latched draining_happened capacity_satisfied pods_healthy andb
       fst snd trace].
  split; [reflexivity|]. now rewrite <- !app_assoc.
Qed.

(** *** The uptime worker on a pool that is short of capacity *)

Lemma uptime_loop_skips rounds fuel node_selector worker_setup :
  (forall w, fst (handle bool is_capacity_satisfied w) = false) ->
  forall s : State W,
  exists calls,
    trace (snd (uptime_loop rounds fuel node_selector worker_setup s))
    = trace s ++ calls /\
    forallb (fun e => negb (lock_call e)) calls = true /\
    submitted calls = [].
Proof.
  intros Hnever. induction rounds as [|rounds IH]; intros s.
  { exists []. cbn [uptime_loop out_of_fuel snd]. rewrite app_nil_r.
    repeat split. }
  cbn [uptime_loop]. rewrite bind_call, Hnever. cbn [when].
  rewrite bind_ret, !bind_call.
  match goal with |- context [uptime_loop rounds _ _ _ ?s3] =>
    destruct (IH s3) as (more & Et & Hlock & Hsub) end.
  exists ([Log is_capacity_satisfied;
           Log (time_sleep UPTIME_CHECK_INTERVAL_SECONDS);
           Log (reload_state (negb (ignore_pod_health worker_setup)))] ++ more).
  split; [rewrite Et; cbn [trace]; now rewrite <- !app_assoc|].
  split; [exact Hlock|]. exact Hsub.
Qed.

(** X21. While [is_capacity_satisfied] answers False, the uptime worker
    skips every iteration: it never takes the pool lock and submits no
    node for draining, however many rounds it runs. *)
Theorem uptime_worker_skips_underprovisioned_pool rounds fuel cluster pool
    uptime_seconds worker_setup (s : State W) :
  (forall w, fst (handle bool is_capacity_satisfied w) = false) ->
  exists calls,
    trace (snd (uptime_migration_worker rounds fuel cluster pool uptime_seconds
                  worker_setup s))
    = trace s ++ calls /\
    forallb (fun e => negb (lock_call e)) calls = true /\
    submitted calls = [].
Proof.
  intros Hnever. unfold uptime_migration_worker. rewrite !bind_call. cbv zeta.
  destruct (fst (handle bool draining_client _)); cbn [negb].
  - match goal with |- context [uptime_loop _ _ ?selector _ ?s2] =>
      destruct (uptime_loop_skips rounds fuel selector worker_setup Hnever s2)
        as (calls & Et & Hlock & Hsub) end.
    exists ([Log (PoolManager_init cluster pool SUPPORTED_POOL_SCHEDULER true);
             Log draining_client] ++ calls).
    split; [rewrite Et; cbn [trace]; now rewrite <- !app_assoc|].
    split; [exact Hlock | exact Hsub].
  - exists [Log (PoolManager_init cluster pool SUPPORTED_POOL_SCHEDULER true);
            Log draining_client].
    cbn [mret M_ret ret snd trace]. rewrite <- !app_assoc. repeat split.
Qed.

End WorkerObservations.

(** ** The clock of the simulated pool *)

Lemma sim_clock_advances : advancing Sim.clock selection_call.
Proof.
  split; [reflexivity|].
  intros A c w Hc. destruct c; try discriminate; cbn; lia.
Qed.

Lemma sim_clock_advances_for_monitor : advancing Sim.clock monitor_call.
Proof.
  split; [reflexivity|].
  intros A c w Hc. destruct c; try discriminate; cbn; lia.
Qed.

Lemma monitor_pool_health_returns_witness :
  exists healthy s',
    _monitor_pool_health 21 20 Sim.six_nodes 5 false
      (Sim.start Sim.unhealthy_pool) = (Returned healthy, s')
    /\ (healthy = false -> 20 <= Sim.clock (world s')).
Proof.
  apply (monitor_pool_health_returns Sim.clock 21 20 Sim.six_nodes 5 false
           (Sim.start Sim.unhealthy_pool)).
  - exact sim_clock_advances_for_monitor.
  - lia.
  - vm_compute. lia.
Defined.

Lemma bare_clock_advances capacity :
  advancing (env:=Bare.environment capacity) Bare.clock monitor_call.
Proof.
  split; [reflexivity|].
  intros A c w Hc. destruct c; try discriminate; cbn; unfold Bare.clock; lia.
Qed.

(** ** The selection on the simulated pool, further *)

(** Three nodes selected, two by two: the run returns True and has
    submitted a5, a4 and a3. *)
Lemma drain_node_selection_true_is_complete_witness :
  submitted
    (trace (snd (_drain_node_selection 10 Sim.few_tasks
                   (Sim.setup (Sim.Count 2) false)
                   (Sim.start Sim.healthy_pool))))
  = Sim.selected_nodes.
Proof.
  assert (Erun :
    _drain_node_selection 10 Sim.few_tasks (Sim.setup (Sim.Count 2) false)
      (Sim.start Sim.healthy_pool)
    = (Returned true,
       snd (_drain_node_selection 10 Sim.few_tasks
              (Sim.setup (Sim.Count 2) false) (Sim.start Sim.healthy_pool))))
    by (vm_compute; reflexivity).
  assert (Hchunk :
    0 <= PoolPortion_of (rate (Sim.setup (Sim.Count 2) false))
           (Z.of_nat (length (fst (handle _ (get_node_metadatas AWS_RUNNING_STATES)
                                     (world (Sim.start Sim.healthy_pool)))))))
    by (vm_compute; discriminate).
  exact (drain_node_selection_true_is_complete 10 Sim.few_tasks
           (Sim.setup (Sim.Count 2) false) (Sim.start Sim.healthy_pool) _
           Erun Hchunk).
Defined.

Lemma drain_node_selection_nothing_selected_witness :
  _drain_node_selection 10 (fun _ => false) (Sim.setup (Sim.Count 2) false)
    (Sim.start Sim.healthy_pool)
  = (Returned true,
     mkState Sim.healthy_pool [Log (get_node_metadatas AWS_RUNNING_STATES)]).
Proof.
  assert (Hnone :
    List.filter (fun _ : ClusterNodeMetadata => false)
      (fst (handle _ (get_node_metadatas AWS_RUNNING_STATES)
              (world (Sim.start Sim.healthy_pool)))) = [])
    by reflexivity.
  exact (drain_node_selection_nothing_selected 10 (fun _ => false)
           (Sim.setup (Sim.Count 2) false) (Sim.start Sim.healthy_pool) Hnone).
Defined.

(** A rate of no node at all. *)
Lemma drain_node_selection_zero_chunk_witness :
  let run := _drain_node_selection 10 Sim.few_tasks
               (Sim.setup (Sim.Count 0) false) (Sim.start Sim.healthy_pool) in
  fst run = Raised ValueError /\
  trace (snd run)
  = [Log (get_node_metadatas AWS_RUNNING_STATES);
     Log (create_counter SFX_NODE_DRAIN_COUNT);
     Log (create_timer SFX_MIGRATION_JOB_DURATION);
     Log (create_gauge SFX_DRAINED_NODE_UPTIME);
     Log timer_start].
Proof.
  assert (Hsome :
    List.filter Sim.few_tasks
      (fst (handle _ (get_node_metadatas AWS_RUNNING_STATES)
              (world (Sim.start Sim.healthy_pool)))) <> [])
    by (vm_compute; discriminate).
  assert (Hzero :
    PoolPortion_of (rate (Sim.setup (Sim.Count 0) false))
      (Z.of_nat (length (fst (handle _ (get_node_metadatas AWS_RUNNING_STATES)
                                (world (Sim.start Sim.healthy_pool)))))) = 0)
    by reflexivity.
  exact (drain_node_selection_zero_chunk 10 Sim.few_tasks
           (Sim.setup (Sim.Count 0) false) (Sim.start Sim.healthy_pool)
           Hsome Hzero).
Defined.

(** A rate below zero. *)
Lemma drain_node_selection_negative_chunk_witness :
  let run := _drain_node_selection 10 Sim.few_tasks
               (Sim.setup (Sim.Count (-1)) false) (Sim.start Sim.healthy_pool) in
  fst run = Returned true /\
  trace (snd run)
  = [Log (get_node_metadatas AWS_RUNNING_STATES);
     Log (create_counter SFX_NODE_DRAIN_COUNT);
     Log (create_timer SFX_MIGRATION_JOB_DURATION);
     Log (create_gauge SFX_DRAINED_NODE_UPTIME);
     Log timer_start;
     Log timer_stop].
Proof.
  assert (Hsome :
    List.filter Sim.few_tasks
      (fst (handle _ (get_node_metadatas AWS_RUNNING_STATES)
              (world (Sim.start Sim.healthy_pool)))) <> [])
    by (vm_compute; discriminate).
  assert (Hneg :
    PoolPortion_of (rate (Sim.setup (Sim.Count (-1)) false))
      (Z.of_nat (length (fst (handle _ (get_node_metadatas AWS_RUNNING_STATES)
                                (world (Sim.start Sim.healthy_pool)))))) < 0)
    by reflexivity.
  exact (drain_node_selection_negative_chunk 10 Sim.few_tasks
           (Sim.setup (Sim.Count (-1)) false) (Sim.start Sim.healthy_pool)
           Hsome Hneg).
Defined.

(** Half of a pool of six is three, although half of the three selected
    nodes would be two: the first round submits the three of them. *)
Lemma drain_node_selection_chunk_size_witness :
  (exists after,
     trace (snd (_drain_node_selection 10 Sim.few_tasks
                   (Sim.setup (Sim.Fraction (1 # 2)) false)
                   (Sim.start Sim.healthy_pool)))
     = trace (snd (selection_setup (Sim.start Sim.healthy_pool)))
       ++ Log time_time
          :: submission_calls Sim.selected_nodes
          ++ Log (time_sleep 1) :: after)
  /\ Sim.portion_of (Sim.Fraction (1 # 2)) 3 = 2.
Proof.
  pose (s0 := snd (selection_setup (Sim.start Sim.healthy_pool))).
  assert (Esetup : selection_setup (Sim.start Sim.healthy_pool)
                   = (Returned Sim.six_nodes, s0)) by reflexivity.
  destruct (drain_node_selection_chunk_size 10 Sim.few_tasks
              (Sim.setup (Sim.Fraction (1 # 2)) false)
              (Sim.start Sim.healthy_pool) s0 Sim.six_nodes Esetup)
    as (_ & _ & Hrun).
  split; [|reflexivity].
  apply (Hrun 0%nat Sim.selected_nodes s0).
  - vm_compute. reflexivity.
  - constructor.
Defined.

(** Two healthy chunks, of two nodes and of one. *)
Lemma drain_node_selection_completes_witness :
  fst (_drain_node_selection 10 Sim.few_tasks (Sim.setup (Sim.Count 2) false)
         (Sim.start Sim.healthy_pool)) = Returned true /\
  submitted
    (trace (snd (drain_chunk 10 (Sim.setup (Sim.Count 2) false)
                   Sim.selected_nodes 2 2
                   (snd (drain_chunk 10 (Sim.setup (Sim.Count 2) false)
                           Sim.selected_nodes 2 0
                           (snd (selection_setup
                                   (Sim.start Sim.healthy_pool))))))))
  = Sim.selected_nodes.
Proof.
  pose (s0 := snd (selection_setup (Sim.start Sim.healthy_pool))).
  pose (s1 := snd (drain_chunk 10 (Sim.setup (Sim.Count 2) false)
                     Sim.selected_nodes 2 0 s0)).
  pose (s2 := snd (drain_chunk 10 (Sim.setup (Sim.Count 2) false)
                     Sim.selected_nodes 2 2 s1)).
  assert (Esetup : selection_setup (Sim.start Sim.healthy_pool)
                   = (Returned Sim.six_nodes, s0)) by reflexivity.
  assert (Hsel :
    sorted (sort_key (precedence (Sim.setup (Sim.Count 2) false)))
      (List.filter Sim.few_tasks Sim.six_nodes) <> [])
    by (vm_compute; discriminate).
  assert (Hpos :
    0 < PoolPortion_of (rate (Sim.setup (Sim.Count 2) false))
          (Z.of_nat (length Sim.six_nodes))) by reflexivity.
  assert (Hhealthy :
    chunks_healthy 10 (Sim.setup (Sim.Count 2) false)
      (sorted (sort_key (precedence (Sim.setup (Sim.Count 2) false)))
         (List.filter Sim.few_tasks Sim.six_nodes))
      (PoolPortion_of (rate (Sim.setup (Sim.Count 2) false))
         (Z.of_nat (length Sim.six_nodes)))
      (py_range 0
         (Z.of_nat
            (length
               (sorted (sort_key (precedence (Sim.setup (Sim.Count 2) false)))
                  (List.filter Sim.few_tasks Sim.six_nodes))))
         (PoolPortion_of (rate (Sim.setup (Sim.Count 2) false))
            (Z.of_nat (length Sim.six_nodes))))
      s0 s2).
  { apply (healthy_chunk _ _ _ _ 0 [2] s0 s1 s2); [vm_compute; reflexivity|].
    apply (healthy_chunk _ _ _ _ 2 [] s1 s2 s2); [vm_compute; reflexivity|].
    constructor. }
  destruct (drain_node_selection_completes 10 Sim.few_tasks
              (Sim.setup (Sim.Count 2) false) (Sim.start Sim.healthy_pool)
              s0 s2 Sim.six_nodes Esetup Hsel Hpos Hhealthy) as [Erun Hsub].
  split; [now rewrite Erun | exact Hsub].
Defined.

(** The selection on a pool that never gets healthy comes to an end. *)
Lemma drain_node_selection_ends_witness :
  exists out s',
    _drain_node_selection 21 Sim.few_tasks (Sim.setup (Sim.Count 2) false)
      (Sim.start Sim.unhealthy_pool) = (out, s') /\
    (out = Raised ValueError \/ exists completed, out = Returned completed).
Proof.
  apply (drain_node_selection_ends Sim.clock 21 Sim.few_tasks
           (Sim.setup (Sim.Count 2) false) (Sim.start Sim.unhealthy_pool)).
  - exact sim_clock_advances.
  - simpl. lia.
  - simpl. lia.
  - vm_compute. lia.
Defined.

(** Integers under [<]. *)
Lemma drain_node_selection_submits_by_precedence_witness :
  exists drained,
    submitted
      (trace (snd (_drain_node_selection 10 Sim.few_tasks
                     (Sim.setup (Sim.Count 2) false)
                     (Sim.start Sim.healthy_pool))))
    = submitted (trace (Sim.start Sim.healthy_pool)) ++ drained /\
    in_precedence_order
      (sort_key (precedence (Sim.setup (Sim.Count 2) false))) drained.
Proof.
  assert (Hasym : forall a b : SortKey, key_lt a b = true -> key_lt b a = false).
  { intros a b Hab. apply Z.ltb_lt in Hab. apply Z.ltb_ge. lia. }
  exact (drain_node_selection_submits_by_precedence 10 Sim.few_tasks
           (Sim.setup (Sim.Count 2) false) (Sim.start Sim.healthy_pool) Hasym).
Defined.

(** ** The workers on the simulated pools, further *)

(** The other worker holds the lock at the acquisition, which times out
    after a minute, and frees it during the health check of the pool,
    which gives up after a quarter of an hour: the release in the
    [finally] block finds the lock not locked, ValueError takes the place
    of NodeMigrationError, and autoscaling stays disabled. *)
Lemma event_worker_finally_block_witness :
  let run := event_migration_worker (env:=Handover.environment) 200 Sim.event
               (Sim.setup (Sim.Count 2) true) Handover.start in
  fst run = Raised ValueError /\
  last (trace (snd run)) = Some (Log lock_release).
Proof.
  assert (Hends :
    fst (event_migration_body (env:=Handover.environment) 200 Sim.event
           (Sim.setup (Sim.Count 2) true)
           (snd ((call (H:=Handover.environment)
                    (PoolManager_init (cluster Sim.event) (pool Sim.event)
                       SUPPORTED_POOL_SCHEDULER false) ;;
                  call (H:=Handover.environment)
                    (set_label_selectors (label_selectors Sim.event) true) ;;
                  call (H:=Handover.environment)
                    (reload_state
                       (negb (ignore_pod_health
                                (Sim.setup (Sim.Count 2) true)))))
                   Handover.start))) <> OutOfFuel)
    by (vm_compute; discriminate).
  destruct (event_worker_finally_block (env:=Handover.environment) 200
              Sim.event (Sim.setup (Sim.Count 2) true) Handover.start Hends)
    as [_ Hfree].
  destruct Hfree as [Hout Et]; [vm_compute; reflexivity|].
  cbv zeta. split; [exact Hout|]. rewrite Et. apply last_snoc.
Defined.

(** Pre-scaling computes in floats. Three nodes of weights 0.2, 2.3 and
    1.0, a target capacity of 0 and an offset of 3: the mean is the double
    below 7/6, three times it is the double below 3.5, and the new target
    is 3, where exact arithmetic would give 3.5 and round it to 4. *)
Example prescaling_in_floats :
  let weighted := fun w => mkNode (mkAgent "a" 0) (mkInstance "i" "10.0.0.0" w 0) in
  let pool :=
    Sim.mkPool 0 [weighted (fl (1 # 5)); weighted (fl (23 # 10)); weighted 1%Q]
      0 true true in
  trace (snd (apply_prescaling (Sim.Count 3) (Sim.start pool)))
  = [Log (get_node_metadatas AWS_RUNNING_STATES); Log target_capacity;
     Log (modify_target_capacity 3)]
  /\ py_round (0 + 3 * ((1 # 5) + (23 # 10) + 1) / 3)%Q = 4.
Proof. split; vm_compute; reflexivity. Qed.

(** Pre-scaling on the pool without nodes. *)
Lemma event_worker_prescaling_on_empty_pool_witness :
  fst (event_migration_worker (env:=Bare.environment true) 10 Sim.event
         Bare.prescaled (mkState 0 [])) = Raised StatisticsError.
Proof.
  assert (Hprescaling : prescaling Bare.prescaled = Some (Sim.Count 1))
    by reflexivity.
  assert (Hempty : forall w : Z,
    fst (handle (Environment:=Bare.environment true) _
           (get_node_metadatas AWS_RUNNING_STATES) w) = [])
    by reflexivity.
  assert (Hlocked : forall w : Z,
    fst (handle (Environment:=Bare.environment true) bool lock_release w)
    = true)
    by reflexivity.
  exact (proj1 (event_worker_prescaling_on_empty_pool
                  (env:=Bare.environment true) 10 Sim.event Bare.prescaled
                  (Sim.Count 1) (mkState 0 []) Hprescaling Hempty Hlocked)).
Defined.

(** The pool whose capacity is never satisfied. *)
Lemma event_worker_gives_up_on_unhealthy_pool_witness :
  let run := event_migration_worker (env:=Bare.environment false) 901
               Sim.event (Sim.setup (Sim.Count 2) true) (mkState 0 []) in
  fst run = Raised (NodeMigrationError PoolNotHealthy) /\
  submitted (trace (snd run)) = [].
Proof.
  assert (Hnever : forall w : Z,
    fst (handle (Environment:=Bare.environment false) bool
           is_capacity_satisfied w) = false)
    by reflexivity.
  assert (Hlocked : forall w : Z,
    fst (handle (Environment:=Bare.environment false) bool lock_release w)
    = true)
    by reflexivity.
  assert (Hprescaling : prescaling (Sim.setup (Sim.Count 2) true) = None)
    by reflexivity.
  assert (Hinterval : 1 <= health_check_interval (Sim.setup (Sim.Count 2) true))
    by (simpl; lia).
  assert (Hfuel : (Z.to_nat INITIAL_POOL_HEALTH_TIMEOUT_SECONDS < 901)%nat)
    by (vm_compute; lia).
  exact (event_worker_gives_up_on_unhealthy_pool
           (env:=Bare.environment false) Bare.clock 901 Sim.event
           (Sim.setup (Sim.Count 2) true) (mkState 0 [])
           (bare_clock_advances false) Hnever Hlocked Hprescaling Hinterval
           Hfuel).
Defined.

(** The selection raises under the lock, which is released. *)
Lemma uptime_worker_lock_balance_witness :
  held (trace (snd (uptime_migration_worker 2 10 "test" "pool" 0
                      (Sim.setup (Sim.Count 0) false)
                      (Sim.start Sim.healthy_pool)))) = 0.
Proof.
  destruct (uptime_worker_lock_balance 2 10 "test" "pool" 0
              (Sim.setup (Sim.Count 0) false) (Sim.start Sim.healthy_pool))
    as (calls & Et & _ & Hreleased).
  rewrite Et. change (held calls = 0). apply Hreleased.
  vm_compute. discriminate.
Defined.

(** The pool whose capacity is satisfied, before the timeout. *)
Lemma monitor_pool_health_healthy_at_once_witness :
  fst (_monitor_pool_health (env:=Bare.environment true) 1 100 [] 5 true
         (mkState 0 [])) = Returned true /\
  trace (snd (_monitor_pool_health (env:=Bare.environment true) 1 100 [] 5 true
                (mkState 0 [])))
  = [Log time_time; Log (reload_state false); Log is_capacity_satisfied].
Proof.
  assert (Hnow :
    fst (handle (Environment:=Bare.environment true) Z time_time
           (world (mkState 0 []))) < 100)
    by (simpl; lia).
  assert (Hcapacity : forall w : Z,
    fst (handle (Environment:=Bare.environment true) bool
           is_capacity_satisfied w) = true)
    by reflexivity.
  exact (monitor_pool_health_healthy_at_once (env:=Bare.environment true)
           0 100 5 (mkState 0 []) Hnow Hcapacity).
Defined.

(** Three rounds on the pool whose capacity is never satisfied. *)
Lemma uptime_worker_skips_underprovisioned_pool_witness :
  exists calls,
    trace (snd (uptime_migration_worker (env:=Bare.environment false) 3 10
                  "test" "pool" 0 (Sim.setup (Sim.Count 2) false)
                  (mkState 0 [])))
    = calls /\
    forallb (fun e => negb (lock_call e)) calls = true /\
    submitted calls = [].
Proof.
  assert (Hnever : forall w : Z,
    fst (handle (Environment:=Bare.environment false) bool
           is_capacity_satisfied w) = false)
    by reflexivity.
  exact (uptime_worker_skips_underprovisioned_pool
           (env:=Bare.environment false) 3 10 "test" "pool" 0
           (Sim.setup (Sim.Count 2) false) (mkState 0 []) Hnever).
Defined.
